(** * playwright-vrt: cache fingerprints, URL discovery and run orchestration

    A shallow embedding of the TypeScript sources (the command-line
    entry point with [main], collect.ts, runner.ts, config.ts) and the
    properties of the specification that are checked against them.

    Conventions.
    - JavaScript strings are [string]s holding the UTF-8 bytes of the text.
    - A JSON document (the user's config file, the cache manifest, the
      engine's results file) is a value of [JSON]; an object keeps its
      properties in insertion order, as a JavaScript object does.
    - Code that can throw or call [process.exit] lives in the monad [M]:
      a trace of the observable effects together with a normal result, a
      thrown error or a process exit.  The trace holds what is written
      to disk, what goes to the network, the browser and the engine, and
      the lines of console.error and console.warn; the progress lines of
      console.log are left out. *)

From Stdlib Require Import String Ascii List ZArith Lia Bool DecimalString.
Import ListNotations.

Local Open Scope list_scope.
Local Open Scope string_scope.

(* ===================================================================== *)
(** ** Strings *)

Fixpoint join (sep : string) (parts : list string) : string :=
  match parts with
  | [] => ""
  | [p] => p
  | p :: rest => p ++ sep ++ join sep rest
  end.

Fixpoint repeatStr (s : string) (n : nat) : string :=
  match n with
  | O => ""
  | S k => s ++ repeatStr s k
  end.

Definition byteOf (c : ascii) : Z := Z.of_N (N_of_ascii c).

Definition charOf (b : Z) : ascii := ascii_of_N (Z.to_N b).

Definition bytesOf (s : string) : list Z := map byteOf (list_ascii_of_string s).

(** [s.startsWith(p)] and [s.endsWith(p)]. *)
Definition startsWith (p s : string) : bool := String.prefix p s.

Definition endsWith (p s : string) : bool :=
  (String.length p <=? String.length s)%nat
  && String.eqb (substring (String.length s - String.length p) (String.length p) s) p.

(** [s.slice(0, -1)]. *)
Definition dropLast (s : string) : string := substring 0 (String.length s - 1) s.

Definition hexDigit (d : Z) : ascii :=
  if (d <? 10)%Z then charOf (48 + d) else charOf (87 + d).

(** Decimal digits of a natural number. *)
Definition decimal (n : Z) : string := NilZero.string_of_uint (N.to_uint (Z.to_N n)).

(* ===================================================================== *)
(** ** SHA-256 (FIPS 180-4), the digest behind [createHash('sha256')] *)

Module SHA256.
Local Open Scope Z_scope.

Definition wrap (x : Z) : Z := x mod 4294967296.
Definition add (x y : Z) : Z := wrap (x + y).
Definition rotr (n x : Z) : Z := Z.lor (Z.shiftr x n) (wrap (Z.shiftl x (32 - n))).
Definition shr (n x : Z) : Z := Z.shiftr x n.
Definition neg (x : Z) : Z := Z.lxor x 4294967295.
Definition xor3 (x y z : Z) : Z := Z.lxor (Z.lxor x y) z.

Definition choose (x y z : Z) : Z := Z.lxor (Z.land x y) (Z.land (neg x) z).
Definition majority (x y z : Z) : Z := xor3 (Z.land x y) (Z.land x z) (Z.land y z).
Definition bigSigma0 (x : Z) : Z := xor3 (rotr 2 x) (rotr 13 x) (rotr 22 x).
Definition bigSigma1 (x : Z) : Z := xor3 (rotr 6 x) (rotr 11 x) (rotr 25 x).
Definition smallSigma0 (x : Z) : Z := xor3 (rotr 7 x) (rotr 18 x) (shr 3 x).
Definition smallSigma1 (x : Z) : Z := xor3 (rotr 17 x) (rotr 19 x) (shr 10 x).

(** Fractional parts of the cube roots of the first 64 primes. *)
Definition roundConstants : list Z :=
  [ 1116352408; 1899447441; 3049323471; 3921009573; 961987163; 1508970993;
    2453635748; 2870763221; 3624381080; 310598401; 607225278; 1426881987;
    1925078388; 2162078206; 2614888103; 3248222580; 3835390401; 4022224774;
    264347078; 604807628; 770255983; 1249150122; 1555081692; 1996064986;
    2554220882; 2821834349; 2952996808; 3210313671; 3336571891; 3584528711;
    113926993; 338241895; 666307205; 773529912; 1294757372; 1396182291;
    1695183700; 1986661051; 2177026350; 2456956037; 2730485921; 2820302411;
    3259730800; 3345764771; 3516065817; 3600352804; 4094571909; 275423344;
    430227734; 506948616; 659060556; 883997877; 958139571; 1322822218;
    1537002063; 1747873779; 1955562222; 2024104815; 2227730452; 2361852424;
    2428436474; 2756734187; 3204031479; 3329325298 ].

(** Fractional parts of the square roots of the first 8 primes. *)
Definition initialHash : list Z :=
  [ 1779033703; 3144134277; 1013904242; 2773480762;
    1359893119; 2600822924; 528734635; 1541459225 ].

(** Padding: a 1 bit, zero bits up to 56 mod 64 bytes, the bit length
    on 8 bytes, big-endian. *)
Definition lengthBytes (bits : Z) : list Z :=
  map (fun i => Z.shiftr bits (8 * (7 - Z.of_nat i)) mod 256) (seq 0 8).

Definition pad (msg : list Z) : list Z :=
  let len := Z.of_nat (length msg) in
  let zeros := Z.to_nat ((55 - len) mod 64) in
  (msg ++ [128] ++ repeat 0 zeros ++ lengthBytes (8 * len))%list.

Fixpoint wordsOf (fuel : nat) (bytes : list Z) : list Z :=
  match fuel, bytes with
  | S k, a :: b :: c :: d :: rest =>
      (Z.shiftl a 24 + Z.shiftl b 16 + Z.shiftl c 8 + d) :: wordsOf k rest
  | _, _ => []
  end.

Fixpoint blocksOf (fuel : nat) (words : list Z) : list (list Z) :=
  match fuel, words with
  | S k, _ :: _ => firstn 16 words :: blocksOf k (skipn 16 words)
  | _, _ => []
  end.

(** The message schedule, most recent word first. *)
Definition nextWord (recent : list Z) : Z :=
  add (add (smallSigma1 (nth 1 recent 0)) (nth 6 recent 0))
      (add (smallSigma0 (nth 14 recent 0)) (nth 15 recent 0)).

Fixpoint extend (n : nat) (recent : list Z) : list Z :=
  match n with
  | O => recent
  | S k => extend k (nextWord recent :: recent)
  end.

Definition schedule (block : list Z) : list Z := rev (extend 48 (rev block)).

Record Regs := { ra : Z; rb : Z; rc : Z; rd : Z; re : Z; rf : Z; rg : Z; rh : Z }.

Definition round (r : Regs) (kw : Z * Z) : Regs :=
  let t1 := add (add (add (rh r) (bigSigma1 (re r))) (choose (re r) (rf r) (rg r)))
                (add (fst kw) (snd kw)) in
  let t2 := add (bigSigma0 (ra r)) (majority (ra r) (rb r) (rc r)) in
  {| ra := add t1 t2; rb := ra r; rc := rb r; rd := rc r;
     re := add (rd r) t1; rf := re r; rg := rf r; rh := rg r |}.

Definition regsOf (h : list Z) : Regs :=
  {| ra := nth 0 h 0; rb := nth 1 h 0; rc := nth 2 h 0; rd := nth 3 h 0;
     re := nth 4 h 0; rf := nth 5 h 0; rg := nth 6 h 0; rh := nth 7 h 0 |}.

Definition listOf (r : Regs) : list Z :=
  [ra r; rb r; rc r; rd r; re r; rf r; rg r; rh r].

Definition compress (h : list Z) (block : list Z) : list Z :=
  let r := fold_left round (combine roundConstants (schedule block)) (regsOf h) in
  map (fun p => add (fst p) (snd p)) (combine h (listOf r)).

Definition digestWords (msg : list Z) : list Z :=
  let padded := pad msg in
  let words := wordsOf (length padded) padded in
  fold_left compress (blocksOf (length words) words) initialHash.

Definition hexWord (w : Z) : string :=
  string_of_list_ascii
    (map (fun i => hexDigit (Z.shiftr w (4 * (7 - Z.of_nat i)) mod 16)) (seq 0 8)).

(** [createHash('sha256').update(text).digest('hex')]. *)
Definition hex (text : string) : string :=
  String.concat "" (map hexWord (digestWords (bytesOf text))).
End SHA256.

(* ===================================================================== *)
(** ** JSON values and the JavaScript operations on them *)

(** A number read from a JSON document: the decimal [mant * 10^expo].
    The decimals of a config file have few digits, so the double they
    denote prints back as the same decimal. *)
Record number := { mant : Z; expo : Z }.

Definition int (z : Z) : number := {| mant := z; expo := 0 |}.

#[warnings="-register-all"]
Inductive JSON : Type :=
| JNull
| JBool (b : bool)
| JNum (n : number)
| JStr (s : string)
| JArr (items : list JSON)
| JObj (fields : list (string * JSON)).

(** A JavaScript object: its own properties in insertion order. *)
Definition object := list (string * JSON).

Section Numbers.
Local Open Scope Z_scope.

Definition numIsZero (n : number) : bool := mant n =? 0.
Definition numLt0 (n : number) : bool := mant n <? 0.
Definition numLe0 (n : number) : bool := mant n <=? 0.

(** [n > 1]. *)
Definition numGt1 (n : number) : bool :=
  if 0 <=? expo n then 1 <? mant n * 10 ^ expo n
  else 10 ^ (- expo n) <? mant n.

(** [ToIntegerOrInfinity(n)]: truncation toward zero. *)
Definition numTrunc (n : number) : Z :=
  if 0 <=? expo n then mant n * 10 ^ expo n
  else Z.quot (mant n) (10 ^ (- expo n)).

Fixpoint dropZeros (cs : list ascii) : list ascii :=
  match cs with
  | "0"%char :: rest => dropZeros rest
  | _ => cs
  end.

Definition stripTrailingZeros (digits : string) : string :=
  string_of_list_ascii (rev (dropZeros (rev (list_ascii_of_string digits)))).

(** [Number::toString]: [s] holds the [k] significant digits and [pt]
    is the position of the decimal point. *)
Definition numberToString (n : number) : string :=
  if mant n =? 0 then "0"%string else
  let sign := if mant n <? 0 then "-"%string else ""%string in
  let all := decimal (Z.abs (mant n)) in
  let s := stripTrailingZeros all in
  let k := Z.of_nat (String.length s) in
  let pt := Z.of_nat (String.length all) + expo n in
  let body :=
    if (k <=? pt) && (pt <=? 21) then
      (s ++ repeatStr "0" (Z.to_nat (pt - k)))%string
    else if (0 <? pt) && (pt <=? 21) then
      (substring 0%nat (Z.to_nat pt) s ++ "." ++ substring (Z.to_nat pt) (Z.to_nat (k - pt)) s)%string
    else if (-6 <? pt) && (pt <=? 0) then
      ("0." ++ repeatStr "0" (Z.to_nat (- pt)) ++ s)%string
    else
      let e := pt - 1 in
      let es := ((if (e <? 0)%Z then "-" else "+") ++ decimal (Z.abs e))%string in
      if k =? 1 then (s ++ "e" ++ es)%string
      else (substring 0%nat 1%nat s ++ "." ++ substring 1%nat (Z.to_nat (k - 1)) s ++ "e" ++ es)%string in
  (sign ++ body)%string.
End Numbers.

(** [ToBoolean] of a property read; [None] is [undefined]. *)
Definition truthy (v : option JSON) : bool :=
  match v with
  | None | Some JNull => false
  | Some (JBool b) => b
  | Some (JNum n) => negb (numIsZero n)
  | Some (JStr s) => negb (String.eqb s "")
  | Some (JArr _) | Some (JObj _) => true
  end.

Fixpoint lookup {A : Type} (k : string) (l : list (string * A)) : option A :=
  match l with
  | [] => None
  | (k', v) :: rest => if String.eqb k k' then Some v else lookup k rest
  end.

(** [o[k]]. *)
Definition getProp (k : string) (o : object) : option JSON := lookup k o.

(** [o[k] = v]: an existing property keeps its place, a new one goes last. *)
Fixpoint setProp (k : string) (v : JSON) (o : object) : object :=
  match o with
  | [] => [(k, v)]
  | (k', v') :: rest =>
      if String.eqb k k' then (k, v) :: rest else (k', v') :: setProp k v rest
  end.

(** [{ ...a, ...b }]. *)
Definition spread (a b : object) : object :=
  fold_left (fun acc kv => setProp (fst kv) (snd kv) acc) b a.

(** [Object.keys(o)]. *)
Definition keys (o : object) : list string := map fst o.

(** [v.k] for a value that may be [undefined] or not an object. *)
Definition field (k : string) (v : option JSON) : option JSON :=
  match v with
  | Some (JObj o) => getProp k o
  | _ => None
  end.

(** [Array.prototype.sort()] on strings: ascending code-unit order. *)
Fixpoint insertSorted (k : string) (l : list string) : list string :=
  match l with
  | [] => [k]
  | h :: t => if String.leb k h then k :: l else h :: insertSorted k t
  end.

Definition sortStrings (l : list string) : list string := fold_right insertSorted [] l.

(** An insertion-ordered set of strings: [new Set(l)] read back with
    [Array.from], and the property list JSON.stringify builds from an
    array replacer. *)
Definition setAdd (seen : list string) (x : string) : list string :=
  if existsb (String.eqb x) seen then seen else (seen ++ [x])%list.

Definition setOf (l : list string) : list string := fold_left setAdd l [].

Definition dquote : string := String (charOf 34) "".

(** A line feed. *)
Definition nl : string := String (charOf 10) "".

(** [QuoteJSONString]. *)
Definition quoteChar (c : ascii) : string :=
  let b := byteOf c in
  if (b =? 34)%Z then "\" ++ dquote
  else if (b =? 92)%Z then "\\"
  else if (b =? 8)%Z then "\b"
  else if (b =? 9)%Z then "\t"
  else if (b =? 10)%Z then "\n"
  else if (b =? 12)%Z then "\f"
  else if (b =? 13)%Z then "\r"
  else if (b <? 32)%Z then
    "\u00" ++ String (hexDigit (b / 16)) (String (hexDigit (b mod 16)) "")
  else String c "".

Definition quote (s : string) : string :=
  dquote ++ String.concat "" (map quoteChar (list_ascii_of_string s)) ++ dquote.

(** [SerializeJSONProperty] (JSON.stringify without indentation).  With
    an array replacer the property list [K] is [Some ks]: an object is
    then written with exactly the properties named in [ks], in the order
    of [ks], and this holds at every depth, not only for the outermost
    object.  Without a replacer an object is written with all its own
    properties.  An array is written in full. *)
Fixpoint serialize (K : option (list string)) (v : JSON) {struct v} : string :=
  match v with
  | JNull => "null"
  | JBool true => "true"
  | JBool false => "false"
  | JNum n => numberToString n
  | JStr s => quote s
  | JArr items => "[" ++ join "," (map (serialize K) items) ++ "]"
  | JObj fields =>
      let members :=
        (fix each (fs : list (string * JSON)) : list (string * string) :=
           match fs with
           | [] => []
           | (k, x) :: rest => (k, serialize K x) :: each rest
           end) fields in
      let names := match K with
                   | Some ks => ks
                   | None => map fst fields
                   end in
      "{" ++ join "," (flat_map (fun P => match lookup P members with
                                          | Some str => [quote P ++ ":" ++ str]
                                          | None => []
                                          end) names) ++ "}"
  end.

(** [JSON.stringify(value, replacer)] for an array [replacer] of strings. *)
Definition stringify (value : JSON) (replacer : list string) : string :=
  serialize (Some (setOf replacer)) value.

(* ===================================================================== *)
(** ** The entry point: fingerprints *)

(** [computeFileHash], on the text of the file. *)
Definition computeFileHash (content : string) : string := SHA256.hex content.

Definition computeConfigHash (config : object) : string :=
  let configStr := stringify (JObj config) (sortStrings (keys config)) in
  SHA256.hex configStr.

(* ===================================================================== *)
(** ** Effects: traces, thrown errors and process exits *)

(** What one [runPlaywright] call hands to the spawned engine. *)
Record PlaywrightRunOptions := {
  configPath : string;
  baseURL : string;
  vrtConfig : object;
  outputDir : string;
  updateSnapshots : bool;
  verbose : bool;
  project : option string;
  headed : bool
}.

Inductive Event :=
| ConsoleError (msg : string)              (* console.error, console.warn *)
| FsMkdir (path : string)
| FsWrite (path : string) (content : JSON) (* the document written *)
| FsRemove (path : string)
| SitemapFetch (url : string)              (* network *)
| BrowserLaunch                            (* headless browser *)
| BrowserNewPage
| PageGoto (url : string)
| PageEvaluate
| BrowserClose
| Spawn (options : PlaywrightRunOptions).  (* the capture engine *)

(** A JavaScript [Error]: its message and, for file-system errors, its code. *)
Record Error := { message : string; errno : option string }.

Definition mkError (msg : string) : Error := {| message := msg; errno := None |}.

Inductive Outcome (A : Type) :=
| Returns (a : A)
| Throws (err : Error)
| Exits (code : Z).

Arguments Returns {A} a.
Arguments Throws {A} err.
Arguments Exits {A} code.

Definition M (A : Type) : Type := list Event * Outcome A.

Definition ret {A} (a : A) : M A := ([], Returns a).
Definition throw {A} (err : Error) : M A := ([], Throws err).
Definition exit {A} (code : Z) : M A := ([], Exits code).
Definition emit (e : Event) : M unit := ([e], Returns tt).

Definition bind {A B} (m : M A) (k : A -> M B) : M B :=
  match m with
  | (t, Returns a) => let (t', r) := k a in ((t ++ t')%list, r)
  | (t, Throws err) => (t, Throws err)
  | (t, Exits code) => (t, Exits code)
  end.

Notation "x <- m ;; k" := (bind m (fun x => k))
  (at level 61, m at next level, right associativity).
Notation "m ;;; k" := (bind m (fun _ => k))
  (at level 61, right associativity).

(** [try { m } catch (err) { h err }]; [process.exit] is not caught. *)
Definition tryCatch {A} (m : M A) (h : Error -> M A) : M A :=
  match m with
  | (t, Throws err) => let (t', r) := h err in ((t ++ t')%list, r)
  | _ => m
  end.

(** [try { m } finally { fin }]. *)
Definition tryFinally {A} (m : M A) (fin : M unit) : M A :=
  match m with
  | (t, Exits code) => (t, Exits code)
  | (t, r) =>
      match fin with
      | (t', Returns _) => ((t ++ t')%list, r)
      | (t', Throws err) => ((t ++ t')%list, Throws err)
      | (t', Exits code) => ((t ++ t')%list, Exits code)
      end
  end.

Definition trace {A} (m : M A) : list Event := fst m.
Definition outcome {A} (m : M A) : Outcome A := snd m.

(** Network or browser activity, the engine included. *)
Definition isRemote (e : Event) : bool :=
  match e with
  | SitemapFetch _ | BrowserLaunch | BrowserNewPage | PageGoto _
  | PageEvaluate | BrowserClose | Spawn _ => true
  | _ => false
  end.

(** URL discovery: the sitemap request and the crawl. *)
Definition isDiscovery (e : Event) : bool :=
  match e with
  | SitemapFetch _ | BrowserLaunch | BrowserNewPage | PageGoto _
  | PageEvaluate | BrowserClose => true
  | _ => false
  end.

(** A baseline capture: the engine run in update mode. *)
Definition isBaselineCapture (e : Event) : bool :=
  match e with
  | Spawn o => updateSnapshots o
  | _ => false
  end.

Definition isSpawn (e : Event) : bool :=
  match e with
  | Spawn _ => true
  | _ => false
  end.

(* ===================================================================== *)
(** ** The platform: WHATWG URLs and the glob matcher *)

(** The parts of a parsed [URL] object the sources read. *)
Record URL := {
  protocol : string;   (* with its colon *)
  host : string;       (* with the port, if any *)
  hostname : string;
  pathname : string;
  search : string;     (* empty, or with its question mark *)
  hash : string        (* empty, or with its number sign *)
}.

(** [u.toString()]. *)
Definition href (u : URL) : string :=
  protocol u ++ "//" ++ host u ++ pathname u ++ search u ++ hash u.

(** [u.hash = '']. *)
Definition clearHash (u : URL) : URL :=
  {| protocol := protocol u; host := host u; hostname := hostname u;
     pathname := pathname u; search := search u; hash := "" |}.

(** JavaScript's regular-expression dot stops at the line terminators
    LF, CR, U+2028 and U+2029 (the last two as UTF-8). *)
Fixpoint singleLine (cs : list Z) : bool :=
  match cs with
  | [] => true
  | c :: rest =>
      negb ((c =? 10)%Z || (c =? 13)%Z)
      && negb (match rest with
               | b :: a :: _ => (c =? 226)%Z && (b =? 128)%Z && ((a =? 168)%Z || (a =? 169)%Z)
               | _ => false
               end)
      && singleLine rest
  end.

(** The URL of a web page: http or https. *)
Definition isWeb (u : URL) : bool :=
  String.eqb (protocol u) "http:" || String.eqb (protocol u) "https:".

(** The path of a parsed web URL starts with a slash, and the parser
    leaves no line terminator in the path or the query. *)
Definition rooted (u : URL) : bool :=
  startsWith "/" (pathname u) && singleLine (bytesOf (pathname u ++ search u)).

Class Platform := {
  (** [new URL(s)]; [None] when it throws a TypeError. *)
  parseURL : string -> option URL;
  (** [new URL(rel, base)]. *)
  resolveURL : string -> string -> option URL;
  (** [picomatch(glob, {bash: true})(str)] for a glob other than a lone star. *)
  picomatch : string -> string -> bool;
  parseURL_rooted : forall s u, parseURL s = Some u -> isWeb u = true -> rooted u = true
}.

(** The lone star under [{bash: true}], as the glob library (picomatch,
    not code of this repository) compiles it: a negative lookahead for a
    leading dot, a lookahead for one character, then any characters up
    to the end.  It matches any non-empty single-line text that does not
    start with a dot; slashes are not special. *)
Definition bashStar (str : string) : bool :=
  match str with
  | EmptyString => false
  | String c _ => negb (byteOf c =? 46)%Z && singleLine (bytesOf str)
  end.

(** [micromatch.isMatch(str, patterns, {bash: true})]: some pattern
    matches; an empty pattern is a TypeError. *)
Definition matchGlob `{Platform} (glob str : string) : bool :=
  if String.eqb glob "*" then bashStar str else picomatch glob str.

Definition isMatch `{Platform} (str : string) (patterns : list string) : M bool :=
  if existsb (String.eqb "") patterns
  then throw (mkError "Expected pattern to be a non-empty string")
  else ret (existsb (fun glob => matchGlob glob str) patterns).

(** [new URL(s)] in the monad. *)
Definition newURL `{Platform} (s : string) : M URL :=
  match parseURL s with
  | Some u => ret u
  | None => throw (mkError "Invalid URL")
  end.

(* ===================================================================== *)
(** ** The world one invocation runs in *)

Inductive File (A : Type) :=
| Missing                    (* no such file *)
| Unreadable                 (* present, but its text does not parse *)
| Holds (content : A).

Arguments Missing {A}.
Arguments Unreadable {A}.
Arguments Holds {A} content.

#[warnings="-register-all"]
Inductive Entry :=
| FileEntry (name : string)
| DirEntry (name : string) (children : list Entry).

(** What [sitemap.fetch()] answers: it rejects, or resolves with [sites]. *)
Inductive SitemapReply :=
| FetchFails (msg : string)
| Sites (sites : option (list string)).

(** What the headless browser does during the crawl; [Some msg] is the
    error the step throws. *)
Record Browser := {
  launchError : option string;
  newPageError : option string;
  gotoError : option string;
  pageUrl : string;                     (* page.url() after the navigation *)
  anchors : option (list string);       (* page.evaluate: the hrefs; None when it throws *)
  closeError : option string
}.

(** How a spawned engine process ends. *)
Inductive EngineReply :=
| SpawnFails (msg : string)             (* the process 'error' event *)
| Closed (code : option Z).             (* the 'close' event *)

Record World := {
  argv : list string;                   (* process.argv from index 2 on *)
  cwd : string;
  packageDir : string;
  now : string;                         (* new Date().toISOString() *)
  configFile : string -> File JSON;     (* the config file at a resolved path *)
  dirExists : string -> bool;           (* directories under the working directory *)
  snapshotEntries : list Entry;         (* content of playwright-snapshots/ *)
  cacheHashFile : File JSON;            (* playwright-snapshots/.cache-hash.json *)
  urlsFile : File JSON;                 (* playwright-snapshots/urls.json *)
  testSpec : option string;             (* tests/vrt.spec.ts of the package *)
  sitemap : string -> SitemapReply;     (* by sitemap URL *)
  browser : Browser;
  engine : bool -> EngineReply;         (* by updateSnapshots *)
  resultsFile : File JSON               (* results.json, once the comparison ran *)
}.

(** [path.join(a, b)] and [path.resolve(p)] on paths in normal form. *)
Definition pathJoin (a b : string) : string := a ++ "/" ++ b.

Definition pathResolve (w : World) (p : string) : string :=
  if startsWith "/" p then p else pathJoin (cwd w) p.

(* ===================================================================== *)
(** ** More JavaScript on JSON values *)

(** The own enumerable properties an object spread copies. *)
Definition ownProps (v : option JSON) : object :=
  match v with
  | Some (JObj o) => o
  | Some (JArr items) =>
      map (fun p => (decimal (Z.of_nat (fst p)), snd p)) (combine (seq 0 (length items)) items)
  | Some (JStr s) =>
      let cs := list_ascii_of_string s in
      map (fun p => (decimal (Z.of_nat (fst p)), JStr (String (snd p) "")))
          (combine (seq 0 (length cs)) cs)
  | _ => []
  end.

(** [v.k] where [v] is a value: a TypeError on [null]. *)
Definition member (k : string) (v : JSON) : M (option JSON) :=
  match v with
  | JNull => throw (mkError ("null is not an object (evaluating '" ++ k ++ "')"))
  | JObj o => ret (getProp k o)
  | _ => ret None
  end.

(** [for (const x of v)]: arrays and strings are iterable. *)
Definition iterate (v : JSON) : M (list JSON) :=
  match v with
  | JArr items => ret items
  | JStr s => ret (map (fun c => JStr (String c "")) (list_ascii_of_string s))
  | _ => throw (mkError "value is not iterable")
  end.

(** [String(v)]. *)
Fixpoint toStringJS (v : JSON) : string :=
  match v with
  | JNull => "null"
  | JBool true => "true"
  | JBool false => "false"
  | JNum n => numberToString n
  | JStr s => s
  | JArr items =>
      join "," (map (fun x => match x with JNull => "" | _ => toStringJS x end) items)
  | JObj _ => "[object Object]"
  end.

Definition toStringOpt (v : option JSON) : string :=
  match v with
  | Some x => toStringJS x
  | None => "undefined"
  end.

(** [v.length === 0]. *)
Definition lengthIsZero (v : option JSON) : bool :=
  match v with
  | Some (JArr items) => match items with [] => true | _ => false end
  | Some (JStr s) => String.eqb s ""
  | _ => false
  end.

(** [v <= 0], [v < 0] and [v > 1] for a property the interface declares
    as a number; [undefined] compares false.  A string, array or object
    in its place would be converted to a number first; the interface
    excludes them and they compare false here. *)
Definition leZero (v : option JSON) : bool :=
  match v with
  | Some (JNum n) => numLe0 n
  | Some JNull | Some (JBool false) => true
  | _ => false
  end.

Definition ltZero (v : option JSON) : bool :=
  match v with
  | Some (JNum n) => numLt0 n
  | _ => false
  end.

Definition gtOne (v : option JSON) : bool :=
  match v with
  | Some (JNum n) => numGt1 n
  | _ => false
  end.

(** [ToIntegerOrInfinity(v)] for a property declared as a number. *)
Definition toInteger (v : JSON) : Z :=
  match v with
  | JNum n => numTrunc n
  | JBool true => 1%Z
  | _ => 0%Z
  end.

(** [l.slice(0, e)]. *)
Definition slice0 {A} (l : list A) (e : Z) : list A :=
  let len := Z.of_nat (length l) in
  let final := if (e <? 0)%Z then Z.max (len + e) 0 else Z.min e len in
  firstn (Z.to_nat final) l.

(* ===================================================================== *)
(** ** config.ts *)

Definition strs (l : list string) : JSON := JArr (map JStr l).

Definition defaultCrawlOptions : object :=
  [ ("maxDepth", JNum (int 1)); ("removeTrailingSlash", JBool true) ].

Definition defaultViewports : JSON :=
  JArr [ JObj [ ("name", JStr "desktop");
                ("width", JNum (int 1920));
                ("height", JNum (int 1080)) ] ].

Definition defaultThreshold : object :=
  [ ("maxDiffPixels", JNum (int 100));
    ("maxDiffPixelRatio", JNum {| mant := 1; expo := -2 |}) ].

Definition DEFAULT_CONFIG : object :=
  [ ("sitemapPath", JStr "/sitemap.xml");
    ("maxUrls", JNum (int 25));
    ("exclude", strs []);
    ("include", strs ["*"]);
    ("crawlOptions", JObj defaultCrawlOptions);
    ("viewports", defaultViewports);
    ("threshold", JObj defaultThreshold) ].

(** The object literal [loadConfig] builds from the parsed file [config]:
    the defaults, overwritten by the file, with the two nested objects
    merged property by property. *)
Definition mergeDefaults (config : JSON) : M object :=
  crawlOptions <- member "crawlOptions" config ;;
  viewports <- member "viewports" config ;;
  threshold <- member "threshold" config ;;
  ret (setProp "threshold" (JObj (spread defaultThreshold (ownProps threshold)))
        (setProp "viewports" (match viewports with
                              | Some v => if truthy viewports then v else defaultViewports
                              | None => defaultViewports
                              end)
          (setProp "crawlOptions" (JObj (spread defaultCrawlOptions (ownProps crawlOptions)))
            (spread DEFAULT_CONFIG (ownProps (Some config)))))).

Definition loadConfig (w : World) (path : string) : M object :=
  tryCatch
    (match configFile w path with
     | Missing => throw {| message := "ENOENT: no such file or directory";
                           errno := Some "ENOENT" |}
     | Unreadable => throw (mkError "JSON Parse error")
     | Holds config => mergeDefaults config
     end)
    (fun error =>
       match errno error with
       | Some "ENOENT" => throw (mkError ("Config file not found: " ++ path))
       | _ => throw error
       end).

(** One round of the viewport loop of [validateConfig]. *)
Definition validateViewport (vp : JSON) : M unit :=
  name <- member "name" vp ;;
  width <- member "width" vp ;;
  height <- member "height" vp ;;
  if negb (truthy name) || leZero width || leZero height
  then throw (mkError ("Invalid viewport configuration: " ++ serialize None vp))
  else ret tt.

Fixpoint forEach {A} (body : A -> M unit) (l : list A) : M unit :=
  match l with
  | [] => ret tt
  | x :: rest => body x ;;; forEach body rest
  end.

Definition validateConfig `{Platform} (config : object) : M unit :=
  let testUrl := getProp "testUrl" config in
  let referenceUrl := getProp "referenceUrl" config in
  let viewports := getProp "viewports" config in
  let threshold := getProp "threshold" config in
  if negb (truthy testUrl) then throw (mkError "testUrl is required") else
  if negb (truthy referenceUrl) then throw (mkError "referenceUrl is required") else
  tryCatch (newURL (toStringOpt referenceUrl) ;;; newURL (toStringOpt testUrl) ;;; ret tt)
           (fun _ => throw (mkError "Invalid URL format in referenceUrl or testUrl")) ;;;
  if negb (truthy viewports) || lengthIsZero viewports
  then throw (mkError "At least one viewport must be defined") else
  vps <- iterate (match viewports with Some v => v | None => JNull end) ;;
  forEach validateViewport vps ;;;
  if truthy threshold then
    let ratio := field "maxDiffPixelRatio" threshold in
    if truthy ratio && (ltZero ratio || gtOne ratio)
    then throw (mkError "maxDiffPixelRatio must be between 0 and 1")
    else ret tt
  else ret tt.

(* ===================================================================== *)
(** ** collect.ts *)

Inductive Source := sitemapSource | crawlSource.

Module URLCollectionResult.
Record t := {
  urls : list string;
  source : Source;
  total : nat;
  filtered : nat
}.
End URLCollectionResult.

(** One step that is logged in the trace and may throw. *)
Definition attempt (e : Event) (err : option string) : M unit :=
  emit e ;;;
  match err with
  | Some msg => throw (mkError msg)
  | None => ret tt
  end.

Section Collect.
Context `{Platform}.
Variable w : World.

Definition collectFromSitemap (baseUrl sitemapPath : string) : M (list string) :=
  match resolveURL sitemapPath baseUrl with
  | None => throw (mkError "Invalid URL")
  | Some u =>
      let sitemapUrl := href u in
      emit (SitemapFetch sitemapUrl) ;;;
      match sitemap w sitemapUrl with
      | FetchFails msg => throw (mkError msg)
      | Sites None | Sites (Some []) => throw (mkError "No URLs found in sitemap")
      | Sites (Some sites) => ret sites
      end
  end.

(** The body of the loop over the links of the page; an href that
    does not parse is skipped. *)
Definition addLink (baseUrl : string) (baseUrlObj : URL) (removeTrailingSlash : bool)
           (urls : list string) (link : string) : list string :=
  match parseURL link with
  | None => urls
  | Some linkUrl =>
      if String.eqb (hostname linkUrl) (hostname baseUrlObj) then
        let normalizedUrl := href (clearHash linkUrl) in
        if removeTrailingSlash then
          let cleanUrl :=
            if endsWith "/" normalizedUrl && negb (String.eqb normalizedUrl (baseUrl ++ "/"))
            then dropLast normalizedUrl
            else normalizedUrl in
          setAdd urls cleanUrl
        else setAdd urls normalizedUrl
      else urls
  end.

(** The try block of [crawlWebsite]: what it did, the set [urls] as the
    block leaves it, and the error that ended it, if any. *)
Definition visitHomepage (baseUrl : string) (baseUrlObj : URL) (options : option JSON)
  : list Event * (list string * option Error) :=
  match gotoError (browser w) with
  | Some msg => ([PageGoto baseUrl], ([], Some (mkError msg)))
  | None =>
      let urls := setAdd [] (pageUrl (browser w)) in
      match anchors (browser w) with
      | None => ([PageGoto baseUrl; PageEvaluate], (urls, Some (mkError "page.evaluate failed")))
      | Some links =>
          ([PageGoto baseUrl; PageEvaluate],
           (fold_left (addLink baseUrl baseUrlObj (truthy (field "removeTrailingSlash" options)))
                      links urls, None))
      end
  end.

Definition crawlWebsite (baseUrl : string) (options : option JSON) : M (list string) :=
  attempt BrowserLaunch (launchError (browser w)) ;;;
  attempt BrowserNewPage (newPageError (browser w)) ;;;
  baseUrlObj <- newURL baseUrl ;;
  tryFinally
    (let '(t, (urls, failure)) := visitHomepage baseUrl baseUrlObj options in
     (t, Returns tt) ;;;
     match failure with
     | None => ret urls
     | Some error =>
         emit (ConsoleError ("   Crawler error: " ++ message error)) ;;;
         (* At minimum, return the base URL *)
         ret (setAdd urls baseUrl)
     end)
    (attempt BrowserClose (closeError (browser w))).

(** The callback of [urls.filter]. *)
Definition keepURL (baseUrl : string) (include exclude : list string) (url : string) : M bool :=
  urlObj <- newURL url ;;
  let path := pathname urlObj ++ search urlObj in
  baseObj <- newURL baseUrl ;;
  if negb (String.eqb (hostname urlObj) (hostname baseObj)) then ret false else
  excluded <- match exclude with
              | [] => ret false
              | _ => isMatch path exclude
              end ;;
  if excluded then ret false else
  match include with
  | [] => ret true
  | _ => isMatch path include
  end.

Fixpoint filterURLs (urls : list string) (baseUrl : string) (include exclude : list string)
  : M (list string) :=
  match urls with
  | [] => ret []
  | url :: rest =>
      keep <- keepURL baseUrl include exclude url ;;
      kept <- filterURLs rest baseUrl include exclude ;;
      ret (if keep then url :: kept else kept)
  end.

(** A glob list read from the config: an array of patterns or a single
    pattern; anything that is not a string is no pattern at all. *)
Definition globsOf (v : JSON) : list string :=
  match v with
  | JArr items => map (fun x => match x with JStr s => s | _ => "" end) items
  | JStr s => [s]
  | _ => []
  end.

(** [config.include || ['*']] and [config.exclude || []]. *)
Definition includeOf (config : object) : list string :=
  match getProp "include" config with
  | Some v => if truthy (Some v) then globsOf v else ["*"]
  | None => ["*"]
  end.

Definition excludeOf (config : object) : list string :=
  match getProp "exclude" config with
  | Some v => if truthy (Some v) then globsOf v else []
  | None => []
  end.

(** [config.sitemapPath || '/sitemap.xml']. *)
Definition sitemapPathOf (config : object) : string :=
  if truthy (getProp "sitemapPath" config)
  then toStringOpt (getProp "sitemapPath" config)
  else "/sitemap.xml".

(** [config.maxUrls || 25], as [slice] reads it. *)
Definition maxUrlsOf (config : object) : Z :=
  match getProp "maxUrls" config with
  | Some v => if truthy (Some v) then toInteger v else 25%Z
  | None => 25%Z
  end.

(** Lines 19 to 27: the sitemap, or else the crawl. *)
Definition discover (config : object) : M (list string * Source) :=
  let referenceUrl := toStringOpt (getProp "referenceUrl" config) in
  tryCatch
    (urls <- collectFromSitemap referenceUrl (sitemapPathOf config) ;;
     ret (urls, sitemapSource))
    (fun error =>
       emit (ConsoleError "⚠️ Sitemap fetch failed, falling back to crawler") ;;;
       urls <- crawlWebsite referenceUrl (getProp "crawlOptions" config) ;;
       ret (urls, crawlSource)).

Definition collectURLs (config : object) : M URLCollectionResult.t :=
  let referenceUrl := toStringOpt (getProp "referenceUrl" config) in
  found <- discover config ;;
  let totalUrls := length (fst found) in
  urls <- filterURLs (fst found) referenceUrl (includeOf config) (excludeOf config) ;;
  let urls := setOf urls in
  let maxUrls := maxUrlsOf config in
  let filteredCount := length urls in
  let urls := slice0 urls maxUrls in
  ret {| URLCollectionResult.urls := urls;
         URLCollectionResult.source := snd found;
         URLCollectionResult.total := totalUrls;
         URLCollectionResult.filtered := filteredCount |}.
End Collect.

(* ===================================================================== *)
(** ** runner.ts *)

Module TestResults.
Record t := {
  passed : Z;
  failed : Z;
  total : Z;
  exitCode : Z
}.
End TestResults.

Module RunnerOptions.
Record t := {
  config : object;
  outputDir : string;
  verbose : bool;
  project : option string;
  updateBaseline : bool;
  hasExplicitReference : bool;
  headed : bool
}.
End RunnerOptions.

(** The recursive search for a .png file: [hasSnapshotFiles] on the
    entries of a directory. *)
Fixpoint isSnapshotOrHoldsOne (entry : Entry) : bool :=
  match entry with
  | FileEntry name => endsWith ".png" name
  | DirEntry _ children => existsb isSnapshotOrHoldsOne children
  end.

Definition hasSnapshotFiles (entries : list Entry) : bool :=
  existsb isSnapshotOrHoldsOne entries.

Definition snapshotsName : string := "playwright-snapshots".

Definition hasExistingSnapshots (w : World) : bool :=
  if negb (dirExists w snapshotsName) then false
  else hasSnapshotFiles (snapshotEntries w).

Definition runPlaywright (w : World) (options : PlaywrightRunOptions) : M Z :=
  emit (Spawn options) ;;;
  match engine w (updateSnapshots options) with
  | SpawnFails msg => throw (mkError ("Failed to run Playwright: " ++ msg))
  | Closed code =>
      let exitCode := match code with Some c => c | None => 0%Z end in
      (* For baseline creation (update-snapshots), always succeed *)
      if updateSnapshots options then ret 0%Z else ret exitCode
  end.

(** The two nested loops of [parseResults], counting as they go. *)
Definition countSpec (acc : Z * Z * Z) (spec : JSON) : M (Z * Z * Z) :=
  let '(passed, failed, total) := acc in
  ok <- member "ok" spec ;;
  if truthy ok then ret (passed + 1, failed, total + 1)%Z
  else ret (passed, failed + 1, total + 1)%Z.

Fixpoint foldM {A B} (step : B -> A -> M B) (l : list A) (acc : B) : M B :=
  match l with
  | [] => ret acc
  | x :: rest => acc' <- step acc x ;; foldM step rest acc'
  end.

Definition countSuite (acc : Z * Z * Z) (suite : JSON) : M (Z * Z * Z) :=
  specs <- member "specs" suite ;;
  match specs with
  | Some v => if truthy specs then (l <- iterate v ;; foldM countSpec l acc) else ret acc
  | None => ret acc
  end.

Definition parseResults (w : World) (outputDir : string) : M TestResults.t :=
  tryCatch
    (results <- match resultsFile w with
                | Missing => throw {| message := "ENOENT: no such file or directory";
                                      errno := Some "ENOENT" |}
                | Unreadable => throw (mkError "JSON Parse error")
                | Holds v => ret v
                end ;;
     suites <- member "suites" results ;;
     counts <- match suites with
               | Some v => if truthy suites
                           then (l <- iterate v ;; foldM countSuite l (0, 0, 0)%Z)
                           else ret (0, 0, 0)%Z
               | None => ret (0, 0, 0)%Z
               end ;;
     let '(passed, failed, total) := counts in
     ret {| TestResults.passed := passed; TestResults.failed := failed;
            TestResults.total := total; TestResults.exitCode := 0 |})
    (fun _ =>
       ret {| TestResults.passed := 0; TestResults.failed := 0;
              TestResults.total := 0; TestResults.exitCode := 1 |}).

Definition runVisualTests (w : World) (options : RunnerOptions.t) : M TestResults.t :=
  let config := RunnerOptions.config options in
  let playwrightConfigPath := pathJoin (packageDir w) "playwright.config.js" in
  let hasBaseline := negb (RunnerOptions.updateBaseline options) && hasExistingSnapshots w in
  (if hasBaseline then ret tt
   else
     (* Step 1: Create baseline screenshots *)
     runPlaywright w {| configPath := playwrightConfigPath;
                        baseURL := toStringOpt (getProp "referenceUrl" config);
                        vrtConfig := config;
                        outputDir := RunnerOptions.outputDir options;
                        updateSnapshots := true;
                        verbose := true;
                        project := RunnerOptions.project options;
                        headed := RunnerOptions.headed options |} ;;;
     ret tt) ;;;
  (* Step 2: Run tests against test URL *)
  exitCode <- runPlaywright w {| configPath := playwrightConfigPath;
                                 baseURL := toStringOpt (getProp "testUrl" config);
                                 vrtConfig := config;
                                 outputDir := RunnerOptions.outputDir options;
                                 updateSnapshots := false;
                                 verbose := true;
                                 project := RunnerOptions.project options;
                                 headed := RunnerOptions.headed options |} ;;
  results <- parseResults w (RunnerOptions.outputDir options) ;;
  (* results.exitCode = exitCode *)
  ret {| TestResults.passed := TestResults.passed results;
         TestResults.failed := TestResults.failed results;
         TestResults.total := TestResults.total results;
         TestResults.exitCode := exitCode |}.

(* ===================================================================== *)
(** ** The entry point: arguments, cache check and [main] *)

(** A JavaScript number as [parseInt] returns it. *)
Inductive jsnum :=
| NaN
| Num (z : Z).

Module CLIOptions.
Record t := {
  reference : option string;
  test : option string;
  config : option string;
  output : option string;
  maxUrls : option jsnum;
  project : option string;
  verbose : bool;
  updateBaseline : bool;
  headed : bool
}.
End CLIOptions.

Definition truthyStr (s : option string) : bool :=
  match s with
  | Some x => negb (String.eqb x "")
  | None => false
  end.

Definition truthyNum (n : option jsnum) : bool :=
  match n with
  | Some (Num z) => negb (z =? 0)%Z
  | _ => false
  end.

Definition isDigit (c : ascii) : bool := ((48 <=? byteOf c) && (byteOf c <=? 57))%Z.

Definition isSpace (c : ascii) : bool :=
  ((byteOf c =? 32) || ((9 <=? byteOf c) && (byteOf c <=? 13)))%Z.

Fixpoint skipSpaces (cs : list ascii) : list ascii :=
  match cs with
  | c :: rest => if isSpace c then skipSpaces rest else cs
  | [] => []
  end.

Fixpoint readDigits (cs : list ascii) (acc : option Z) : option Z :=
  match cs with
  | c :: rest =>
      if isDigit c
      then readDigits rest (Some (10 * match acc with Some a => a | None => 0 end
                                  + (byteOf c - 48))%Z)
      else acc
  | [] => acc
  end.

(** [parseInt(next, 10)]; a missing argument reads as the text "undefined". *)
Definition parseInt10 (next : option string) : jsnum :=
  let text := match next with Some s => s | None => "undefined" end in
  let cs := skipSpaces (list_ascii_of_string text) in
  let '(negative, digits) :=
    match cs with
    | "-"%char :: rest => (true, rest)
    | "+"%char :: rest => (false, rest)
    | _ => (false, cs)
    end in
  match readDigits digits None with
  | None => NaN
  | Some v => Num (if negative then - v else v)%Z
  end.

Definition noArgs : CLIOptions.t :=
  {| CLIOptions.reference := None; CLIOptions.test := None;
     CLIOptions.config := Some ""; CLIOptions.output := None;
     CLIOptions.maxUrls := None; CLIOptions.project := None;
     CLIOptions.verbose := false; CLIOptions.updateBaseline := false;
     CLIOptions.headed := false |}.

Section ArgsUpdate.
Import CLIOptions.

Definition withReference (v : option string) (a : t) : t :=
  {| reference := v; test := test a; config := config a; output := output a;
     maxUrls := maxUrls a; project := project a; verbose := verbose a;
     updateBaseline := updateBaseline a; headed := headed a |}.
Definition withTest (v : option string) (a : t) : t :=
  {| reference := reference a; test := v; config := config a; output := output a;
     maxUrls := maxUrls a; project := project a; verbose := verbose a;
     updateBaseline := updateBaseline a; headed := headed a |}.
Definition withConfig (v : option string) (a : t) : t :=
  {| reference := reference a; test := test a; config := v; output := output a;
     maxUrls := maxUrls a; project := project a; verbose := verbose a;
     updateBaseline := updateBaseline a; headed := headed a |}.
Definition withOutput (v : option string) (a : t) : t :=
  {| reference := reference a; test := test a; config := config a; output := v;
     maxUrls := maxUrls a; project := project a; verbose := verbose a;
     updateBaseline := updateBaseline a; headed := headed a |}.
Definition withMaxUrls (v : option jsnum) (a : t) : t :=
  {| reference := reference a; test := test a; config := config a; output := output a;
     maxUrls := v; project := project a; verbose := verbose a;
     updateBaseline := updateBaseline a; headed := headed a |}.
Definition withProject (v : option string) (a : t) : t :=
  {| reference := reference a; test := test a; config := config a; output := output a;
     maxUrls := maxUrls a; project := v; verbose := verbose a;
     updateBaseline := updateBaseline a; headed := headed a |}.
Definition withVerbose (a : t) : t :=
  {| reference := reference a; test := test a; config := config a; output := output a;
     maxUrls := maxUrls a; project := project a; verbose := true;
     updateBaseline := updateBaseline a; headed := headed a |}.
Definition withHeaded (a : t) : t :=
  {| reference := reference a; test := test a; config := config a; output := output a;
     maxUrls := maxUrls a; project := project a; verbose := verbose a;
     updateBaseline := updateBaseline a; headed := true |}.
Definition withUpdateBaseline (a : t) : t :=
  {| reference := reference a; test := test a; config := config a; output := output a;
     maxUrls := maxUrls a; project := project a; verbose := verbose a;
     updateBaseline := true; headed := headed a |}.
End ArgsUpdate.

(** The --clean case: the three directories are removed when present. *)
Definition clean (w : World) : M unit :=
  forEach (fun dir => if dirExists w dir then emit (FsRemove (pathResolve w dir)) else ret tt)
          ["playwright-snapshots"; "playwright-report"; "playwright-tmp"].

(** The loop of [parseArgs] from index [i] on: [arg] is the head of
    [rest], [next] the element after it; a flag with a value skips it. *)
Fixpoint parseArgsFrom (w : World) (rest : list string) (args : CLIOptions.t)
  : M CLIOptions.t :=
  match rest with
  | [] => ret args
  | arg :: after =>
      let next := hd_error after in
      let skip (set : option string -> CLIOptions.t -> CLIOptions.t) :=
        match after with
        | [] => ret (set next args)
        | _ :: after' => parseArgsFrom w after' (set next args)
        end in
      if String.eqb arg "--reference" then skip withReference
      else if String.eqb arg "--test" then skip withTest
      else if String.eqb arg "--config" then skip withConfig
      else if String.eqb arg "--output" then skip withOutput
      else if String.eqb arg "--max-urls"
           then skip (fun n => withMaxUrls (Some (parseInt10 n)))
      else if String.eqb arg "--project" then skip withProject
      else if String.eqb arg "--verbose" then parseArgsFrom w after (withVerbose args)
      else if String.eqb arg "--headed" then parseArgsFrom w after (withHeaded args)
      else if String.eqb arg "--update-baseline"
           then parseArgsFrom w after (withUpdateBaseline args)
      else if String.eqb arg "--clean" then clean w ;;; exit 0
      else if String.eqb arg "--help" || String.eqb arg "-h" then exit 0
      else parseArgsFrom w after args
  end.

Definition parseArgs (w : World) : M CLIOptions.t := parseArgsFrom w (argv w) noArgs.

Definition strictEquals (v : option JSON) (s : string) : bool :=
  match v with
  | Some (JStr x) => String.eqb x s
  | _ => false
  end.

(** [isCacheValid]: no manifest, an unreadable one, or one that is
    [null] (reading its timestamp throws) is invalid. *)
Definition isCacheValid (w : World) (config : object) : bool :=
  match cacheHashFile w with
  | Missing | Unreadable | Holds JNull => false
  | Holds stored =>
      let currentConfig := computeConfigHash config in
      let currentTestFile := match testSpec w with
                             | Some text => computeFileHash text
                             | None => ""
                             end in
      strictEquals (field "config" (Some stored)) currentConfig
      && strictEquals (field "testFile" (Some stored)) currentTestFile
  end.

Definition snapshotDir (w : World) : string := pathResolve w snapshotsName.

(** The manifest [saveCacheHashes] writes. *)
Definition hashesOf (w : World) (config : object) : JSON :=
  JObj [ ("config", JStr (computeConfigHash config));
         ("testFile", JStr (match testSpec w with
                            | Some text => computeFileHash text
                            | None => ""
                            end));
         ("timestamp", JStr (now w)) ].

Definition saveCacheHashes (w : World) (config : object) : M unit :=
  emit (FsWrite (pathJoin (snapshotDir w) ".cache-hash.json") (hashesOf w config)).

Definition textOf (s : option string) : string :=
  match s with
  | Some x => x
  | None => ""
  end.

Definition valueOf (v : option JSON) : JSON :=
  match v with
  | Some x => x
  | None => JNull
  end.

(** Lines 99 to 111: the overrides from the command line, and the
    reference URL defaulting to the test URL. *)
Definition applyOverrides (args : CLIOptions.t) (config : object) : object * bool :=
  let config := if truthyStr (CLIOptions.test args)
                then setProp "testUrl" (JStr (textOf (CLIOptions.test args))) config
                else config in
  let config := if truthyStr (CLIOptions.reference args)
                then setProp "referenceUrl" (JStr (textOf (CLIOptions.reference args))) config
                else config in
  let '(config, hasExplicitReference) :=
    if negb (truthy (getProp "referenceUrl" config)) && truthy (getProp "testUrl" config)
    then (setProp "referenceUrl" (valueOf (getProp "testUrl" config)) config, false)
    else (config, true) in
  let config := match CLIOptions.maxUrls args with
                | Some (Num z) => if (z =? 0)%Z then config
                                  else setProp "maxUrls" (JNum (int z)) config
                | _ => config
                end in
  (config, hasExplicitReference).

Record Prepared := {
  config : object;
  hasExplicitReference : bool;
  cacheValid : bool
}.

(** The five lines the policy gate prints before it exits. *)
Definition ambiguityLines : list string :=
  [ nl ++ "❌ Error: No baseline snapshots found and no reference URL provided.";
    "   Either:";
    "   1. Provide --reference <url> to create baseline from a reference system";
    "   2. Use --update-baseline to create baseline from test URL";
    "   3. Add referenceUrl to your config file" ++ nl ].

(** [urls.length === 0] on what was read back from urls.json. *)
Definition isEmptyList (urls : JSON) : M bool :=
  match urls with
  | JNull => throw (mkError "null is not an object (evaluating 'urls.length')")
  | _ => ret (lengthIsZero (Some urls))
  end.

Section Main.
Context `{Platform}.
Variable w : World.

(** Lines 85 to 137 of [main]: the effective configuration and the
    validity of the cache. *)
Definition prepare (args : CLIOptions.t) : M Prepared :=
  loaded <- (if truthyStr (CLIOptions.config args)
             then loadConfig w (pathResolve w (textOf (CLIOptions.config args)))
             else ret DEFAULT_CONFIG) ;;
  let '(config, hasExplicitReference) := applyOverrides args loaded in
  validateConfig config ;;;
  (if negb (dirExists w snapshotsName) then emit (FsMkdir (snapshotDir w)) else ret tt) ;;;
  ret {| config := config;
         hasExplicitReference := hasExplicitReference;
         cacheValid := isCacheValid w config |}.

(** The condition of the policy gate, line 140. *)
Definition refuses (args : CLIOptions.t) (st : Prepared) : bool :=
  negb (hasExplicitReference st) && negb (cacheValid st)
  && negb (CLIOptions.updateBaseline args).

(** Lines 149 to 215: the URL list, the two phases, the exit status. *)
Definition proceed (args : CLIOptions.t) (st : Prepared) : M unit :=
  let shouldRegenerate := CLIOptions.updateBaseline args || negb (cacheValid st) in
  let urlsPath := pathJoin (snapshotDir w) "urls.json" in
  let outputDir := pathResolve w (if truthyStr (CLIOptions.output args)
                                  then textOf (CLIOptions.output args)
                                  else "playwright-report") in
  let urlsExist := match urlsFile w with Missing => false | _ => true end in
  urls <- (if urlsExist && negb shouldRegenerate then
             (* Load existing URLs *)
             match urlsFile w with
             | Holds urls => ret urls
             | _ => throw (mkError "JSON Parse error")
             end
           else
             (* Collect URLs from sitemap/crawler *)
             urlResult <- collectURLs w (config st) ;;
             let urls := strs (URLCollectionResult.urls urlResult) in
             emit (FsWrite urlsPath urls) ;;;
             saveCacheHashes w (config st) ;;;
             ret urls) ;;
  empty <- isEmptyList urls ;;
  if empty then throw (mkError "No URLs found to test") else
  (if CLIOptions.verbose args
   then match urls with
        | JArr _ => ret tt
        | _ => throw (mkError "urls.forEach is not a function")
        end
   else ret tt) ;;;
  results <- runVisualTests w {| RunnerOptions.config := config st;
                                 RunnerOptions.outputDir := outputDir;
                                 RunnerOptions.verbose := CLIOptions.verbose args;
                                 RunnerOptions.project := CLIOptions.project args;
                                 RunnerOptions.updateBaseline := shouldRegenerate;
                                 RunnerOptions.hasExplicitReference := hasExplicitReference st;
                                 RunnerOptions.headed := CLIOptions.headed args |} ;;
  exit (if (0 <? TestResults.failed results)%Z then 1 else 0)%Z.

Definition refuse : M unit :=
  forEach (fun line => emit (ConsoleError line)) ambiguityLines ;;; exit 2.

Definition main : M unit :=
  args <- parseArgs w ;;
  if negb (truthyStr (CLIOptions.config args)) && negb (truthyStr (CLIOptions.test args))
  then emit (ConsoleError "Error: Either --config or --test is required") ;;; exit 2
  else
    tryCatch
      (st <- prepare args ;;
       if refuses args st then refuse else proceed args st)
      (fun error => emit (ConsoleError (nl ++ "❌ Error: " ++ message error)) ;;; exit 2).
End Main.

(* ===================================================================== *)
(** ** A small platform for concrete runs

    URLs that are already in serialised form (scheme, authority, path,
    query, fragment, no spaces) and globs made of literal text and stars,
    a star standing for any text. *)

Module Demo.
Fixpoint cut (stop : ascii -> bool) (cs : list ascii) : list ascii * list ascii :=
  match cs with
  | [] => ([], [])
  | c :: rest =>
      if stop c then ([], cs)
      else let (before, from) := cut stop rest in (c :: before, from)
  end.

Definition isOneOf (stops : string) (c : ascii) : bool :=
  existsb (Ascii.eqb c) (list_ascii_of_string stops).

Definition isLetter (c : ascii) : bool :=
  ((97 <=? byteOf c) && (byteOf c <=? 122))%Z.

Definition printable (c : ascii) : bool :=
  ((32 <? byteOf c) && (byteOf c <? 127))%Z.

Definition parse (s : string) : option URL :=
  match index 0 "://" s with
  | None => None
  | Some i =>
      let scheme := substring 0 i s in
      let rest := list_ascii_of_string (substring (i + 3) (String.length s - i - 3) s) in
      let (authority, tail) := cut (isOneOf "/?#") rest in
      let (path, tail) := cut (isOneOf "?#") tail in
      let (query, fragment) := cut (isOneOf "#") tail in
      let name := string_of_list_ascii (fst (cut (isOneOf ":") authority)) in
      let u := {| protocol := scheme ++ ":";
                  host := string_of_list_ascii authority;
                  hostname := name;
                  pathname := match path with
                              | [] => "/"
                              | _ => string_of_list_ascii path
                              end;
                  search := match query with
                            | [_] => ""
                            | _ => string_of_list_ascii query
                            end;
                  hash := match fragment with
                          | [_] => ""
                          | _ => string_of_list_ascii fragment
                          end |} in
      if negb (String.eqb scheme "") && forallb isLetter (list_ascii_of_string scheme)
         && negb (String.eqb name "") && forallb printable (list_ascii_of_string s)
         && rooted u
      then Some u else None
  end.

Definition resolve (rel base : string) : option URL :=
  match parse rel with
  | Some u => Some u
  | None =>
      match parse base with
      | Some b =>
          parse (protocol b ++ "//" ++ host b
                 ++ (if startsWith "/" rel then rel else "/" ++ rel))
      | None => None
      end
  end.

Fixpoint wild (glob : list ascii) : list ascii -> bool :=
  match glob with
  | [] => fun str => match str with [] => true | _ => false end
  | "*"%char :: glob' =>
      fix star (str : list ascii) : bool :=
        wild glob' str || match str with
                          | [] => false
                          | _ :: str' => star str'
                          end
  | c :: glob' =>
      fun str => match str with
                 | c' :: str' => Ascii.eqb c c' && wild glob' str'
                 | [] => false
                 end
  end.

Definition glob (pattern str : string) : bool :=
  wild (list_ascii_of_string pattern) (list_ascii_of_string str).

Lemma parse_rooted : forall s u, parse s = Some u -> rooted u = true.
Proof.
  intros s u. unfold parse.
  destruct (index 0 "://" s) as [i|]; [|discriminate].
  destruct (cut _ _) as [authority tail].
  destruct (cut _ tail) as [path tail'].
  destruct (cut _ tail') as [query fragment].
  match goal with |- (if ?c then _ else _) = _ -> _ => destruct c eqn:E end;
    [|discriminate].
  intros [= <-]. rewrite !andb_true_iff in E. apply E.
Qed.

#[export] Instance platform : Platform :=
  {| parseURL := parse; resolveURL := resolve; picomatch := glob;
     parseURL_rooted := fun s u E _ => parse_rooted s u E |}.
End Demo.

(** A browser that works and finds no link on the page it is given. *)
Definition quietBrowser (page : string) : Browser :=
  {| launchError := None; newPageError := None; gotoError := None;
     pageUrl := page; anchors := Some []; closeError := None |}.

(** A working directory /work with the package in /pkg: the command
    line, the content of playwright-snapshots/ (when [onDisk]), the
    manifest and urls.json in it, the sitemap, the browser, the status
    the engine exits with in the comparison, and results.json. *)
Definition world (args : list string) (onDisk : bool) (entries : list Entry)
           (manifest urlsJson : File JSON) (sites : SitemapReply) (chromium : Browser)
           (comparison : EngineReply) (results : File JSON) : World :=
  {| argv := args; cwd := "/work"; packageDir := "/pkg";
     now := "2025-01-01T00:00:00.000Z";
     configFile := fun _ => Missing;
     dirExists := fun _ => onDisk;
     snapshotEntries := entries;
     cacheHashFile := manifest;
     urlsFile := urlsJson;
     testSpec := Some "import { test, expect } from '@playwright/test';";
     sitemap := fun _ => sites;
     browser := chromium;
     engine := fun update => if update then Closed (Some 0%Z) else comparison;
     resultsFile := results |}.

(** Nothing on disk, no network. *)
Definition emptyWorld : World :=
  world [] false [] Missing Missing (FetchFails "offline")
        (quietBrowser "https://a.test/") (Closed (Some 0%Z)) Missing.

(** What a normal run returned, or [default]. *)
Definition returned {A} (default : A) (m : M A) : A :=
  match outcome m with
  | Returns a => a
  | _ => default
  end.

(* ===================================================================== *)
(** ** The specification's own notions *)

(** Key-sorted canonical form: every object, at every depth, with its
    properties in ascending key order. *)
Fixpoint insertField {A} (kv : string * A) (l : list (string * A)) : list (string * A) :=
  match l with
  | [] => [kv]
  | h :: t => if String.leb (fst kv) (fst h) then kv :: l else h :: insertField kv t
  end.

Definition sortFields {A} (l : list (string * A)) : list (string * A) :=
  fold_right insertField [] l.

Fixpoint canonicalize (v : JSON) : JSON :=
  match v with
  | JArr items => JArr (map canonicalize items)
  | JObj fields =>
      JObj (sortFields
              ((fix each (fs : list (string * JSON)) : list (string * JSON) :=
                  match fs with
                  | [] => []
                  | (k, x) :: rest => (k, canonicalize x) :: each rest
                  end) fields))
  | _ => v
  end.

(** The first occurrence of every element, in the order of the list. *)
Fixpoint firstOccurrences (l : list string) : list string :=
  match l with
  | [] => []
  | x :: rest => x :: filter (fun y => negb (String.eqb y x)) (firstOccurrences rest)
  end.

(* ===================================================================== *)
(** * Properties *)

(** ** The digest *)

(** The digests of the empty text, of "abc" and of a two-block text. *)
Example sha256_empty :
  SHA256.hex "" = "e3b0c44298fc1c149afbf4c8996fb92427ae41e4649b934ca495991b7852b855".
Proof. vm_compute. reflexivity. Qed.

Example sha256_abc :
  SHA256.hex "abc" = "ba7816bf8f01cfea414140de5dae2223b00361a396177a9cb410ff61f20015ad".
Proof. vm_compute. reflexivity. Qed.

Example sha256_two_blocks :
  SHA256.hex "abcdbcdecdefdefgefghfghighijhijkijkljklmklmnlmnomnopnopq"
  = "248d6a61d20638b8e5c026930c3e6039a33ce45964ff2167f6ecedd419db06c1".
Proof. vm_compute. reflexivity. Qed.

(** ** JSON values *)

Section JSON_induction.
Variable P : JSON -> Prop.
Hypothesis HNull : P JNull.
Hypothesis HBool : forall b, P (JBool b).
Hypothesis HNum : forall n, P (JNum n).
Hypothesis HStr : forall s, P (JStr s).
Hypothesis HArr : forall items, Forall P items -> P (JArr items).
Hypothesis HObj : forall fields, Forall (fun kv => P (snd kv)) fields -> P (JObj fields).

Fixpoint JSON_induction (v : JSON) : P v :=
  match v with
  | JNull => HNull
  | JBool b => HBool b
  | JNum n => HNum n
  | JStr s => HStr s
  | JArr items =>
      HArr items ((fix all (l : list JSON) : Forall P l :=
                     match l with
                     | [] => Forall_nil _
                     | x :: rest => Forall_cons x (JSON_induction x) (all rest)
                     end) items)
  | JObj fields =>
      HObj fields ((fix all (l : list (string * JSON)) : Forall (fun kv => P (snd kv)) l :=
                      match l with
                      | [] => Forall_nil _
                      | kv :: rest => Forall_cons kv (JSON_induction (snd kv)) (all rest)
                      end) fields)
  end.
End JSON_induction.

Definition mapValues {A B} (f : A -> B) (l : list (string * A)) : list (string * B) :=
  map (fun kv => (fst kv, f (snd kv))) l.

Lemma serialize_object K fields :
  serialize K (JObj fields)
  = "{" ++ join "," (flat_map (fun P => match lookup P (mapValues (serialize K) fields) with
                                        | Some str => [quote P ++ ":" ++ str]
                                        | None => []
                                        end)
                              (match K with Some ks => ks | None => map fst fields end)) ++ "}".
Proof.
  assert (E : forall fs,
             (fix each (fs : list (string * JSON)) : list (string * string) :=
                match fs with
                | [] => []
                | (k, x) :: rest => (k, serialize K x) :: each rest
                end) fs = mapValues (serialize K) fs).
  { induction fs as [|[k x] rest IH]; [reflexivity|].
    cbn [mapValues map fst snd]. f_equal. exact IH. }
  cbn [serialize]. rewrite E. reflexivity.
Qed.

Lemma canonicalize_object fields :
  canonicalize (JObj fields) = JObj (sortFields (mapValues canonicalize fields)).
Proof.
  assert (E : forall fs,
             (fix each (fs : list (string * JSON)) : list (string * JSON) :=
                match fs with
                | [] => []
                | (k, x) :: rest => (k, canonicalize x) :: each rest
                end) fs = mapValues canonicalize fs).
  { induction fs as [|[k x] rest IH]; [reflexivity|].
    cbn [mapValues map fst snd]. f_equal. exact IH. }
  cbn [canonicalize]. rewrite E. reflexivity.
Qed.

Lemma lookup_mapValues {A B} (f : A -> B) k (l : list (string * A)) :
  lookup k (mapValues f l) = option_map f (lookup k l).
Proof.
  induction l as [|[k' x] rest IH]; [reflexivity|].
  cbn. destruct (String.eqb k k'); [reflexivity|exact IH].
Qed.

Lemma leb_refl s : String.leb s s = true.
Proof.
  unfold String.leb.
  destruct (String.compare s s) eqn:E; try reflexivity.
  pose proof (String.compare_antisym s s) as Ha. rewrite E in Ha. discriminate.
Qed.

Lemma lookup_insertField {A} k k' (v : A) l :
  lookup k (insertField (k', v) l) = if String.eqb k k' then Some v else lookup k l.
Proof.
  induction l as [|[h x] t IH]; cbn [insertField lookup fst].
  - reflexivity.
  - destruct (String.leb k' h) eqn:Hle; cbn [lookup].
    + reflexivity.
    + rewrite IH. destruct (String.eqb k k') eqn:Hk; [|reflexivity].
      apply String.eqb_eq in Hk. subst k'.
      destruct (String.eqb k h) eqn:Hh; [|reflexivity].
      apply String.eqb_eq in Hh. subst h. rewrite leb_refl in Hle. discriminate.
Qed.

(** Sorting the properties of an object does not change what a property
    read returns. *)
Lemma lookup_sortFields {A} k (l : list (string * A)) :
  lookup k (sortFields l) = lookup k l.
Proof.
  induction l as [|[k' v] rest IH]; [reflexivity|].
  cbn [sortFields fold_right]. fold (sortFields rest).
  rewrite lookup_insertField, IH. reflexivity.
Qed.

Lemma keys_insertField {A} (kv : string * A) l :
  map fst (insertField kv l) = insertSorted (fst kv) (map fst l).
Proof.
  induction l as [|h t IH]; [reflexivity|].
  cbn [insertField map insertSorted].
  destruct (String.leb (fst kv) (fst h)); cbn [map]; [reflexivity|].
  rewrite IH. reflexivity.
Qed.

Lemma keys_sortFields {A} (l : list (string * A)) :
  map fst (sortFields l) = sortStrings (map fst l).
Proof.
  induction l as [|kv rest IH]; [reflexivity|].
  cbn [sortFields fold_right map sortStrings]. fold (sortFields rest).
  rewrite keys_insertField, IH. reflexivity.
Qed.

Lemma keys_mapValues {A B} (f : A -> B) l : map fst (mapValues f l) = map fst l.
Proof. unfold mapValues. rewrite map_map. reflexivity. Qed.

(** Under a property list, a value and its canonical form are written
    the same way. *)
Lemma serialize_canonicalize ks v :
  serialize (Some ks) (canonicalize v) = serialize (Some ks) v.
Proof.
  induction v as [| | | |items IH|fields IH] using JSON_induction; try reflexivity.
  - cbn [canonicalize serialize]. do 3 f_equal. rewrite map_map.
    apply map_ext_Forall. exact IH.
  - rewrite canonicalize_object, !serialize_object. do 3 f_equal.
    apply flat_map_ext. intros P.
    rewrite !lookup_mapValues, lookup_sortFields, lookup_mapValues.
    induction IH as [|[k x] rest Hx _ IHrest]; [reflexivity|].
    cbn [lookup]. destruct (String.eqb P k); [|exact IHrest].
    cbn [option_map]. cbn [snd] in Hx. rewrite Hx. reflexivity.
Qed.

(** ** Fingerprints *)

Lemma canonical_keys c1 c2 :
  canonicalize (JObj c1) = canonicalize (JObj c2) ->
  sortStrings (keys c1) = sortStrings (keys c2).
Proof.
  rewrite !canonicalize_object. intros [= E].
  apply (f_equal (map fst)) in E.
  rewrite !keys_sortFields, !keys_mapValues in E. exact E.
Qed.

(** C8.  Two config objects with the same key-sorted canonical form, that
    is the same structured content with the properties of any object in
    any order, have the same fingerprint. *)
Theorem computeConfigHash_canonical (c1 c2 : object) :
  canonicalize (JObj c1) = canonicalize (JObj c2) ->
  computeConfigHash c1 = computeConfigHash c2.
Proof.
  intros E. unfold computeConfigHash, stringify.
  rewrite (canonical_keys c1 c2 E).
  rewrite <- (serialize_canonicalize _ (JObj c1)), <- (serialize_canonicalize _ (JObj c2)).
  rewrite E. reflexivity.
Qed.

(** The same effective configuration written in two property orders. *)
Definition stagingConfig : object :=
  [ ("referenceUrl", JStr "https://prod.test");
    ("testUrl", JStr "https://stage.test");
    ("maxUrls", JNum (int 10));
    ("exclude", strs ["**/admin/**"]);
    ("threshold", JObj defaultThreshold);
    ("viewports", defaultViewports) ].

Definition stagingConfigReordered : object :=
  [ ("viewports", JArr [ JObj [ ("height", JNum (int 1080));
                                ("name", JStr "desktop");
                                ("width", JNum (int 1920)) ] ]);
    ("exclude", strs ["**/admin/**"]);
    ("testUrl", JStr "https://stage.test");
    ("threshold", JObj (rev defaultThreshold));
    ("maxUrls", JNum (int 10));
    ("referenceUrl", JStr "https://prod.test") ].

Lemma computeConfigHash_canonical_witness :
  stagingConfig <> stagingConfigReordered
  /\ canonicalize (JObj stagingConfig) = canonicalize (JObj stagingConfigReordered)
  /\ computeConfigHash stagingConfig = computeConfigHash stagingConfigReordered.
Proof.
  split; [discriminate|].
  split; [reflexivity|].
  apply (computeConfigHash_canonical stagingConfig stagingConfigReordered).
  reflexivity.
Defined.

(** The effective configuration of a run of staging against production,
    and the same configuration after the pixel threshold was raised from
    100 to 5000 and the viewport narrowed from 1920 to 800. *)
Definition effectiveConfig : object :=
  setProp "referenceUrl" (JStr "https://prod.test")
    (setProp "testUrl" (JStr "https://stage.test") DEFAULT_CONFIG).

Definition editedConfig : object :=
  setProp "threshold" (JObj [ ("maxDiffPixels", JNum (int 5000));
                              ("maxDiffPixelRatio", JNum {| mant := 1; expo := -2 |}) ])
    (setProp "viewports" (JArr [ JObj [ ("name", JStr "desktop");
                                        ("width", JNum (int 800));
                                        ("height", JNum (int 1080)) ] ])
       effectiveConfig).

(** The world after a first run with [effectiveConfig] wrote its manifest. *)
Definition afterFirstRun (w : World) : World :=
  {| argv := argv w; cwd := cwd w; packageDir := packageDir w; now := now w;
     configFile := configFile w; dirExists := dirExists w; snapshotEntries := snapshotEntries w;
     cacheHashFile := Holds (hashesOf w effectiveConfig);
     urlsFile := urlsFile w; testSpec := testSpec w;
     sitemap := sitemap w; browser := browser w;
     engine := engine w; resultsFile := resultsFile w |}.

(** C2.  The fingerprint does not cover nested fields: the sorted
    top-level keys are the replacer of JSON.stringify, and a replacer
    array selects properties at every depth, so the threshold object is
    written as an empty object and every viewport as an empty object.
    Two configurations that differ in threshold.maxDiffPixels and in a
    viewport width have the same fingerprint, and the cache written for
    the first is valid for the second. *)
Theorem nested_edit_keeps_fingerprint :
  effectiveConfig <> editedConfig
  /\ stringify (JObj editedConfig) (sortStrings (keys editedConfig))
     = "{" ++ quote "crawlOptions" ++ ":{}," ++ quote "exclude" ++ ":[],"
       ++ quote "include" ++ ":[" ++ quote "*" ++ "]," ++ quote "maxUrls" ++ ":25,"
       ++ quote "referenceUrl" ++ ":" ++ quote "https://prod.test" ++ ","
       ++ quote "sitemapPath" ++ ":" ++ quote "/sitemap.xml" ++ ","
       ++ quote "testUrl" ++ ":" ++ quote "https://stage.test" ++ ","
       ++ quote "threshold" ++ ":{}," ++ quote "viewports" ++ ":[{}]}"
  /\ computeConfigHash editedConfig = computeConfigHash effectiveConfig
  /\ isCacheValid (afterFirstRun emptyWorld) editedConfig = true.
Proof.
  split; [discriminate|].
  split; [vm_compute; reflexivity|].
  split; vm_compute; reflexivity.
Qed.

(** ** The effect monad *)

Lemma bind_returns {A B} (m : M A) (k : A -> M B) t b :
  bind m k = (t, Returns b) ->
  exists t1 a t2, m = (t1, Returns a) /\ k a = (t2, Returns b) /\ t = (t1 ++ t2)%list.
Proof.
  unfold bind. destruct m as [t1 [a|err|code]]; try discriminate.
  destruct (k a) as [t2 r] eqn:E. intros [= <- ->].
  exists t1, a, t2. auto.
Qed.

Lemma bind_step {A B} (m : M A) (k : A -> M B) t1 a :
  m = (t1, Returns a) ->
  bind m k = ((t1 ++ trace (k a))%list, outcome (k a)).
Proof. intros ->. unfold bind, trace, outcome. destruct (k a). reflexivity. Qed.

Lemma bind_ret_l {A B} (a : A) (k : A -> M B) : bind (ret a) k = k a.
Proof. unfold bind, ret. destruct (k a). reflexivity. Qed.

Lemma bind_throws {A B} (m : M A) (k : A -> M B) t err :
  m = (t, Throws err) -> bind m k = (t, Throws err).
Proof. intros ->. reflexivity. Qed.

Lemma trace_bind {A B} (m : M A) (k : A -> M B) :
  trace (bind m k)
  = (trace m ++ match outcome m with
                | Returns a => trace (k a)
                | _ => []
                end)%list.
Proof.
  unfold bind, trace, outcome. destruct m as [t [a|err|code]]; cbn [fst snd].
  - destruct (k a). reflexivity.
  - rewrite app_nil_r. reflexivity.
  - rewrite app_nil_r. reflexivity.
Qed.

Lemma trace_tryCatch {A} (m : M A) h :
  trace (tryCatch m h)
  = (trace m ++ match outcome m with
                | Throws err => trace (h err)
                | _ => []
                end)%list.
Proof.
  unfold tryCatch, trace, outcome. destruct m as [t [a|err|code]]; cbn [fst snd].
  - rewrite app_nil_r. reflexivity.
  - destruct (h err). reflexivity.
  - rewrite app_nil_r. reflexivity.
Qed.

Lemma trace_bind_prefix {A B} (m : M A) (k : A -> M B) :
  exists rest, trace (bind m k) = (trace m ++ rest)%list.
Proof.
  unfold bind, trace. destruct m as [t [a|err|code]]; cbn [fst].
  - destruct (k a) as [t' r]. exists t'. reflexivity.
  - exists []. rewrite app_nil_r. reflexivity.
  - exists []. rewrite app_nil_r. reflexivity.
Qed.

(** [free p m]: no event of the run [m] satisfies [p]. *)
Definition free (p : Event -> bool) {A} (m : M A) : Prop :=
  Forall (fun e => p e = false) (trace m).

Section Free.
Variable p : Event -> bool.

Lemma free_ret {A} (a : A) : free p (ret a).
Proof. constructor. Qed.

Lemma free_throw {A} err : free p (@throw A err).
Proof. constructor. Qed.

Lemma free_exit {A} code : free p (@exit A code).
Proof. constructor. Qed.

Lemma free_emit e : p e = false -> free p (emit e).
Proof. intros E. constructor; [exact E|constructor]. Qed.

Lemma free_bind {A B} (m : M A) (k : A -> M B) :
  free p m -> (forall a, free p (k a)) -> free p (bind m k).
Proof.
  unfold free, trace, bind. intros Hm Hk.
  destruct m as [t [a|err|code]]; cbn [fst] in *; try exact Hm.
  specialize (Hk a). destruct (k a) as [t' r]. cbn [fst] in *.
  apply Forall_app. split; assumption.
Qed.

Lemma free_tryCatch {A} (m : M A) h :
  free p m -> (forall err, free p (h err)) -> free p (tryCatch m h).
Proof.
  unfold free, trace, tryCatch. intros Hm Hh.
  destruct m as [t [a|err|code]]; cbn [fst] in *; try exact Hm.
  specialize (Hh err). destruct (h err) as [t' r]. cbn [fst] in *.
  apply Forall_app. split; assumption.
Qed.

Lemma free_tryFinally {A} (m : M A) fin :
  free p m -> free p fin -> free p (tryFinally m fin).
Proof.
  unfold free, trace, tryFinally. intros Hm Hf.
  destruct m as [t [a|err|code]], fin as [t' [[]|err'|code']]; cbn [fst] in *;
    try exact Hm; apply Forall_app; split; assumption.
Qed.

Lemma free_forEach {A} (body : A -> M unit) l :
  (forall x, free p (body x)) -> free p (forEach body l).
Proof.
  intros Hb. induction l as [|x rest IH]; cbn [forEach].
  - apply free_ret.
  - apply free_bind; [apply Hb|intros _; exact IH].
Qed.

Lemma free_foldM {A B} (step : B -> A -> M B) l acc :
  (forall b x, free p (step b x)) -> free p (foldM step l acc).
Proof.
  intros Hs. revert acc. induction l as [|x rest IH]; intros acc; cbn [foldM].
  - apply free_ret.
  - apply free_bind; [apply Hs|intros b; apply IH].
Qed.
End Free.

(** ** Deduplication and truncation *)

Lemma filter_filter {A} (f g : A -> bool) l :
  filter f (filter g l) = filter (fun x => g x && f x) l.
Proof.
  induction l as [|x rest IH]; [reflexivity|].
  cbn [filter]. destruct (g x); cbn [filter andb]; [destruct (f x)|]; rewrite IH; reflexivity.
Qed.

Lemma setOf_from seen l :
  fold_left setAdd l seen
  = (seen ++ filter (fun y => negb (existsb (String.eqb y) seen)) (firstOccurrences l))%list.
Proof.
  revert seen. induction l as [|x rest IH]; intros seen; cbn [fold_left firstOccurrences].
  - cbn [filter]. rewrite app_nil_r. reflexivity.
  - rewrite IH. unfold setAdd. cbn [filter]. rewrite filter_filter.
    destruct (existsb (String.eqb x) seen) eqn:Hx; cbn [negb].
    + f_equal. apply filter_ext_in. intros y _.
      destruct (String.eqb y x) eqn:Hy; cbn [negb andb]; [|reflexivity].
      apply String.eqb_eq in Hy. subst y. rewrite Hx. reflexivity.
    + rewrite <- app_assoc. cbn [app]. do 2 f_equal.
      apply filter_ext_in. intros y _.
      rewrite existsb_app. cbn [existsb]. rewrite orb_false_r, negb_orb, andb_comm.
      reflexivity.
Qed.

(** The insertion-ordered set keeps the first occurrence of every
    element, in list order. *)
Lemma setOf_firstOccurrences l : setOf l = firstOccurrences l.
Proof.
  unfold setOf. rewrite setOf_from. cbn [app existsb negb].
  induction (firstOccurrences l) as [|x rest IH]; [reflexivity|].
  cbn [filter]. f_equal. exact IH.
Qed.

Lemma firstOccurrences_In l x : In x (firstOccurrences l) <-> In x l.
Proof.
  induction l as [|y rest IH]; cbn [firstOccurrences In]; [tauto|].
  rewrite filter_In, IH. split.
  - intros [E|[Hin _]]; auto.
  - intros [E|Hin]; [left; exact E|].
    destruct (String.eqb x y) eqn:Hxy.
    + left. apply String.eqb_eq in Hxy. symmetry. exact Hxy.
    + right. split; [exact Hin|reflexivity].
Qed.

Lemma firstOccurrences_NoDup l : NoDup (firstOccurrences l).
Proof.
  induction l as [|y rest IH]; cbn [firstOccurrences]; constructor.
  - rewrite filter_In. intros [_ E]. rewrite String.eqb_refl in E. discriminate.
  - apply NoDup_filter. exact IH.
Qed.

Lemma slice0_firstn {A} (l : list A) (n : Z) :
  (0 <= n)%Z -> slice0 l n = firstn (Z.to_nat n) l.
Proof.
  intros Hn. unfold slice0.
  destruct (n <? 0)%Z eqn:E; [apply Z.ltb_lt in E; lia|].
  destruct (Z.le_ge_cases n (Z.of_nat (length l))) as [Hle|Hge].
  - rewrite Z.min_l by exact Hle. reflexivity.
  - rewrite Z.min_r by exact Hge. rewrite Nat2Z.id.
    rewrite firstn_all, firstn_all2 by lia. reflexivity.
Qed.

Section CollectFacts.
Context `{Platform}.
Variable w : World.

Lemma collectURLs_after_filter config t1 found t2 kept :
  discover w config = (t1, Returns found) ->
  filterURLs (fst found) (toStringOpt (getProp "referenceUrl" config))
             (includeOf config) (excludeOf config) = (t2, Returns kept) ->
  collectURLs w config
  = ((t1 ++ t2)%list,
     Returns {| URLCollectionResult.urls := slice0 (setOf kept) (maxUrlsOf config);
                URLCollectionResult.source := snd found;
                URLCollectionResult.total := length (fst found);
                URLCollectionResult.filtered := length (setOf kept) |}).
Proof.
  intros Hd Hf. unfold collectURLs.
  rewrite (bind_step _ _ _ _ Hd). rewrite (bind_step _ _ _ _ Hf).
  cbn [ret trace outcome fst snd]. rewrite app_nil_r. reflexivity.
Qed.


(** *** The filter *)

Definition pathOf (u : URL) : string := pathname u ++ search u.

(** [filterURLs] keeps, in order, the URLs its callback answers true
    for; it returns unless the callback throws. *)
Lemma filterURLs_returns urls baseUrl include exclude t out :
  filterURLs urls baseUrl include exclude = (t, Returns out) ->
  out = filter (fun url => match outcome (keepURL baseUrl include exclude url) with
                           | Returns true => true
                           | _ => false
                           end) urls.
Proof.
  revert t out. induction urls as [|url rest IH]; intros t out; cbn [filterURLs filter].
  - intros [= _ <-]. reflexivity.
  - intros E. apply bind_returns in E as (t1 & keep & t2 & Hk & E & _).
    apply bind_returns in E as (t3 & kept & t4 & Hr & E & _).
    injection E as _ <-. rewrite Hk. cbn [outcome snd].
    rewrite (IH _ _ Hr). destruct keep; reflexivity.
Qed.

Lemma keepURL_true baseUrl include exclude url t :
  keepURL baseUrl include exclude url = (t, Returns true) ->
  exists u b,
    parseURL url = Some u /\ parseURL baseUrl = Some b
    /\ hostname u = hostname b
    /\ existsb (fun glob => matchGlob glob (pathOf u)) exclude = false.
Proof.
  unfold keepURL, newURL, pathOf.
  destruct (parseURL url) as [u|]; [|discriminate].
  rewrite bind_ret_l.
  destruct (parseURL baseUrl) as [b|]; [|discriminate].
  rewrite bind_ret_l.
  destruct (String.eqb (hostname u) (hostname b)) eqn:Hh; cbn [negb]; [|discriminate].
  apply String.eqb_eq in Hh. intros E. exists u, b. repeat split; try assumption.
  destruct exclude as [|g gs]; [reflexivity|].
  unfold isMatch in E at 1.
  destruct (existsb (String.eqb "") (g :: gs)); [discriminate|].
  rewrite bind_ret_l in E.
  destruct (existsb (fun glob => matchGlob glob (pathname u ++ search u)) (g :: gs));
    [discriminate|reflexivity].
Qed.

(** What the callback answers for a URL that parses. *)
Definition decides (b : URL) (include exclude : list string) (u : URL) : bool :=
  String.eqb (hostname u) (hostname b)
  && negb (existsb (fun glob => matchGlob glob (pathOf u)) exclude)
  && match include with
     | [] => true
     | _ => existsb (fun glob => matchGlob glob (pathOf u)) include
     end.

Lemma isMatch_nonempty str patterns :
  existsb (String.eqb "") patterns = false ->
  isMatch str patterns = ret (existsb (fun glob => matchGlob glob str) patterns).
Proof. unfold isMatch. intros ->. reflexivity. Qed.

Lemma keepURL_parsed baseUrl include exclude url u b :
  parseURL url = Some u -> parseURL baseUrl = Some b ->
  existsb (String.eqb "") include = false ->
  existsb (String.eqb "") exclude = false ->
  keepURL baseUrl include exclude url = ret (decides b include exclude u).
Proof.
  intros Hu Hb Hi He. unfold keepURL, newURL, decides, pathOf. rewrite Hu, Hb.
  rewrite !bind_ret_l.
  destruct (String.eqb (hostname u) (hostname b)); cbn [negb andb]; [|reflexivity].
  destruct exclude as [|g gs].
  - rewrite bind_ret_l. cbn [existsb negb].
    destruct include as [|i others]; [reflexivity|]. apply isMatch_nonempty. exact Hi.
  - rewrite (isMatch_nonempty _ _ He), bind_ret_l.
    destruct (existsb (fun glob => matchGlob glob _) (g :: gs)); cbn [negb andb];
      [reflexivity|].
    destruct include as [|i others]; [reflexivity|]. apply isMatch_nonempty. exact Hi.
Qed.

(** The filter returns when the reference and every URL of the list
    parse and no pattern is empty. *)
Lemma filterURLs_total urls baseUrl include exclude b :
  parseURL baseUrl = Some b ->
  Forall (fun url => parseURL url <> None) urls ->
  existsb (String.eqb "") include = false ->
  existsb (String.eqb "") exclude = false ->
  exists out, filterURLs urls baseUrl include exclude = ret out.
Proof.
  intros Hb Hall Hi He. induction Hall as [|url rest Hu _ [out IH]]; cbn [filterURLs].
  - exists []. reflexivity.
  - destruct (parseURL url) as [u|] eqn:Pu; [|contradiction].
    rewrite (keepURL_parsed _ _ _ _ _ _ Pu Hb Hi He), bind_ret_l, IH, bind_ret_l.
    eexists. reflexivity.
Qed.

Definition parseURL_image (u : URL) : Prop := exists s, parseURL s = Some u.

Lemma rooted_bashStar u : rooted u = true -> bashStar (pathOf u) = true.
Proof.
  unfold rooted, pathOf, startsWith. intros E. apply andb_true_iff in E as [Hp Hs].
  destruct (pathname u) as [|c rest]; [discriminate|].
  cbn [String.prefix] in Hp. destruct (ascii_dec "/" c) as [<-|]; [|discriminate].
  cbn [append bashStar]. cbn [append] in Hs. rewrite Hs. reflexivity.
Qed.

(** A URL of the list that parses is the URL of a web page. *)
Definition webURL (url : string) : bool :=
  match parseURL url with
  | Some u => isWeb u
  | None => true
  end.

Lemma isMatch_star u :
  parseURL_image u -> isWeb u = true -> isMatch (pathname u ++ search u) ["*"] = ret true.
Proof.
  intros [s Hs] Hweb. unfold isMatch, matchGlob. cbn [existsb String.eqb Ascii.eqb Bool.eqb].
  fold (pathOf u). rewrite (rooted_bashStar u (parseURL_rooted _ _ Hs Hweb)). reflexivity.
Qed.

(** With the lone star as include list the callback answers, for a web
    URL, as with no include list at all. *)
Lemma keepURL_star baseUrl exclude url :
  webURL url = true ->
  keepURL baseUrl ["*"] exclude url = keepURL baseUrl [] exclude url.
Proof.
  unfold keepURL, newURL, webURL.
  destruct (parseURL url) as [u|] eqn:Pu; [|reflexivity]. intros Hweb.
  rewrite !bind_ret_l.
  destruct (parseURL baseUrl) as [b|]; [|reflexivity].
  rewrite !bind_ret_l.
  destruct (negb _); [reflexivity|].
  f_equal. rewrite (isMatch_star u (ex_intro _ url Pu) Hweb). reflexivity.
Qed.

Lemma filterURLs_star urls baseUrl exclude :
  forallb webURL urls = true ->
  filterURLs urls baseUrl ["*"] exclude = filterURLs urls baseUrl [] exclude.
Proof.
  induction urls as [|url rest IH]; [reflexivity|].
  cbn [forallb filterURLs]. intros E. apply andb_true_iff in E as [Hu Hrest].
  rewrite (keepURL_star _ _ _ Hu), (IH Hrest). reflexivity.
Qed.

(** C7.  Exclude wins over include.  With exclude ["**/admin/**"] and
    include ["**"] the filter returns for every list of URLs that parse,
    and whatever the input list, no URL whose path and query match the
    exclude pattern is in its output: the output holds only URLs of the
    input that do not match it. *)
Theorem exclude_wins_over_include (urls : list string) (baseUrl : string) :
  (forall b, parseURL baseUrl = Some b ->
             Forall (fun url => parseURL url <> None) urls ->
             exists out, filterURLs urls baseUrl ["**"] ["**/admin/**"] = ret out)
  /\ (forall t out,
        filterURLs urls baseUrl ["**"] ["**/admin/**"] = (t, Returns out) ->
        (forall url u, In url urls -> parseURL url = Some u ->
                       matchGlob "**/admin/**" (pathOf u) = true -> ~ In url out)
        /\ (forall url, In url out ->
              In url urls
              /\ exists u, parseURL url = Some u
                           /\ matchGlob "**/admin/**" (pathOf u) = false)).
Proof.
  split.
  { intros b Hb Hall. apply (filterURLs_total urls baseUrl _ _ b Hb Hall); reflexivity. }
  intros t out E. apply filterURLs_returns in E. subst out.
  assert (Hout : forall url,
             In url (filter (fun url => match outcome (keepURL baseUrl ["**"] ["**/admin/**"] url) with
                                        | Returns true => true
                                        | _ => false
                                        end) urls) ->
             In url urls
             /\ exists u, parseURL url = Some u /\ matchGlob "**/admin/**" (pathOf u) = false).
  { intros url Hin. apply filter_In in Hin as [Hin Hk]. split; [exact Hin|].
    destruct (keepURL baseUrl ["**"] ["**/admin/**"] url) as [t' [[|]|err|code]] eqn:K;
      cbn [outcome snd] in Hk; try discriminate.
    apply keepURL_true in K as (u & b & Hu & _ & _ & Hx).
    exists u. split; [exact Hu|].
    cbn [existsb] in Hx. rewrite orb_false_r in Hx. exact Hx. }
  split; [|exact Hout].
  intros url u _ Hu Hm Hin. apply Hout in Hin as (_ & u' & Hu' & Hm').
  rewrite Hu in Hu'. injection Hu' as <-. rewrite Hm in Hm'. discriminate.
Qed.

(** *** Reading the merged configuration *)

Lemma getProp_setProp k k' v o :
  getProp k (setProp k' v o) = if String.eqb k k' then Some v else getProp k o.
Proof.
  unfold getProp. induction o as [|[h x] rest IH]; cbn [setProp lookup].
  - destruct (String.eqb k k'); reflexivity.
  - destruct (String.eqb k' h) eqn:Hh; cbn [lookup].
    + apply String.eqb_eq in Hh. subst h. destruct (String.eqb k k'); reflexivity.
    + rewrite IH. destruct (String.eqb k k') eqn:Hk; [|reflexivity].
      apply String.eqb_eq in Hk. subst k'. rewrite Hh. reflexivity.
Qed.

Lemma getProp_spread k a b :
  getProp k (spread a b) = match getProp k (rev b) with
                           | Some v => Some v
                           | None => getProp k a
                           end.
Proof.
  unfold spread. rewrite <- fold_left_rev_right.
  induction (rev b) as [|[k' v] rest IH]; cbn [fold_right]; [reflexivity|].
  rewrite getProp_setProp. cbn [fst snd]. unfold getProp at 2. cbn [lookup].
  destruct (String.eqb k k'); [reflexivity|exact IH].
Qed.

Lemma getProp_rev_None k (o : object) : getProp k o = None -> getProp k (rev o) = None.
Proof.
  unfold getProp. intros E.
  assert (Hnot : forall l : object, lookup k l = None <-> ~ In k (map fst l)).
  { induction l as [|[h x] rest IH]; cbn [lookup map fst In]; [tauto|].
    destruct (String.eqb k h) eqn:Hh.
    - apply String.eqb_eq in Hh. split; [discriminate|]. intros N. exfalso. auto.
    - apply String.eqb_neq in Hh. rewrite IH. split.
      + intros N [E'|I]; [congruence|auto].
      + intros N I. auto. }
  apply Hnot. rewrite map_rev, <- in_rev. apply Hnot. exact E.
Qed.

(** A filter that returned met no empty exclude pattern on a URL of the
    reference host. *)
Lemma filterURLs_returned_patterns urls baseUrl include exclude t out url u b :
  filterURLs urls baseUrl include exclude = (t, Returns out) ->
  In url urls -> parseURL url = Some u -> parseURL baseUrl = Some b ->
  String.eqb (hostname u) (hostname b) = true ->
  exclude <> [] ->
  existsb (String.eqb "") exclude = false.
Proof.
  intros E Hin Hu Hb Hh Hne. revert t out E.
  induction urls as [|x rest IH]; [destruct Hin|].
  intros t out E. cbn [filterURLs] in E.
  apply bind_returns in E as (? & keep & ? & Hk & E & _).
  apply bind_returns in E as (? & kept & ? & Hr & _ & _).
  destruct Hin as [->|Hin]; [|exact (IH Hin _ _ Hr)].
  unfold keepURL, newURL in Hk. rewrite Hu, Hb, !bind_ret_l, Hh in Hk.
  cbn [negb] in Hk. destruct exclude as [|g gs]; [contradiction|].
  unfold isMatch in Hk at 1.
  destruct (existsb (String.eqb "") (g :: gs)); [discriminate|reflexivity].
Qed.

End CollectFacts.

Lemma slice0_negative {A} (l : list A) (n : Z) :
  (n < 0)%Z -> slice0 l n = firstn (length l - Z.to_nat (- n)) l.
Proof.
  intros Hn. unfold slice0.
  destruct (n <? 0)%Z eqn:E; [|apply Z.ltb_ge in E; lia].
  f_equal. lia.
Qed.

(** ** URL discovery *)

Section DiscoveryFacts.
Context `{Platform}.
Variable w : World.

Lemma setAdd_nonempty seen x : setAdd seen x <> [].
Proof.
  unfold setAdd. destruct (existsb (String.eqb x) seen) eqn:E.
  - destruct seen; [discriminate E|discriminate].
  - destruct seen; discriminate.
Qed.

Lemma setAdd_In seen x : In x (setAdd seen x).
Proof.
  unfold setAdd. destruct (existsb (String.eqb x) seen) eqn:E.
  - apply existsb_exists in E as (y & Hy & E). apply String.eqb_eq in E. subst y. exact Hy.
  - apply in_or_app. right. left. reflexivity.
Qed.

Lemma addLink_nonempty baseUrl b slash links urls :
  urls <> [] -> fold_left (addLink baseUrl b slash) links urls <> [].
Proof.
  revert urls. induction links as [|link rest IH]; intros urls Hne; cbn [fold_left].
  - exact Hne.
  - apply IH. unfold addLink.
    destruct (parseURL link) as [linkUrl|]; [|exact Hne].
    destruct (String.eqb _ _); [|exact Hne].
    destruct slash; apply setAdd_nonempty.
Qed.

(** With a browser that starts and closes, the crawl returns: a failed
    page load or link extraction leaves the reference URL in the result. *)
Lemma crawlWebsite_usable baseUrl options b :
  launchError (browser w) = None ->
  newPageError (browser w) = None ->
  closeError (browser w) = None ->
  parseURL baseUrl = Some b ->
  exists t urls,
    crawlWebsite w baseUrl options = (t, Returns urls)
    /\ urls <> []
    /\ (gotoError (browser w) <> None \/ anchors (browser w) = None -> In baseUrl urls)
    /\ (gotoError (browser w) <> None -> urls = [baseUrl]).
Proof.
  intros Hl Hn Hc Hb. unfold crawlWebsite, attempt, newURL, visitHomepage.
  rewrite Hl, Hn, Hc, Hb.
  destruct (gotoError (browser w)) as [msg|].
  - cbn. do 2 eexists. split; [reflexivity|].
    repeat split; try discriminate; intros; left; reflexivity.
  - destruct (anchors (browser w)) as [links|].
    + cbn. do 2 eexists. split; [reflexivity|]. split.
      * apply addLink_nonempty. discriminate.
      * split; [intros [N|N]|intros N]; try discriminate; contradiction.
    + cbn -[setAdd]. do 2 eexists. split; [reflexivity|]. split.
      * apply setAdd_nonempty.
      * split; [intros _; apply setAdd_In|intros N; contradiction].
Qed.

Lemma crawlWebsite_launches baseUrl options :
  exists rest, trace (crawlWebsite w baseUrl options) = BrowserLaunch :: rest.
Proof.
  unfold crawlWebsite, attempt.
  match goal with
  | |- context [bind (bind (emit BrowserLaunch) ?k1) ?k2] =>
      destruct (trace_bind_prefix (bind (emit BrowserLaunch) k1) k2) as [r2 ->];
      destruct (trace_bind_prefix (emit BrowserLaunch) k1) as [r1 ->]
  end.
  cbn [emit trace fst app]. eexists. reflexivity.
Qed.

Lemma collectFromSitemap_nonempty baseUrl sitemapPath t sites :
  collectFromSitemap w baseUrl sitemapPath = (t, Returns sites) -> sites <> [].
Proof.
  unfold collectFromSitemap. destruct (resolveURL sitemapPath baseUrl); [|discriminate].
  cbn. destruct (sitemap w _) as [msg|[[|site rest]|]]; try discriminate.
  intros [= _ <-]. discriminate.
Qed.

Lemma collectFromSitemap_no_exit baseUrl sitemapPath t code :
  collectFromSitemap w baseUrl sitemapPath <> (t, Exits code).
Proof.
  unfold collectFromSitemap. destruct (resolveURL sitemapPath baseUrl); [|discriminate].
  cbn. destruct (sitemap w _) as [msg|[[|site rest]|]]; discriminate.
Qed.

Definition referenceOf (config : object) : string :=
  toStringOpt (getProp "referenceUrl" config).

(** Every failure of the sitemap strategy hands over to the crawl. *)
Lemma discover_falls_back config t err :
  collectFromSitemap w (referenceOf config) (sitemapPathOf config) = (t, Throws err) ->
  discover w config
  = ((t ++ ConsoleError "⚠️ Sitemap fetch failed, falling back to crawler"
        :: trace (crawlWebsite w (referenceOf config) (getProp "crawlOptions" config)))%list,
     match outcome (crawlWebsite w (referenceOf config) (getProp "crawlOptions" config)) with
     | Returns urls => Returns (urls, crawlSource)
     | Throws e => Throws e
     | Exits code => Exits code
     end).
Proof.
  intros E. unfold discover. fold (referenceOf config). rewrite E. cbn [bind tryCatch].
  destruct (crawlWebsite w (referenceOf config) (getProp "crawlOptions" config))
    as [t' [urls|e|code]]; cbn; rewrite ?app_nil_r; reflexivity.
Qed.

Lemma discover_sitemap config t sites :
  collectFromSitemap w (referenceOf config) (sitemapPathOf config) = (t, Returns sites) ->
  discover w config = (t, Returns (sites, sitemapSource)).
Proof.
  intros E. unfold discover. fold (referenceOf config). rewrite E. cbn.
  rewrite app_nil_r. reflexivity.
Qed.

(** C5, as the code has it.  Discovery raises only when the headless
    browser cannot be started or closed, or when the filter itself
    throws.  With a browser that starts and closes and a reference URL
    that parses: discovery finds a non-empty list; every failure of the
    sitemap strategy falls back to the crawl; an error while loading the
    page or reading its links is absorbed and leaves the reference URL
    in what the crawl returns; and [collectURLs] returns whenever the
    filter does, which it does when the URLs found parse and no glob is
    empty. *)
Theorem discovery_absorbs_crawl_errors (config : object) (b : URL) :
  parseURL (referenceOf config) = Some b ->
  launchError (browser w) = None ->
  newPageError (browser w) = None ->
  closeError (browser w) = None ->
  exists t found,
    discover w config = (t, Returns found)
    /\ fst found <> []
    /\ (forall t0 err,
          collectFromSitemap w (referenceOf config) (sitemapPathOf config) = (t0, Throws err) ->
          snd found = crawlSource
          /\ In BrowserLaunch t
          /\ (gotoError (browser w) <> None \/ anchors (browser w) = None ->
              In (referenceOf config) (fst found))
          /\ (gotoError (browser w) <> None -> fst found = [referenceOf config]))
    /\ (forall t2 kept,
          filterURLs (fst found) (referenceOf config) (includeOf config) (excludeOf config)
          = (t2, Returns kept) ->
          exists r, collectURLs w config = ((t ++ t2)%list, Returns r))
    /\ (Forall (fun url => parseURL url <> None) (fst found) ->
        existsb (String.eqb "") (includeOf config) = false ->
        existsb (String.eqb "") (excludeOf config) = false ->
        exists r, collectURLs w config = (t, Returns r)).
Proof.
  intros Hb Hl Hn Hc.
  destruct (crawlWebsite_usable (referenceOf config) (getProp "crawlOptions" config) b
              Hl Hn Hc Hb) as (tc & urls & Hcrawl & Hne & Habs & Hgoto).
  assert (D : exists t found,
             discover w config = (t, Returns found) /\ fst found <> []
             /\ (forall t0 err,
                   collectFromSitemap w (referenceOf config) (sitemapPathOf config)
                   = (t0, Throws err) ->
                   snd found = crawlSource /\ In BrowserLaunch t
                   /\ (gotoError (browser w) <> None \/ anchors (browser w) = None ->
                       In (referenceOf config) (fst found))
                   /\ (gotoError (browser w) <> None -> fst found = [referenceOf config]))).
  { destruct (collectFromSitemap w (referenceOf config) (sitemapPathOf config))
      as [ts [sites|err|code]] eqn:S.
    - exists ts, (sites, sitemapSource). split; [apply discover_sitemap; exact S|].
      split; [apply (collectFromSitemap_nonempty _ _ _ _ S)|]. intros ? ? [=].
    - destruct (crawlWebsite_launches (referenceOf config) (getProp "crawlOptions" config))
        as [rest Hlaunch].
      rewrite Hcrawl in Hlaunch. cbn [trace fst] in Hlaunch. subst tc.
      eexists. exists (urls, crawlSource).
      split; [rewrite (discover_falls_back _ _ _ S), Hcrawl; reflexivity|].
      split; [exact Hne|]. intros ? ? _. split; [reflexivity|]. split.
      + apply in_or_app. right. right. left. reflexivity.
      + split; assumption.
    - exfalso. exact (collectFromSitemap_no_exit _ _ _ _ S). }
  destruct D as (t & found & Hd & Hf & Hs).
  exists t, found. split; [exact Hd|]. split; [exact Hf|]. split; [exact Hs|].
  split.
  - intros t2 kept Hk. eexists. apply (collectURLs_after_filter w _ _ _ _ _ Hd Hk).
  - intros Hall Hi He.
    destruct (filterURLs_total (fst found) (referenceOf config) _ _ b Hb Hall Hi He)
      as [out Hout].
    eexists. rewrite (collectURLs_after_filter w _ _ _ _ _ Hd Hout).
    rewrite app_nil_r. reflexivity.
Qed.

(** C10, as the code has it.  A falsy [maxUrls] (absent or 0) is read as
    25; a [--max-urls] of 0, or one that is not a number, leaves the
    configured value in place; with a cap that is absent, 0 or at least
    1 a non-empty filtered list gives a non-empty URL set; and a negative
    cap drops that many URLs from the end of the list. *)
Theorem zero_max_urls_means_default (config : object) :
  (truthy (getProp "maxUrls" config) = false -> maxUrlsOf config = 25%Z)
  /\ parseInt10 (Some "0") = Num 0
  /\ (forall args,
        truthyNum (CLIOptions.maxUrls args) = false ->
        getProp "maxUrls" (fst (applyOverrides args config)) = getProp "maxUrls" config)
  /\ (forall t1 found t2 kept,
        discover w config = (t1, Returns found) ->
        filterURLs (fst found) (referenceOf config) (includeOf config) (excludeOf config)
        = (t2, Returns kept) ->
        kept <> [] ->
        truthy (getProp "maxUrls" config) = false \/ (1 <= maxUrlsOf config)%Z ->
        exists r,
          collectURLs w config = ((t1 ++ t2)%list, Returns r)
          /\ URLCollectionResult.urls r <> []
          /\ (truthy (getProp "maxUrls" config) = false ->
              URLCollectionResult.urls r = firstn 25 (setOf kept)))
  /\ (forall t1 found t2 kept,
        discover w config = (t1, Returns found) ->
        filterURLs (fst found) (referenceOf config) (includeOf config) (excludeOf config)
        = (t2, Returns kept) ->
        (maxUrlsOf config < 0)%Z ->
        exists r,
          collectURLs w config = ((t1 ++ t2)%list, Returns r)
          /\ URLCollectionResult.urls r
             = firstn (length (setOf kept) - Z.to_nat (- maxUrlsOf config)) (setOf kept)).
Proof.
  assert (Hdef : truthy (getProp "maxUrls" config) = false -> maxUrlsOf config = 25%Z).
  { intros E. unfold maxUrlsOf.
    destruct (getProp "maxUrls" config) as [v|]; [rewrite E|]; reflexivity. }
  split; [exact Hdef|]. split; [reflexivity|]. split; [|split].
  - intros args E. unfold applyOverrides.
    destruct (truthyStr (CLIOptions.test args)), (truthyStr (CLIOptions.reference args));
      match goal with
      | |- context [if ?c then (_, false) else _] => destruct c
      end; cbn [fst];
      (destruct (CLIOptions.maxUrls args) as [[|z]|];
       [| destruct (z =? 0)%Z eqn:Z0; [|cbn [truthyNum] in E; rewrite Z0 in E; discriminate]
        |]);
      cbn [fst]; rewrite ?getProp_setProp; reflexivity.
  - intros t1 found t2 kept Hd Hf Hne Hcap.
    assert (Hpos : (1 <= maxUrlsOf config)%Z).
    { destruct Hcap as [E|E]; [rewrite (Hdef E); lia|exact E]. }
    eexists. split; [apply (collectURLs_after_filter w _ _ _ _ _ Hd Hf)|].
    cbn [URLCollectionResult.urls]. split.
    + rewrite slice0_firstn by lia. rewrite setOf_firstOccurrences.
      destruct kept as [|x rest]; [contradiction|]. cbn [firstOccurrences].
      destruct (Z.to_nat (maxUrlsOf config)) eqn:N; [lia|]. discriminate.
    + intros E. rewrite (Hdef E). apply slice0_firstn. lia.
  - intros t1 found t2 kept Hd Hf Hneg.
    eexists. split; [apply (collectURLs_after_filter w _ _ _ _ _ Hd Hf)|].
    cbn [URLCollectionResult.urls]. apply slice0_negative. exact Hneg.
Qed.
End DiscoveryFacts.

(** ** The orchestrator *)

Ltac free_step :=
  first [ apply free_ret | apply free_throw | apply free_exit
        | apply free_emit; reflexivity
        | apply free_bind | apply free_tryCatch | apply free_tryFinally
        | apply free_forEach | apply free_foldM ].

Ltac free_auto :=
  repeat (intros;
          first [ free_step
                | match goal with
                  | |- free _ (match ?x with _ => _ end) => destruct x
                  | |- free _ (if ?c then _ else _) => destruct c
                  end ]).

Ltac free_with tac :=
  repeat (intros;
          first [ tac
                | free_step
                | match goal with
                  | |- free _ (match ?x with _ => _ end) => destruct x
                  | |- free _ (if ?c then _ else _) => destruct c
                  end ]).

Lemma free_silent {A} (m : M A) : free (fun _ => true) m -> trace m = [].
Proof.
  unfold free. destruct (trace m) as [|e rest]; [reflexivity|].
  intros F. inversion F. discriminate.
Qed.

Lemma tryCatch_bind_step {A B} (m : M A) (k : A -> M B) h t1 a :
  m = (t1, Returns a) ->
  tryCatch (bind m k) h
  = ((t1 ++ trace (tryCatch (k a) h))%list, outcome (tryCatch (k a) h)).
Proof.
  intros ->. unfold bind, tryCatch, trace, outcome.
  destruct (k a) as [t' [b|err|code]]; cbn [fst snd]; try reflexivity.
  destruct (h err) as [t'' r]. cbn [fst snd]. rewrite app_assoc. reflexivity.
Qed.

(** The second line of the remediation list is printed by the policy
    gate and by nothing else. *)
Definition printsEither (e : Event) : bool :=
  match e with
  | ConsoleError msg => String.eqb msg "   Either:"
  | _ => false
  end.

Section MainFacts.
Context `{Platform}.
Variable w : World.

Lemma member_free p k v : free p (member k v).
Proof. unfold member. free_auto. Qed.

Lemma iterate_free p v : free p (iterate v).
Proof. unfold iterate. free_auto. Qed.

Lemma newURL_free p s : free p (newURL s).
Proof. unfold newURL. free_auto. Qed.

Lemma loadConfig_free p path : free p (loadConfig w path).
Proof.
  unfold loadConfig, mergeDefaults. free_auto; try apply member_free.
Qed.

Lemma validateConfig_free p config : free p (validateConfig config).
Proof.
  unfold validateConfig, validateViewport.
  free_auto; try apply member_free; try apply newURL_free; try apply iterate_free.
Qed.

Lemma prepare_free p args :
  (forall path, p (FsMkdir path) = false) -> free p (prepare w args).
Proof.
  intros Hp. unfold prepare.
  apply free_bind; [destruct (truthyStr _); [apply loadConfig_free|apply free_ret]|].
  intros loaded. destruct (applyOverrides args loaded) as [config explicit].
  apply free_bind; [apply validateConfig_free|]. intros _.
  apply free_bind; [|intros; apply free_ret].
  destruct (negb _); [apply free_emit; apply Hp|apply free_ret].
Qed.

Lemma parseResults_silent dir : trace (parseResults w dir) = [].
Proof.
  apply free_silent. unfold parseResults, countSuite, countSpec.
  free_auto; try apply member_free; try apply iterate_free.
Qed.

Lemma parseArgsFrom_silent n rest args t a :
  length rest <= n -> parseArgsFrom w rest args = (t, Returns a) -> t = [].
Proof.
  revert rest args t a. induction n as [|n IH]; intros rest args t a Hlen.
  - destruct rest; [|cbn in Hlen; lia]. intros [= <- _]. reflexivity.
  - destruct rest as [|arg after]; [intros [= <- _]; reflexivity|].
    cbn [length] in Hlen. cbn [parseArgsFrom].
    assert (Hskip : forall set,
               match after with
               | [] => ret (set (hd_error after) args)
               | _ :: after' => parseArgsFrom w after' (set (hd_error after) args)
               end = (t, Returns a) -> t = []).
    { intros set. destruct after as [|x after']; [intros [= <- _]; reflexivity|].
      apply IH. cbn [length] in Hlen. lia. }
    repeat match goal with
           | |- (if ?c then _ else _) = _ -> _ => destruct c
           end;
      try apply Hskip;
      try apply (Hskip (fun n => withMaxUrls (Some (parseInt10 n))));
      try (apply IH; lia).
    + intros E. apply bind_returns in E as (? & ? & ? & _ & E & _). discriminate.
    + discriminate.
Qed.

Lemma parseArgs_silent t args : parseArgs w = (t, Returns args) -> t = [].
Proof. apply (parseArgsFrom_silent (length (argv w))). apply le_n. Qed.
End MainFacts.

Section GateFacts.
Context `{Platform}.
Variable w : World.

Lemma applyOverrides_no_test args :
  truthyStr (CLIOptions.test args) = false ->
  getProp "testUrl" (fst (applyOverrides args DEFAULT_CONFIG)) = None.
Proof.
  intros Ht. unfold applyOverrides. rewrite Ht.
  destruct (truthyStr (CLIOptions.reference args));
    cbn [getProp lookup setProp DEFAULT_CONFIG String.eqb Ascii.eqb Bool.eqb truthy];
    rewrite andb_false_r;
    destruct (CLIOptions.maxUrls args) as [[|z]|]; try destruct (z =? 0)%Z; reflexivity.
Qed.

(** [prepare] returns only when a config file or a test URL was given. *)
Lemma prepare_returns_usage args t st :
  prepare w args = (t, Returns st) ->
  negb (truthyStr (CLIOptions.config args)) && negb (truthyStr (CLIOptions.test args)) = false.
Proof.
  intros E.
  destruct (truthyStr (CLIOptions.config args)) eqn:Hc; [reflexivity|].
  destruct (truthyStr (CLIOptions.test args)) eqn:Ht; [reflexivity|].
  exfalso. unfold prepare in E. rewrite Hc, bind_ret_l in E.
  pose proof (applyOverrides_no_test args Ht) as Hget.
  destruct (applyOverrides args DEFAULT_CONFIG) as [config explicit]. cbn [fst] in Hget.
  unfold validateConfig in E. rewrite Hget in E. discriminate.
Qed.

Definition onError (error : Error) : M unit :=
  emit (ConsoleError (nl ++ "❌ Error: " ++ message error)) ;;; exit 2.

(** What [main] does once the configuration is prepared. *)
Lemma main_after_prepare args st t0 t1 :
  parseArgs w = (t0, Returns args) ->
  prepare w args = (t1, Returns st) ->
  main w
  = ((t0 ++ t1
         ++ trace (tryCatch (if refuses args st then refuse else proceed w args st) onError))%list,
     outcome (tryCatch (if refuses args st then refuse else proceed w args st) onError)).
Proof.
  intros Ha Hp. unfold main. rewrite (bind_step _ _ _ _ Ha).
  rewrite (prepare_returns_usage _ _ _ Hp).
  rewrite (tryCatch_bind_step _ _ _ _ _ Hp). reflexivity.
Qed.

Lemma refuse_runs :
  refuse = (map ConsoleError ambiguityLines, Exits 2).
Proof. reflexivity. Qed.

Lemma filterURLs_free p urls baseUrl include exclude :
  free p (filterURLs urls baseUrl include exclude).
Proof.
  induction urls as [|url rest IH]; cbn [filterURLs]; [apply free_ret|].
  apply free_bind.
  - unfold keepURL, isMatch. free_auto; apply newURL_free.
  - intros keep. apply free_bind; [exact IH|intros; apply free_ret].
Qed.

Lemma visitHomepage_free_either baseUrl b options :
  Forall (fun e => printsEither e = false) (fst (visitHomepage w baseUrl b options)).
Proof.
  unfold visitHomepage.
  destruct (gotoError (browser w)); [|destruct (anchors (browser w))];
    repeat constructor.
Qed.

Lemma crawlWebsite_free_either baseUrl options :
  free printsEither (crawlWebsite w baseUrl options).
Proof.
  unfold crawlWebsite, attempt.
  apply free_bind; [free_auto|]. intros _.
  apply free_bind; [free_auto|]. intros _.
  apply free_bind; [apply newURL_free|]. intros b.
  apply free_tryFinally; [|free_auto].
  pose proof (visitHomepage_free_either baseUrl b options) as V.
  destruct (visitHomepage w baseUrl b options) as [t [urls failure]]. cbn [fst] in V.
  apply free_bind; [exact V|]. intros _. free_auto.
Qed.

Lemma collectURLs_free_either config : free printsEither (collectURLs w config).
Proof.
  unfold collectURLs. apply free_bind.
  - unfold discover, collectFromSitemap.
    free_with ltac:(apply crawlWebsite_free_either).
  - intros found. apply free_bind; [apply filterURLs_free|intros; apply free_ret].
Qed.

Lemma runPlaywright_free p options :
  (forall o, p (Spawn o) = false) -> free p (runPlaywright w options).
Proof.
  intros Hp. unfold runPlaywright. apply free_bind; [apply free_emit; apply Hp|].
  free_auto.
Qed.

Lemma parseResults_free p dir : free p (parseResults w dir).
Proof. unfold free. rewrite parseResults_silent. constructor. Qed.

Lemma runVisualTests_free p options :
  (forall o, p (Spawn o) = false) -> free p (runVisualTests w options).
Proof.
  intros Hp. unfold runVisualTests.
  free_with ltac:(first [ apply runPlaywright_free; exact Hp | apply parseResults_free ]).
Qed.

Lemma isEmptyList_free p urls : free p (isEmptyList urls).
Proof. unfold isEmptyList. free_auto. Qed.

Lemma proceed_free_either args st : free printsEither (proceed w args st).
Proof.
  unfold proceed, saveCacheHashes.
  free_with ltac:(first [ apply collectURLs_free_either | apply isEmptyList_free
                        | apply runVisualTests_free; reflexivity ]).
Qed.

Lemma guarded_proceed_free_either args st :
  free printsEither (tryCatch (proceed w args st) onError).
Proof.
  apply free_tryCatch; [apply proceed_free_either|].
  intros err. unfold onError. free_auto.
Qed.

(** The run ends in a BaselineAmbiguityError: the remediation list is
    printed and the process exits with status 2. *)
Definition raisesBaselineAmbiguity (run : M unit) : Prop :=
  (forall line, In line ambiguityLines -> In (ConsoleError line) (trace run))
  /\ outcome run = Exits 2.

(** C1.  Once the configuration is prepared, the run is refused with a
    BaselineAmbiguityError exactly when there is no explicit reference,
    the cache is invalid and no update is forced; the refusal exits with
    status 2 before any network, browser or engine activity; in every
    other case [main] goes on with the rest of its body. *)
Theorem gate_refuses_exactly_when_ambiguous args st t0 t1 :
  parseArgs w = (t0, Returns args) ->
  prepare w args = (t1, Returns st) ->
  (raisesBaselineAmbiguity (main w)
   <-> hasExplicitReference st = false /\ cacheValid st = false
       /\ CLIOptions.updateBaseline args = false)
  /\ (raisesBaselineAmbiguity (main w) ->
      outcome (main w) = Exits 2 /\ free isRemote (main w))
  /\ (~ (hasExplicitReference st = false /\ cacheValid st = false
         /\ CLIOptions.updateBaseline args = false) ->
      main w = ((t0 ++ t1 ++ trace (tryCatch (proceed w args st) onError))%list,
                outcome (tryCatch (proceed w args st) onError))).
Proof.
  intros Ha Hp.
  pose proof (main_after_prepare _ _ _ _ Ha Hp) as Hmain.
  pose proof (parseArgs_silent w _ _ Ha) as ->.
  assert (Hgate : refuses args st = true
                  <-> hasExplicitReference st = false /\ cacheValid st = false
                      /\ CLIOptions.updateBaseline args = false).
  { unfold refuses. rewrite !andb_true_iff, !negb_true_iff. tauto. }
  assert (Hquiet : free isRemote (prepare w args)) by (apply prepare_free; reflexivity).
  assert (Hnone : free printsEither (prepare w args)) by (apply prepare_free; reflexivity).
  rewrite Hp in Hquiet, Hnone. unfold free in Hquiet, Hnone. cbn [trace fst] in Hquiet, Hnone.
  destruct (refuses args st) eqn:R.
  - (* the gate refuses *)
    rewrite refuse_runs in Hmain. cbn [tryCatch trace outcome fst snd app] in Hmain.
    assert (Hraise : raisesBaselineAmbiguity (main w)).
    { rewrite Hmain. split; [|reflexivity]. intros line Hin. cbn [trace fst].
      apply in_or_app. right. apply in_map. exact Hin. }
    split; [split; [intros _; apply Hgate; reflexivity|intros _; exact Hraise]|].
    split.
    + intros _. rewrite Hmain. split; [reflexivity|].
      unfold free. cbn [trace fst]. apply Forall_app. split; [exact Hquiet|].
      repeat constructor.
    + intros N. exfalso. apply N. apply Hgate. reflexivity.
  - (* the gate lets the run through *)
    assert (Hnot : ~ raisesBaselineAmbiguity (main w)).
    { intros [Hlines _]. specialize (Hlines "   Either:").
      rewrite Hmain in Hlines. cbn [trace fst app] in Hlines.
      assert (Hin : In (ConsoleError "   Either:")
                       (t1 ++ trace (tryCatch (proceed w args st) onError))%list).
      { apply Hlines. cbn. auto. }
      apply in_app_or in Hin as [Hin|Hin].
      - rewrite Forall_forall in Hnone. apply Hnone in Hin. discriminate.
      - pose proof (guarded_proceed_free_either args st) as F. unfold free in F.
        rewrite Forall_forall in F. apply F in Hin. discriminate. }
    split; [split; [intros Hr; contradiction|]|].
    + intros Hc. apply Hgate in Hc. discriminate.
    + split; [intros Hr; contradiction|]. intros _. exact Hmain.
Qed.
End GateFacts.

Section ReuseFacts.
Context `{Platform}.
Variable w : World.

(** The engine call of the comparison phase. *)
Definition comparisonRun (options : RunnerOptions.t) : PlaywrightRunOptions :=
  {| configPath := pathJoin (packageDir w) "playwright.config.js";
     baseURL := toStringOpt (getProp "testUrl" (RunnerOptions.config options));
     vrtConfig := RunnerOptions.config options;
     outputDir := RunnerOptions.outputDir options;
     updateSnapshots := false;
     verbose := true;
     project := RunnerOptions.project options;
     headed := RunnerOptions.headed options |}.

Lemma runPlaywright_trace options : trace (runPlaywright w options) = [Spawn options].
Proof.
  unfold runPlaywright. rewrite trace_bind. cbn [emit trace outcome fst snd].
  destruct (engine w (updateSnapshots options)) as [msg|code];
    [|destruct (updateSnapshots options)]; reflexivity.
Qed.

(** With a baseline on disk and no update asked for, the comparison run
    is the only thing [runVisualTests] starts. *)
Lemma runVisualTests_compare_only options :
  RunnerOptions.updateBaseline options = false ->
  hasExistingSnapshots w = true ->
  trace (runVisualTests w options) = [Spawn (comparisonRun options)].
Proof.
  intros Hu Hs. unfold runVisualTests. rewrite Hu, Hs. cbn [negb andb].
  rewrite bind_ret_l. fold (comparisonRun options).
  rewrite trace_bind, runPlaywright_trace.
  destruct (outcome (runPlaywright w (comparisonRun options))); try reflexivity.
  rewrite trace_bind, parseResults_silent.
  destruct (outcome (parseResults w (RunnerOptions.outputDir options))); reflexivity.
Qed.

(** The rest of [main] on the cached path. *)
Lemma proceed_cached args st :
  CLIOptions.updateBaseline args = false ->
  cacheValid st = true ->
  urlsFile w <> Missing ->
  hasExistingSnapshots w = true ->
  free isDiscovery (proceed w args st)
  /\ free isBaselineCapture (proceed w args st)
  /\ (forall urls, urlsFile w = Holds (JArr urls) -> urls <> [] ->
      exists options,
        baseURL options = toStringOpt (getProp "testUrl" (config st))
        /\ updateSnapshots options = false
        /\ vrtConfig options = config st
        /\ trace (proceed w args st) = [Spawn options]).
Proof.
  intros Hu Hc Hf Hs. unfold proceed. rewrite Hu, Hc. cbn [negb orb].
  set (options := {| RunnerOptions.config := config st;
                     RunnerOptions.outputDir := _;
                     RunnerOptions.verbose := _;
                     RunnerOptions.project := _;
                     RunnerOptions.updateBaseline := false;
                     RunnerOptions.hasExplicitReference := _;
                     RunnerOptions.headed := _ |}).
  pose proof (runVisualTests_compare_only options eq_refl Hs) as Hrun.
  assert (Hd : free isDiscovery (runVisualTests w options))
    by (unfold free; rewrite Hrun; repeat constructor).
  assert (Hb : free isBaselineCapture (runVisualTests w options))
    by (unfold free; rewrite Hrun; repeat constructor).
  destruct (urlsFile w) as [| |cached] eqn:U; [contradiction| |]; cbn [andb].
  - rewrite (bind_throws (throw _) _ [] _ eq_refl).
    split; [|split]; [constructor|constructor|discriminate].
  - rewrite bind_ret_l.
    split; [|split].
    + free_with ltac:(first [ apply isEmptyList_free | exact Hd ]).
    + free_with ltac:(first [ apply isEmptyList_free | exact Hb ]).
    + intros urls [= ->] Hne. exists (comparisonRun options).
      repeat split.
      destruct urls as [|url rest]; [contradiction|].
      cbn [isEmptyList lengthIsZero]. rewrite bind_ret_l.
      destruct (CLIOptions.verbose args); rewrite bind_ret_l, trace_bind, Hrun;
        destruct (outcome (runVisualTests w options)); reflexivity.
Qed.

End ReuseFacts.

(* ===================================================================== *)
(** * Concrete runs *)

#[local] Existing Instance Demo.platform.

Definition stagingArgs : list string :=
  ["run"; "--test"; "https://stage.test"; "--reference"; "https://prod.test"].

(** playwright-snapshots/ after a complete first run. *)
Definition snapshotsOnDisk : list Entry :=
  [ FileEntry "urls.json"; FileEntry ".cache-hash.json";
    DirEntry "vrt.spec.js-snapshots" [ FileEntry "VRT-https-prod-test-1-desktop.png" ] ].

Definition twoPassingSpecs : JSON :=
  JObj [ ("suites", JArr [ JObj [ ("specs", JArr [ JObj [ ("ok", JBool true) ];
                                                   JObj [ ("ok", JBool true) ] ]) ] ]) ].

Definition spawnTarget (e : Event) : string * bool :=
  match e with
  | Spawn o => (baseURL o, updateSnapshots o)
  | _ => ("", false)
  end.

(** *** Scenario A: a test URL only, nothing cached, nothing forced *)

Definition scenarioA : World :=
  world ["run"; "--test"; "https://a.test"] false [] Missing Missing
        (FetchFails "offline") (quietBrowser "https://a.test/") (Closed (Some 0%Z)) Missing.

Definition argsA : CLIOptions.t :=
  Eval vm_compute in returned noArgs (parseArgs scenarioA).

Definition preparedA : Prepared :=
  Eval vm_compute in
    returned {| config := []; hasExplicitReference := true; cacheValid := false |}
             (prepare scenarioA argsA).

Lemma gate_refuses_exactly_when_ambiguous_witness :
  parseArgs scenarioA = ([], Returns argsA)
  /\ prepare scenarioA argsA = ([FsMkdir "/work/playwright-snapshots"], Returns preparedA)
  /\ raisesBaselineAmbiguity (main scenarioA)
  /\ outcome (main scenarioA) = Exits 2
  /\ free isRemote (main scenarioA).
Proof.
  assert (Ha : parseArgs scenarioA = ([], Returns argsA)) by (vm_compute; reflexivity).
  assert (Hp : prepare scenarioA argsA
               = ([FsMkdir "/work/playwright-snapshots"], Returns preparedA))
    by (vm_compute; reflexivity).
  destruct (gate_refuses_exactly_when_ambiguous scenarioA argsA preparedA _ _ Ha Hp)
    as (Hiff & Hquiet & _).
  assert (Hr : raisesBaselineAmbiguity (main scenarioA))
    by (apply Hiff; repeat split).
  split; [exact Ha|]. split; [exact Hp|]. split; [exact Hr|]. exact (Hquiet Hr).
Defined.

(** *** Scenario D: staging against production, rerun unchanged *)

Definition scenarioD : World :=
  afterFirstRun
    (world stagingArgs true snapshotsOnDisk Missing
           (Holds (strs ["https://prod.test/"; "https://prod.test/about"]))
           (FetchFails "offline") (quietBrowser "https://prod.test/")
           (Closed (Some 0%Z)) (Holds twoPassingSpecs)).

Definition argsD : CLIOptions.t :=
  Eval vm_compute in returned noArgs (parseArgs scenarioD).

Definition preparedD : Prepared :=
  {| config := effectiveConfig; hasExplicitReference := true; cacheValid := true |}.


(** The same rerun after the baseline images were lost (or were never
    written because the first run broke off after its manifest): the
    manifest is valid and no update is forced, and the baseline is
    captured from the reference target all the same. *)
Definition lostImages : World :=
  afterFirstRun
    (world stagingArgs true [ FileEntry "urls.json"; FileEntry ".cache-hash.json" ] Missing
           (Holds (strs ["https://prod.test/"; "https://prod.test/about"]))
           (FetchFails "offline") (quietBrowser "https://prod.test/")
           (Closed (Some 0%Z)) (Holds twoPassingSpecs)).


(** *** The engine leaves no results file *)

(** A first run of staging against production: the comparison finds
    differences, the engine exits with status 1, and results.json was
    not written. *)
Definition noResults : World :=
  world stagingArgs false [] Missing Missing
        (Sites (Some ["https://prod.test/"; "https://prod.test/pricing"]))
        (quietBrowser "https://prod.test/") (Closed (Some 1%Z)) Missing.

(** C4.  Without a results file the aggregator returns zero counts and
    marks them with exit code 1, and nothing crashes; but
    [runVisualTests] overwrites that mark with the engine's status and
    [main] derives its own status from the failure count alone, so the
    process exits with status 0. *)
Theorem missing_results_exit_zero :
  resultsFile noResults = Missing
  /\ engine noResults false = Closed (Some 1%Z)
  /\ parseResults noResults "/work/playwright-report"
     = ret {| TestResults.passed := 0; TestResults.failed := 0;
              TestResults.total := 0; TestResults.exitCode := 1 |}
  /\ map spawnTarget (filter isSpawn (trace (main noResults)))
     = [("https://prod.test", true); ("https://stage.test", false)]
  /\ outcome (main noResults) = Exits 0.
Proof. repeat split; vm_compute; reflexivity. Qed.

(** The same holds for a results file that does not parse. *)
Lemma unreadable_results_exit_zero :
  outcome (main (world stagingArgs false [] Missing Missing
                       (Sites (Some ["https://prod.test/"]))
                       (quietBrowser "https://prod.test/") (Closed (Some 1%Z)) Unreadable))
  = Exits 0.
Proof. vm_compute. reflexivity. Qed.

(** *** The filter on a small site *)

Definition smallSite : list string :=
  [ "https://a.test/"; "https://a.test/admin/users"; "https://a.test/blog?page=2";
    "https://b.test/blog"; "https://a.test/shop/admin/orders" ].

(** The parsed form of a URL that parses. *)
Definition theURL (s : string) : URL :=
  match parseURL s with
  | Some u => u
  | None => {| protocol := ""; host := ""; hostname := ""; pathname := "/";
               search := ""; hash := "" |}
  end.

Lemma exclude_wins_over_include_witness :
  filterURLs smallSite "https://a.test" ["**"] ["**/admin/**"]
  = ret ["https://a.test/"; "https://a.test/blog?page=2"]
  /\ ~ In "https://a.test/admin/users" ["https://a.test/"; "https://a.test/blog?page=2"]
  /\ ~ In "https://a.test/shop/admin/orders" ["https://a.test/"; "https://a.test/blog?page=2"].
Proof.
  assert (E : filterURLs smallSite "https://a.test" ["**"] ["**/admin/**"]
              = ret ["https://a.test/"; "https://a.test/blog?page=2"])
    by (vm_compute; reflexivity).
  destruct (exclude_wins_over_include smallSite "https://a.test") as [_ Hwins].
  destruct (Hwins _ _ E) as [Hgone _].
  split; [exact E|]. split.
  - apply (Hgone "https://a.test/admin/users" (theURL "https://a.test/admin/users"));
      [right; left; reflexivity|reflexivity|reflexivity].
  - apply (Hgone "https://a.test/shop/admin/orders"
                 (theURL "https://a.test/shop/admin/orders"));
      [do 4 right; left; reflexivity|reflexivity|reflexivity].
Defined.


(** *** Discovery *)

(** No sitemap, and the headless browser is not installed. *)
Definition noBrowser : World :=
  world stagingArgs false [] Missing Missing (FetchFails "offline")
        {| launchError := Some "Executable doesn't exist at chromium";
           newPageError := None; gotoError := None; pageUrl := "";
           anchors := None; closeError := None |}
        (Closed (Some 0%Z)) Missing.

(** URL discovery raises: the crawl's launch of the browser is outside
    its try block, and the fallback runs outside the try block of
    [collectURLs]. *)
Lemma discovery_raises_without_browser :
  collectURLs noBrowser effectiveConfig
  = ([ SitemapFetch "https://prod.test/sitemap.xml";
       ConsoleError "⚠️ Sitemap fetch failed, falling back to crawler";
       BrowserLaunch ],
     Throws (mkError "Executable doesn't exist at chromium"))
  /\ outcome (main noBrowser) = Exits 2.
Proof. split; vm_compute; reflexivity. Qed.

(** No sitemap, and the page does not load within the timeout. *)
Definition slowSite : World :=
  world stagingArgs false [] Missing Missing (FetchFails "offline")
        {| launchError := None; newPageError := None;
           gotoError := Some "Timeout 30000ms exceeded"; pageUrl := "";
           anchors := None; closeError := None |}
        (Closed (Some 0%Z)) Missing.

Lemma discovery_absorbs_crawl_errors_witness :
  parseURL (referenceOf effectiveConfig) = Some (theURL "https://prod.test")
  /\ launchError (browser slowSite) = None
  /\ newPageError (browser slowSite) = None
  /\ closeError (browser slowSite) = None
  /\ discover slowSite effectiveConfig
     = ([ SitemapFetch "https://prod.test/sitemap.xml";
          ConsoleError "⚠️ Sitemap fetch failed, falling back to crawler";
          BrowserLaunch; BrowserNewPage; PageGoto "https://prod.test";
          ConsoleError "   Crawler error: Timeout 30000ms exceeded"; BrowserClose ],
        Returns (["https://prod.test"], crawlSource))
  /\ exists r, collectURLs slowSite effectiveConfig
               = ([ SitemapFetch "https://prod.test/sitemap.xml";
                    ConsoleError "⚠️ Sitemap fetch failed, falling back to crawler";
                    BrowserLaunch; BrowserNewPage; PageGoto "https://prod.test";
                    ConsoleError "   Crawler error: Timeout 30000ms exceeded";
                    BrowserClose ],
                  Returns r).
Proof.
  assert (Hb : parseURL (referenceOf effectiveConfig) = Some (theURL "https://prod.test"))
    by reflexivity.
  destruct (discovery_absorbs_crawl_errors slowSite effectiveConfig _ Hb eq_refl eq_refl eq_refl)
    as (t & found & Hd & _ & _ & _ & Hreturns).
  assert (E : discover slowSite effectiveConfig
              = ([ SitemapFetch "https://prod.test/sitemap.xml";
                   ConsoleError "⚠️ Sitemap fetch failed, falling back to crawler";
                   BrowserLaunch; BrowserNewPage; PageGoto "https://prod.test";
                   ConsoleError "   Crawler error: Timeout 30000ms exceeded"; BrowserClose ],
                 Returns (["https://prod.test"], crawlSource)))
    by (vm_compute; reflexivity).
  rewrite E in Hd. injection Hd as <- <-.
  repeat (split; [first [assumption|reflexivity]|]).
  apply Hreturns; [repeat constructor; discriminate|reflexivity|reflexivity].
Defined.

(** *** Deduplication and the cap *)

Definition cappedConfig : object :=
  setProp "maxUrls" (JNum (int 3)) effectiveConfig.

Definition repeatingSitemap : World :=
  world stagingArgs false [] Missing Missing
        (Sites (Some [ "https://prod.test/a"; "https://prod.test/b"; "https://prod.test/a";
                       "https://prod.test/c"; "https://prod.test/b"; "https://prod.test/d" ]))
        (quietBrowser "https://prod.test/") (Closed (Some 0%Z)) Missing.


(** *** The URL cap from the command line *)

(** A forced first run with [--max-urls -1] against a site whose
    sitemap lists one page. *)
Definition negativeCap : World :=
  world ["run"; "--test"; "https://a.test"; "--update-baseline"; "--max-urls"; "-1"]
        false [] Missing Missing (Sites (Some ["https://a.test/"]))
        (quietBrowser "https://a.test/") (Closed (Some 0%Z)) Missing.

Definition negativeCapConfig : object :=
  Eval vm_compute in
    config (returned {| config := []; hasExplicitReference := true; cacheValid := false |}
                     (prepare negativeCap (returned noArgs (parseArgs negativeCap)))).

(** The override is applied, the one URL found passes the filter, and
    the URL set is empty: the budget is zero. *)
Lemma negative_max_urls_leaves_no_url :
  CLIOptions.maxUrls (returned noArgs (parseArgs negativeCap)) = Some (Num (-1))
  /\ getProp "maxUrls" negativeCapConfig = Some (JNum (int (-1)))
  /\ filterURLs ["https://a.test/"] (referenceOf negativeCapConfig)
                (includeOf negativeCapConfig) (excludeOf negativeCapConfig)
     = ret ["https://a.test/"]
  /\ collectURLs negativeCap negativeCapConfig
     = ([SitemapFetch "https://a.test/sitemap.xml"],
        Returns {| URLCollectionResult.urls := [];
                   URLCollectionResult.source := sitemapSource;
                   URLCollectionResult.total := 1;
                   URLCollectionResult.filtered := 1 |})
  /\ In (ConsoleError (nl ++ "❌ Error: No URLs found to test")) (trace (main negativeCap))
  /\ outcome (main negativeCap) = Exits 2.
Proof.
  repeat (split; [vm_compute; reflexivity|]).
  split; [|vm_compute; reflexivity].
  vm_compute. do 4 right. left. reflexivity.
Qed.

(** The same run with [--max-urls 0]. *)
Definition zeroCap : World :=
  world ["run"; "--test"; "https://a.test"; "--update-baseline"; "--max-urls"; "0"]
        false [] Missing Missing (Sites (Some ["https://a.test/"]))
        (quietBrowser "https://a.test/") (Closed (Some 0%Z)) Missing.

Definition zeroCapConfig : object :=
  Eval vm_compute in
    config (returned {| config := []; hasExplicitReference := true; cacheValid := false |}
                     (prepare zeroCap (returned noArgs (parseArgs zeroCap)))).

Lemma zero_max_urls_means_default_witness :
  CLIOptions.maxUrls (returned noArgs (parseArgs zeroCap)) = Some (Num 0)
  /\ getProp "maxUrls" zeroCapConfig = Some (JNum (int 25))
  /\ maxUrlsOf (setProp "maxUrls" (JNum (int 0)) zeroCapConfig) = 25%Z
  /\ exists r,
       collectURLs zeroCap (setProp "maxUrls" (JNum (int 0)) zeroCapConfig)
       = ([SitemapFetch "https://a.test/sitemap.xml"], Returns r)
       /\ URLCollectionResult.urls r <> [].
Proof.
  split; [vm_compute; reflexivity|]. split; [vm_compute; reflexivity|].
  destruct (zero_max_urls_means_default zeroCap
              (setProp "maxUrls" (JNum (int 0)) zeroCapConfig))
    as (Hdefault & _ & _ & Hbudget & _).
  split; [apply Hdefault; reflexivity|].
  assert (Hd : discover zeroCap (setProp "maxUrls" (JNum (int 0)) zeroCapConfig)
               = ([SitemapFetch "https://a.test/sitemap.xml"],
                  Returns (["https://a.test/"], sitemapSource)))
    by (vm_compute; reflexivity).
  assert (Hf : filterURLs ["https://a.test/"]
                          (referenceOf (setProp "maxUrls" (JNum (int 0)) zeroCapConfig))
                          (includeOf (setProp "maxUrls" (JNum (int 0)) zeroCapConfig))
                          (excludeOf (setProp "maxUrls" (JNum (int 0)) zeroCapConfig))
               = ([], Returns ["https://a.test/"]))
    by (vm_compute; reflexivity).
  destruct (Hbudget _ _ _ _ Hd Hf ltac:(discriminate) (or_introl eq_refl))
    as (r & Hr & Hne & _).
  exists r. split; assumption.
Defined.

(* ===================================================================== *)
(** * Further properties of the code *)

(** ** Outcomes: what a run cannot end in *)

(** [noExit m]: the run [m] does not call [process.exit]. *)
Definition noExit {A} (m : M A) : Prop := forall code, outcome m <> Exits code.

Lemma noExit_ret {A} (a : A) : noExit (ret a).
Proof. intros code. discriminate. Qed.

Lemma noExit_throw {A} err : noExit (@throw A err).
Proof. intros code. discriminate. Qed.

Lemma noExit_emit e : noExit (emit e).
Proof. intros code. discriminate. Qed.

Lemma noExit_bind {A B} (m : M A) (k : A -> M B) :
  noExit m -> (forall a, noExit (k a)) -> noExit (bind m k).
Proof.
  unfold noExit, bind, outcome. intros Hm Hk code.
  destruct m as [t [a|err|c]]; cbn [snd] in *.
  - specialize (Hk a code). destruct (k a) as [t' r]. exact Hk.
  - discriminate.
  - exfalso. exact (Hm c eq_refl).
Qed.

Lemma noExit_tryCatch {A} (m : M A) h :
  noExit m -> (forall err, noExit (h err)) -> noExit (tryCatch m h).
Proof.
  unfold noExit, tryCatch, outcome. intros Hm Hh code.
  destruct m as [t [a|err|c]]; cbn [snd] in *.
  - discriminate.
  - specialize (Hh err code). destruct (h err) as [t' r]. exact Hh.
  - exfalso. exact (Hm c eq_refl).
Qed.

Lemma noExit_tryFinally {A} (m : M A) fin :
  noExit m -> noExit fin -> noExit (tryFinally m fin).
Proof.
  unfold noExit, tryFinally, outcome. intros Hm Hf code.
  destruct m as [t [a|err|c]], fin as [t' [[]|err'|c']]; cbn [snd] in *;
    try discriminate;
    try (exfalso; exact (Hm c eq_refl)); try (exfalso; exact (Hf c' eq_refl)).
Qed.

Lemma noExit_forEach {A} (body : A -> M unit) l :
  (forall x, noExit (body x)) -> noExit (forEach body l).
Proof.
  intros Hb. induction l as [|x rest IH]; cbn [forEach].
  - apply noExit_ret.
  - apply noExit_bind; [apply Hb|intros _; exact IH].
Qed.

Lemma noExit_foldM {A B} (step : B -> A -> M B) l acc :
  (forall b x, noExit (step b x)) -> noExit (foldM step l acc).
Proof.
  intros Hs. revert acc. induction l as [|x rest IH]; intros acc; cbn [foldM].
  - apply noExit_ret.
  - apply noExit_bind; [apply Hs|intros b; apply IH].
Qed.

Ltac noExit_with tac :=
  repeat (intros;
          first [ tac
                | apply noExit_ret | apply noExit_throw | apply noExit_emit
                | apply noExit_bind | apply noExit_tryCatch | apply noExit_tryFinally
                | apply noExit_forEach | apply noExit_foldM
                | match goal with
                  | |- noExit (match ?x with _ => _ end) => destruct x
                  | |- noExit (if ?c then _ else _) => destruct c
                  end ]).

(** ** The cache manifest *)

(** The fingerprint of the packaged test file, as both [isCacheValid]
    and [saveCacheHashes] compute it. *)
Definition testFileHash (w : World) : string :=
  match testSpec w with
  | Some text => computeFileHash text
  | None => ""
  end.

(** X1.  A manifest written by [saveCacheHashes] is read back as valid
    exactly when the fingerprint of the configuration and the
    fingerprint of the test file are those it was written with; the
    time of writing plays no part. *)
Theorem saved_manifest_valid_iff_same_fingerprints
        (w w' : World) (config config' : object) :
  cacheHashFile w' = Holds (hashesOf w config) ->
  (isCacheValid w' config' = true
   <-> computeConfigHash config' = computeConfigHash config
       /\ testFileHash w' = testFileHash w).
Proof.
  intros E. unfold isCacheValid. rewrite E. unfold hashesOf.
  cbn [field getProp lookup String.eqb Ascii.eqb Bool.eqb strictEquals].
  fold (testFileHash w) (testFileHash w').
  rewrite andb_true_iff, !String.eqb_eq. split; intros [A B]; split; congruence.
Qed.

(** The effective configuration with its properties in another order. *)
Definition stagingConfigOrder : object := rev effectiveConfig.

Lemma saved_manifest_valid_iff_same_fingerprints_witness :
  cacheHashFile (afterFirstRun emptyWorld) = Holds (hashesOf emptyWorld effectiveConfig)
  /\ isCacheValid (afterFirstRun emptyWorld) stagingConfigOrder = true.
Proof.
  split; [reflexivity|].
  apply (saved_manifest_valid_iff_same_fingerprints emptyWorld (afterFirstRun emptyWorld)
           effectiveConfig stagingConfigOrder eq_refl).
  split; vm_compute; reflexivity.
Defined.

(** ** Validation and merging of the configuration *)

Section ConfigFacts.
Context `{Platform}.
Variable w : World.

Lemma getProp_setProp_other k k' v o :
  k <> k' -> getProp k (setProp k' v o) = getProp k o.
Proof.
  intros N. rewrite getProp_setProp.
  destruct (String.eqb k k') eqn:E; [apply String.eqb_eq in E; contradiction|reflexivity].
Qed.

(** X2.  [validateConfig] reads the test URL, the reference URL, the
    viewports and the threshold, and nothing else: whatever is stored
    under any other key (the URL cap, the sitemap path, the glob lists,
    the crawl options) is accepted as it is. *)
Theorem validateConfig_checks_four_keys_only (config : object) (k : string) (v : JSON) :
  k <> "testUrl" -> k <> "referenceUrl" -> k <> "viewports" -> k <> "threshold" ->
  validateConfig (setProp k v config) = validateConfig config.
Proof.
  intros N1 N2 N3 N4. unfold validateConfig.
  rewrite !getProp_setProp_other by (intros E; symmetry in E; contradiction).
  reflexivity.
Qed.

(** What a configuration that passed validation is known to hold. *)
Lemma validateConfig_returns config t :
  validateConfig config = (t, Returns tt) ->
  t = []
  /\ truthy (getProp "testUrl" config) = true
  /\ truthy (getProp "referenceUrl" config) = true
  /\ parseURL (toStringOpt (getProp "referenceUrl" config)) <> None
  /\ parseURL (toStringOpt (getProp "testUrl" config)) <> None
  /\ truthy (getProp "viewports" config) = true
  /\ lengthIsZero (getProp "viewports" config) = false.
Proof.
  intros E.
  assert (Ht : t = []).
  { pose proof (validateConfig_free (fun _ => true) config) as F.
    apply free_silent in F. rewrite E in F. exact F. }
  split; [exact Ht|]. unfold validateConfig in E.
  destruct (truthy (getProp "testUrl" config)); cbn [negb] in E; [|discriminate].
  destruct (truthy (getProp "referenceUrl" config)); cbn [negb] in E; [|discriminate].
  apply bind_returns in E as (t1 & [] & t2 & Hurl & E & _).
  unfold newURL in Hurl.
  destruct (parseURL (toStringOpt (getProp "referenceUrl" config))); [|discriminate].
  rewrite bind_ret_l in Hurl.
  destruct (parseURL (toStringOpt (getProp "testUrl" config))); [|discriminate].
  destruct (truthy (getProp "viewports" config)); cbn [negb orb] in E; [|discriminate].
  destruct (lengthIsZero (getProp "viewports" config)); [discriminate|].
  repeat split; discriminate.
Qed.

End ConfigFacts.

Section MergeFacts.
Context `{Platform}.
Variable w : World.

Lemma lookup_None_iff {A} k (l : list (string * A)) :
  lookup k l = None <-> ~ In k (map fst l).
Proof.
  induction l as [|[h x] rest IH]; cbn [lookup map fst In]; [tauto|].
  destruct (String.eqb k h) eqn:Hh.
  - apply String.eqb_eq in Hh. split; [discriminate|]. intros N. exfalso. auto.
  - apply String.eqb_neq in Hh. rewrite IH. split.
    + intros N [E|I]; [congruence|auto].
    + intros N I. auto.
Qed.

Lemma lookup_app {A} k (l1 l2 : list (string * A)) :
  lookup k (l1 ++ l2)%list = match lookup k l1 with
                             | Some v => Some v
                             | None => lookup k l2
                             end.
Proof.
  induction l1 as [|[h x] rest IH]; cbn [app lookup]; [reflexivity|].
  destruct (String.eqb k h); [reflexivity|exact IH].
Qed.

(** In an object whose keys are all different, the order of the
    properties does not change what a property read returns. *)
Lemma getProp_rev_NoDup k (o : object) :
  NoDup (keys o) -> getProp k (rev o) = getProp k o.
Proof.
  unfold getProp, keys. induction o as [|[h x] rest IH]; [reflexivity|].
  cbn [map fst rev]. intros N. inversion N as [|? ? Hnotin Hrest]; subst.
  rewrite lookup_app, (IH Hrest). cbn [lookup].
  destruct (String.eqb k h) eqn:Hh.
  - apply String.eqb_eq in Hh. subst h.
    apply lookup_None_iff in Hnotin. rewrite Hnotin. reflexivity.
  - destruct (lookup k rest); reflexivity.
Qed.

Lemma getProp_spread_NoDup k a b :
  NoDup (keys b) ->
  getProp k (spread a b) = match getProp k b with
                           | Some v => Some v
                           | None => getProp k a
                           end.
Proof. intros N. rewrite getProp_spread, (getProp_rev_NoDup _ _ N). reflexivity. Qed.

(** In implicit mode the reference URL is the test URL. *)
Lemma applyOverrides_implicit (args : CLIOptions.t) (config : object) :
  snd (applyOverrides args config) = false ->
  getProp "referenceUrl" (fst (applyOverrides args config))
  = getProp "testUrl" (fst (applyOverrides args config)).
Proof.
  unfold applyOverrides.
  set (c1 := if truthyStr (CLIOptions.test args) then _ else config).
  set (c2 := if truthyStr (CLIOptions.reference args) then _ else c1).
  clearbody c2. clear c1.
  destruct (negb (truthy (getProp "referenceUrl" c2)) && truthy (getProp "testUrl" c2)) eqn:G;
    cbn [fst snd]; [|discriminate].
  intros _. apply andb_true_iff in G as [_ Gt].
  destruct (CLIOptions.maxUrls args) as [[|z]|]; try destruct (z =? 0)%Z;
    rewrite !getProp_setProp; cbn [String.eqb Ascii.eqb Bool.eqb];
    (destruct (getProp "testUrl" c2); [reflexivity|discriminate Gt]).
Qed.

(** X4.  The overrides of the command line.  A test URL and a reference
    URL given on the command line replace those of the config file; a
    cap given there replaces the configured one.  The reference counts
    as implicit exactly when neither the command line nor the config
    names one while a test URL is set, and then the reference URL is the
    test URL. *)
Theorem applyOverrides_precedence (args : CLIOptions.t) (config : object) :
  let effective := fst (applyOverrides args config) in
  let explicit := snd (applyOverrides args config) in
  (truthyStr (CLIOptions.test args) = true ->
   getProp "testUrl" effective = Some (JStr (textOf (CLIOptions.test args))))
  /\ (truthyStr (CLIOptions.test args) = false ->
      getProp "testUrl" effective = getProp "testUrl" config)
  /\ (truthyStr (CLIOptions.reference args) = true ->
      explicit = true
      /\ getProp "referenceUrl" effective = Some (JStr (textOf (CLIOptions.reference args))))
  /\ (explicit = false <->
      truthyStr (CLIOptions.reference args) = false
      /\ truthy (getProp "referenceUrl" config) = false
      /\ truthy (getProp "testUrl" effective) = true)
  /\ (explicit = false -> getProp "referenceUrl" effective = getProp "testUrl" effective)
  /\ (forall z, CLIOptions.maxUrls args = Some (Num z) -> z <> 0%Z ->
                getProp "maxUrls" effective = Some (JNum (int z))).
Proof.
  cbv zeta. unfold applyOverrides.
  set (c1 := if truthyStr (CLIOptions.test args) then _ else config).
  set (c2 := if truthyStr (CLIOptions.reference args) then _ else c1).
  assert (T1 : truthyStr (CLIOptions.test args) = true ->
               getProp "testUrl" c2 = Some (JStr (textOf (CLIOptions.test args)))).
  { intros E. subst c2 c1. rewrite E.
    destruct (truthyStr (CLIOptions.reference args));
      rewrite ?getProp_setProp; reflexivity. }
  assert (T0 : truthyStr (CLIOptions.test args) = false ->
               getProp "testUrl" c2 = getProp "testUrl" config).
  { intros E. subst c2 c1. rewrite E.
    destruct (truthyStr (CLIOptions.reference args));
      rewrite ?getProp_setProp; reflexivity. }
  assert (R1 : truthyStr (CLIOptions.reference args) = true ->
               getProp "referenceUrl" c2
               = Some (JStr (textOf (CLIOptions.reference args)))
               /\ truthy (getProp "referenceUrl" c2) = true).
  { intros E. subst c2. rewrite E, getProp_setProp. cbn [String.eqb Ascii.eqb Bool.eqb].
    split; [reflexivity|]. unfold truthyStr in E. unfold truthy, textOf.
    destruct (CLIOptions.reference args); [exact E|discriminate]. }
  assert (R0 : truthyStr (CLIOptions.reference args) = false ->
               getProp "referenceUrl" c2 = getProp "referenceUrl" config).
  { intros E. subst c2 c1. rewrite E.
    destruct (truthyStr (CLIOptions.test args)); rewrite ?getProp_setProp; reflexivity. }
  clearbody c2. clear c1.
  set (gate := negb (truthy (getProp "referenceUrl" c2)) && truthy (getProp "testUrl" c2)).
  assert (Hmax : forall c : object,
             getProp "testUrl"
               (match CLIOptions.maxUrls args with
                | Some (Num z) => if (z =? 0)%Z then c else setProp "maxUrls" (JNum (int z)) c
                | _ => c
                end) = getProp "testUrl" c
             /\ getProp "referenceUrl"
                  (match CLIOptions.maxUrls args with
                   | Some (Num z) => if (z =? 0)%Z then c else setProp "maxUrls" (JNum (int z)) c
                   | _ => c
                   end) = getProp "referenceUrl" c
             /\ (forall z, CLIOptions.maxUrls args = Some (Num z) -> z <> 0%Z ->
                   getProp "maxUrls"
                     (match CLIOptions.maxUrls args with
                      | Some (Num z) => if (z =? 0)%Z then c
                                        else setProp "maxUrls" (JNum (int z)) c
                      | _ => c
                      end) = Some (JNum (int z)))).
  { intros c. destruct (CLIOptions.maxUrls args) as [[|z]|].
    - repeat split; intros; discriminate.
    - destruct (z =? 0)%Z eqn:Z0.
      + repeat split. intros z' [= <-] N. apply Z.eqb_eq in Z0. contradiction.
      + rewrite !getProp_setProp. cbn [String.eqb Ascii.eqb Bool.eqb].
        repeat split. intros z' [= <-] _. reflexivity.
    - repeat split; intros; discriminate. }
  destruct gate eqn:G; subst gate; cbn [fst snd].
  - (* implicit reference *)
    apply andb_true_iff in G as [Gr Gt]. apply negb_true_iff in Gr.
    destruct (Hmax (setProp "referenceUrl" (valueOf (getProp "testUrl" c2)) c2))
      as (Mt & Mr & Mm).
    rewrite Mt, Mr, !getProp_setProp. cbn [String.eqb Ascii.eqb Bool.eqb].
    assert (Hnoref : truthyStr (CLIOptions.reference args) = false).
    { destruct (truthyStr (CLIOptions.reference args)) eqn:E; [|reflexivity].
      destruct (R1 eq_refl) as [_ C]. congruence. }
    split; [exact T1|]. split; [exact T0|].
    split; [intros E; rewrite E in Hnoref; discriminate|].
    split; [split; [intros _|reflexivity]|].
    { split; [exact Hnoref|]. split; [rewrite <- (R0 Hnoref); exact Gr|exact Gt]. }
    split; [|exact Mm].
    intros _. destruct (getProp "testUrl" c2); [reflexivity|discriminate Gt].
  - destruct (Hmax c2) as (Mt & Mr & Mm). rewrite Mt, Mr.
    split; [exact T1|]. split; [exact T0|].
    split; [intros E; split; [reflexivity|apply R1; exact E]|].
    split; [split; [discriminate|]|].
    { intros (Hnoref & Hcfg & Ht). exfalso.
      rewrite (R0 Hnoref), Hcfg, Ht in G. discriminate. }
    split; [discriminate|exact Mm].
Qed.
Definition notFound (path : string) : Error := mkError ("Config file not found: " ++ path).

(** X5.  Errors of [loadConfig].  A missing file is reported as
    "Config file not found" with the path; a file that does not parse
    and a file that holds [null] throw another error; a file that holds
    an object always loads.  Nothing is printed or written. *)
Theorem loadConfig_errors (path : string) :
  (configFile w path = Missing -> loadConfig w path = throw (notFound path))
  /\ (configFile w path = Unreadable ->
      exists err, loadConfig w path = throw err /\ err <> notFound path)
  /\ (configFile w path = Holds JNull ->
      exists err, loadConfig w path = throw err /\ err <> notFound path)
  /\ (forall o, configFile w path = Holds (JObj o) ->
                exists merged, loadConfig w path = ret merged).
Proof.
  unfold loadConfig. repeat split.
  - intros ->. reflexivity.
  - intros ->. eexists. split; [reflexivity|discriminate].
  - intros ->. eexists. split; [reflexivity|discriminate].
  - intros o ->. eexists. reflexivity.
Qed.

(** The three keys [loadConfig] sets after the two spreads. *)
Definition mergedApart (k : string) : Prop :=
  k <> "crawlOptions" /\ k <> "viewports" /\ k <> "threshold".

(** X6.  Merge precedence of [loadConfig] for a file that holds an
    object: a key of the file wins over the default of the same name, a
    key the file does not name keeps its default; the crawl options and
    the threshold are merged property by property, so naming one of
    their properties keeps the defaults of the others; the viewport list
    is the file's when it has one, and the default otherwise. *)
Theorem loadConfig_merges_by_field (path : string) (o : object) :
  configFile w path = Holds (JObj o) ->
  NoDup (keys o) ->
  exists merged,
    loadConfig w path = ret merged
    /\ (forall k, mergedApart k ->
          getProp k merged = match getProp k o with
                             | Some v => Some v
                             | None => getProp k DEFAULT_CONFIG
                             end)
    /\ (forall given, getProp "crawlOptions" o = Some (JObj given) -> NoDup (keys given) ->
          exists c, getProp "crawlOptions" merged = Some (JObj c)
                    /\ forall k, getProp k c = match getProp k given with
                                               | Some v => Some v
                                               | None => getProp k defaultCrawlOptions
                                               end)
    /\ (getProp "crawlOptions" o = None ->
        getProp "crawlOptions" merged = Some (JObj defaultCrawlOptions))
    /\ (forall given, getProp "threshold" o = Some (JObj given) -> NoDup (keys given) ->
          exists c, getProp "threshold" merged = Some (JObj c)
                    /\ forall k, getProp k c = match getProp k given with
                                               | Some v => Some v
                                               | None => getProp k defaultThreshold
                                               end)
    /\ (getProp "threshold" o = None ->
        getProp "threshold" merged = Some (JObj defaultThreshold))
    /\ getProp "viewports" merged
       = Some (if truthy (getProp "viewports" o) then valueOf (getProp "viewports" o)
               else defaultViewports).
Proof.
  intros E N. unfold loadConfig. rewrite E. unfold mergeDefaults, member.
  rewrite !bind_ret_l. cbn [tryCatch ret]. eexists. split; [reflexivity|].
  cbn [ownProps]. repeat split.
  - intros k (N1 & N2 & N3).
    rewrite !getProp_setProp_other by assumption.
    apply getProp_spread_NoDup. exact N.
  - intros given G Ng. rewrite getProp_setProp_other by discriminate.
    rewrite getProp_setProp_other by discriminate.
    rewrite getProp_setProp. cbn [String.eqb Ascii.eqb Bool.eqb].
    eexists. split; [reflexivity|]. intros k. rewrite G. cbn [ownProps].
    apply getProp_spread_NoDup. exact Ng.
  - intros G. rewrite getProp_setProp_other by discriminate.
    rewrite getProp_setProp_other by discriminate.
    rewrite getProp_setProp. cbn [String.eqb Ascii.eqb Bool.eqb]. rewrite G. reflexivity.
  - intros given G Ng. rewrite getProp_setProp. cbn [String.eqb Ascii.eqb Bool.eqb].
    eexists. split; [reflexivity|]. intros k. rewrite G. cbn [ownProps].
    apply getProp_spread_NoDup. exact Ng.
  - intros G. rewrite getProp_setProp. cbn [String.eqb Ascii.eqb Bool.eqb].
    rewrite G. reflexivity.
  - rewrite getProp_setProp_other by discriminate.
    rewrite getProp_setProp. cbn [String.eqb Ascii.eqb Bool.eqb].
    destruct (getProp "viewports" o) as [v|]; [|reflexivity].
    destruct (truthy (Some v)); reflexivity.
Qed.

(** What [prepare] returned with. *)
Lemma prepare_returns args t st :
  prepare w args = (t, Returns st) ->
  exists loaded,
    config st = fst (applyOverrides args loaded)
    /\ hasExplicitReference st = snd (applyOverrides args loaded)
    /\ cacheValid st = isCacheValid w (config st)
    /\ (exists tv, validateConfig (config st) = (tv, Returns tt))
    /\ (truthyStr (CLIOptions.config args) = false -> loaded = DEFAULT_CONFIG).
Proof.
  unfold prepare. intros E.
  apply bind_returns in E as (t1 & loaded & t2 & Hl & E & _).
  exists loaded. destruct (applyOverrides args loaded) as [c explicit].
  apply bind_returns in E as (tv & [] & t3 & Hv & E & _).
  apply bind_returns in E as (? & [] & ? & _ & E & _).
  injection E as _ <-. cbn [config hasExplicitReference cacheValid fst snd].
  repeat split. { exists tv. exact Hv. }
  intros Hc. rewrite Hc in Hl. injection Hl as _ <-. reflexivity.
Qed.

(** X7.  What the rest of [main] can rely on once the configuration is
    prepared: the reference URL and the test URL parse (so the crawl's
    own parse of the reference cannot throw), there is a viewport, the
    cache verdict is the one of [isCacheValid] for the effective
    configuration, and with an implicit reference both phases are given
    the same URL. *)
Theorem prepare_establishes (args : CLIOptions.t) t (st : Prepared) :
  prepare w args = (t, Returns st) ->
  parseURL (toStringOpt (getProp "referenceUrl" (config st))) <> None
  /\ parseURL (toStringOpt (getProp "testUrl" (config st))) <> None
  /\ truthy (getProp "viewports" (config st)) = true
  /\ cacheValid st = isCacheValid w (config st)
  /\ (hasExplicitReference st = false ->
      getProp "referenceUrl" (config st) = getProp "testUrl" (config st))
  /\ (t = [] \/ t = [FsMkdir (snapshotDir w)]).
Proof.
  intros E. destruct (prepare_returns _ _ _ E) as (loaded & Hc & He & Hv & [tv Hval] & _).
  destruct (validateConfig_returns _ _ Hval) as (_ & _ & _ & Hr & Ht & Hvp & _).
  split; [exact Hr|]. split; [exact Ht|]. split; [exact Hvp|]. split; [exact Hv|].
  split.
  - intros Himp. rewrite Hc. rewrite He in Himp.
    exact (applyOverrides_implicit args loaded Himp).
  - unfold prepare in E.
    apply bind_returns in E as (t1 & loaded' & t2 & Hl & E & ->).
    assert (t1 = []) as ->.
    { destruct (truthyStr (CLIOptions.config args)).
      - pose proof (loadConfig_free w (fun _ => true)
                      (pathResolve w (textOf (CLIOptions.config args)))) as F.
        apply free_silent in F. rewrite Hl in F. exact F.
      - injection Hl as <- _. reflexivity. }
    destruct (applyOverrides args loaded') as [c explicit].
    apply bind_returns in E as (tv' & [] & t3 & Hv' & E & ->).
    destruct (validateConfig_returns _ _ Hv') as (-> & _).
    apply bind_returns in E as (tm & [] & t4 & Hm & E & ->).
    injection E as <- _. rewrite app_nil_r. cbn [app].
    destruct (negb (dirExists w snapshotsName)); injection Hm as <-; auto.
Qed.
End MergeFacts.

(** ** The runner *)

Section Entry_induction.
Variable P : Entry -> Prop.
Hypothesis HFile : forall name, P (FileEntry name).
Hypothesis HDir : forall name children, Forall P children -> P (DirEntry name children).

Fixpoint Entry_induction (entry : Entry) : P entry :=
  match entry with
  | FileEntry name => HFile name
  | DirEntry name children =>
      HDir name children
           ((fix all (l : list Entry) : Forall P l :=
               match l with
               | [] => Forall_nil _
               | e :: rest => Forall_cons e (Entry_induction e) (all rest)
               end) children)
  end.
End Entry_induction.

(** The names of the files below an entry, at any depth. *)
Fixpoint filesUnder (entry : Entry) : list string :=
  match entry with
  | FileEntry name => [name]
  | DirEntry _ children => flat_map filesUnder children
  end.

Lemma existsb_flat_map {A B} (p : B -> bool) (f : A -> list B) l :
  existsb p (flat_map f l) = existsb (fun x => existsb p (f x)) l.
Proof.
  induction l as [|x rest IH]; [reflexivity|].
  cbn [flat_map existsb]. rewrite existsb_app, IH. reflexivity.
Qed.

Lemma isSnapshotOrHoldsOne_files entry :
  isSnapshotOrHoldsOne entry = existsb (endsWith ".png") (filesUnder entry).
Proof.
  induction entry as [name|name children IH] using Entry_induction.
  - cbn [isSnapshotOrHoldsOne filesUnder existsb]. rewrite orb_false_r. reflexivity.
  - cbn [isSnapshotOrHoldsOne filesUnder]. rewrite existsb_flat_map.
    induction IH as [|e rest He _ IHrest]; [reflexivity|].
    cbn [existsb]. rewrite He, IHrest. reflexivity.
Qed.

(** X8.  [hasExistingSnapshots] answers true exactly when the snapshot
    directory exists and some file below it, at any depth, has a name
    that ends in .png; the names of directories do not count. *)
Theorem hasExistingSnapshots_iff_png_file (w : World) :
  hasExistingSnapshots w = true
  <-> dirExists w snapshotsName = true
      /\ exists name, In name (flat_map filesUnder (snapshotEntries w))
                      /\ endsWith ".png" name = true.
Proof.
  unfold hasExistingSnapshots, hasSnapshotFiles.
  destruct (dirExists w snapshotsName); cbn [negb].
  - rewrite <- existsb_exists, existsb_flat_map.
    assert (E : existsb isSnapshotOrHoldsOne (snapshotEntries w)
                = existsb (fun e => existsb (endsWith ".png") (filesUnder e))
                          (snapshotEntries w)).
    { induction (snapshotEntries w) as [|e rest IH]; [reflexivity|].
      cbn [existsb]. rewrite IH, isSnapshotOrHoldsOne_files. reflexivity. }
    rewrite E. tauto.
  - split; [discriminate|intros [N _]; discriminate].
Qed.

(** *** Reading the report *)

Lemma foldM_invariant {A B} (I : B -> Prop) (step : B -> A -> M B) :
  (forall b x t b', step b x = (t, Returns b') -> I b -> I b') ->
  forall l acc t b', foldM step l acc = (t, Returns b') -> I acc -> I b'.
Proof.
  intros Hstep. induction l as [|x rest IH]; intros acc t b' E Hacc; cbn [foldM] in E.
  - injection E as _ <-. exact Hacc.
  - destruct (bind_returns _ _ _ _ E) as (t1 & b1 & t2 & E1 & E2 & _).
    exact (IH _ _ _ E2 (Hstep _ _ _ _ E1 Hacc)).
Qed.

(** What the counters satisfy at every point of the two loops. *)
Definition counted (c : Z * Z * Z) : Prop :=
  let '(passed, failed, total) := c in
  (0 <= passed /\ 0 <= failed /\ passed + failed = total)%Z.

Lemma countSpec_counted acc spec t acc' :
  countSpec acc spec = (t, Returns acc') -> counted acc -> counted acc'.
Proof.
  destruct acc as [[p f] n]. unfold countSpec. intros E Hc.
  destruct (bind_returns _ _ _ _ E) as (t1 & ok & t2 & _ & E2 & _).
  destruct (truthy ok); injection E2 as _ <-; unfold counted in *; lia.
Qed.

Lemma countSuite_counted acc suite t acc' :
  countSuite acc suite = (t, Returns acc') -> counted acc -> counted acc'.
Proof.
  unfold countSuite. intros E Hc.
  destruct (bind_returns _ _ _ _ E) as (t1 & specs & t2 & _ & E2 & _).
  destruct specs as [v|]; [destruct (truthy (Some v))|].
  - destruct (bind_returns _ _ _ _ E2) as (t3 & l & t4 & _ & E4 & _).
    exact (foldM_invariant counted countSpec countSpec_counted _ _ _ _ E4 Hc).
  - injection E2 as _ <-. exact Hc.
  - injection E2 as _ <-. exact Hc.
Qed.

Lemma countSpec_noExit acc spec : noExit (countSpec acc spec).
Proof.
  destruct acc as [[p f] n]. unfold countSpec.
  apply noExit_bind; [destruct spec; cbn [member]; noExit_with fail|].
  intros ok. destruct (truthy ok); apply noExit_ret.
Qed.

Lemma member_noExit k v : noExit (member k v).
Proof. destruct v; cbn [member]; noExit_with fail. Qed.

Lemma iterate_noExit v : noExit (iterate v).
Proof. destruct v; cbn [iterate]; noExit_with fail. Qed.

Lemma countSuite_noExit acc suite : noExit (countSuite acc suite).
Proof.
  unfold countSuite.
  noExit_with ltac:(first [apply member_noExit | apply iterate_noExit
                          | apply countSpec_noExit]).
Qed.

(** The body of the try block of [parseResults]. *)
Definition readCounts (w : World) : M TestResults.t :=
  results <- match resultsFile w with
             | Missing => throw {| message := "ENOENT: no such file or directory";
                                   errno := Some "ENOENT" |}
             | Unreadable => throw (mkError "JSON Parse error")
             | Holds v => ret v
             end ;;
  suites <- member "suites" results ;;
  counts <- match suites with
            | Some v => if truthy suites
                        then (l <- iterate v ;; foldM countSuite l (0, 0, 0)%Z)
                        else ret (0, 0, 0)%Z
            | None => ret (0, 0, 0)%Z
            end ;;
  let '(passed, failed, total) := counts in
  ret {| TestResults.passed := passed; TestResults.failed := failed;
         TestResults.total := total; TestResults.exitCode := 0 |}.

Definition noCounts : TestResults.t :=
  {| TestResults.passed := 0; TestResults.failed := 0;
     TestResults.total := 0; TestResults.exitCode := 1 |}.

Lemma parseResults_readCounts w dir :
  parseResults w dir = tryCatch (readCounts w) (fun _ => ret noCounts).
Proof. reflexivity. Qed.

Lemma readCounts_noExit w : noExit (readCounts w).
Proof.
  unfold readCounts.
  noExit_with ltac:(first [apply member_noExit | apply iterate_noExit
                          | apply countSuite_noExit]).
Qed.

Lemma readCounts_counted w t r :
  readCounts w = (t, Returns r) ->
  counted (TestResults.passed r, TestResults.failed r, TestResults.total r)
  /\ TestResults.exitCode r = 0%Z.
Proof.
  unfold readCounts. intros E.
  destruct (bind_returns _ _ _ _ E) as (t1 & results & t2 & _ & E2 & _).
  destruct (bind_returns _ _ _ _ E2) as (t3 & suites & t4 & _ & E4 & _).
  destruct (bind_returns _ _ _ _ E4) as (t5 & c & t6 & E5 & E6 & _).
  assert (H0 : counted (0, 0, 0)%Z) by (unfold counted; lia).
  assert (Hc : counted c).
  { destruct suites as [v|]; [destruct (truthy (Some v))|].
    - destruct (bind_returns _ _ _ _ E5) as (t7 & l & t8 & _ & E8 & _).
      exact (foldM_invariant counted countSuite countSuite_counted _ _ _ _ E8 H0).
    - injection E5 as _ <-. exact H0.
    - injection E5 as _ <-. exact H0. }
  destruct c as [[p f] n]. injection E6 as _ <-.
  split; [exact Hc|reflexivity].
Qed.

(** [parseResults] always answers, without an event. *)
Lemma parseResults_returns w dir :
  exists r, parseResults w dir = ([], Returns r).
Proof.
  pose proof (parseResults_silent w dir) as Hs.
  pose proof (readCounts_noExit w) as Hx.
  rewrite parseResults_readCounts in *. unfold tryCatch in *.
  destruct (readCounts w) as [t [r|e|c]]; cbn [trace fst ret app] in *.
  - subst t. exists r. reflexivity.
  - exists noCounts. rewrite Hs. reflexivity.
  - exfalso. exact (Hx c eq_refl).
Qed.

(** X9.  [parseResults] never throws and never ends the process,
    whatever the report file holds (missing, not JSON, or any JSON
    value): it answers with counters that are non-negative and add up
    (passed + failed = total), and with exit code 0 or 1; exit code 1
    comes with all three counters at 0. *)
Theorem parseResults_always_answers (w : World) (dir : string) :
  exists r,
    parseResults w dir = ([], Returns r)
    /\ (0 <= TestResults.passed r)%Z /\ (0 <= TestResults.failed r)%Z
    /\ (TestResults.passed r + TestResults.failed r = TestResults.total r)%Z
    /\ (TestResults.exitCode r = 0%Z
        \/ TestResults.exitCode r = 1%Z /\ TestResults.total r = 0%Z).
Proof.
  destruct (parseResults_returns w dir) as [r E]. exists r. split; [exact E|].
  rewrite parseResults_readCounts in E. unfold tryCatch in E.
  destruct (readCounts w) as [t [r'|e|c]] eqn:R.
  - injection E as _ <-. destruct (readCounts_counted _ _ _ R) as [Hc H0].
    unfold counted in Hc. tauto.
  - cbn [ret app] in E. injection E as _ <-. cbn. lia.
  - discriminate.
Qed.

(** The report as the JSON reporter writes it: an object whose [suites]
    is an array of objects, each with an array of objects as [specs]
    (or none). *)
Definition isObject (v : JSON) : bool :=
  match v with JObj _ => true | _ => false end.

Definition specsOf (suite : JSON) : list JSON :=
  match suite with
  | JObj o => match getProp "specs" o with Some (JArr specs) => specs | _ => [] end
  | _ => []
  end.

Definition wellFormedSuite (suite : JSON) : bool :=
  match suite with
  | JObj o =>
      match getProp "specs" o with
      | Some (JArr specs) => forallb isObject specs
      | None => true
      | _ => false
      end
  | _ => false
  end.

Definition okOf (spec : JSON) : bool :=
  match spec with JObj o => truthy (getProp "ok" o) | _ => false end.

Definition tally (specs : list JSON) : Z * Z * Z :=
  (Z.of_nat (length (filter okOf specs)),
   Z.of_nat (length (filter (fun spec => negb (okOf spec)) specs)),
   Z.of_nat (length specs)).

Definition plus (a b : Z * Z * Z) : Z * Z * Z :=
  let '(p, f, n) := a in let '(p', f', n') := b in ((p + p')%Z, (f + f')%Z, (n + n')%Z).

Lemma counts_eq (a b c a' b' c' : Z) :
  a = a' -> b = b' -> c = c' -> @ret (Z * Z * Z) (a, b, c) = ret (a', b', c').
Proof. intros -> -> ->. reflexivity. Qed.

Lemma foldM_countSpec specs acc :
  forallb isObject specs = true ->
  foldM countSpec specs acc = ret (plus acc (tally specs)).
Proof.
  revert acc. induction specs as [|spec rest IH]; intros [[p f] n] Hw.
  - cbn. apply counts_eq; lia.
  - cbn [forallb] in Hw. apply andb_prop in Hw as [Hs Hrest].
    destruct spec as [| | | | |o]; try discriminate.
    cbn [foldM countSpec member]. rewrite bind_ret_l.
    unfold tally. cbn [filter okOf length].
    destruct (truthy (getProp "ok" o)); cbn [negb]; rewrite bind_ret_l, (IH _ Hrest);
      unfold plus, tally; cbn [length]; apply counts_eq; lia.
Qed.

Lemma tally_app a b : tally (a ++ b)%list = plus (tally a) (tally b).
Proof.
  unfold tally, plus. rewrite !filter_app, !length_app. f_equal; [f_equal|]; lia.
Qed.

Lemma plus_assoc a b c : plus (plus a b) c = plus a (plus b c).
Proof.
  destruct a as [[? ?] ?], b as [[? ?] ?], c as [[? ?] ?].
  unfold plus. f_equal; [f_equal|]; lia.
Qed.

Lemma plus_zero a : plus a (tally []) = a.
Proof. destruct a as [[? ?] ?]. unfold plus, tally. cbn. f_equal; [f_equal|]; lia. Qed.

Lemma foldM_countSuite suites acc :
  forallb wellFormedSuite suites = true ->
  foldM countSuite suites acc = ret (plus acc (tally (flat_map specsOf suites))).
Proof.
  revert acc. induction suites as [|suite rest IH]; intros acc Hw.
  - cbn [foldM flat_map]. rewrite plus_zero. reflexivity.
  - cbn [forallb] in Hw. apply andb_prop in Hw as [Hs Hrest].
    cbn [foldM flat_map]. rewrite tally_app, <- plus_assoc.
    destruct suite as [| | | | |o]; try discriminate.
    unfold countSuite at 1. cbn [member wellFormedSuite specsOf] in *.
    rewrite bind_ret_l.
    destruct (getProp "specs" o) as [[| | | |specs|]|]; try discriminate.
    + cbn [truthy iterate]. rewrite bind_ret_l, (foldM_countSpec _ _ Hs), bind_ret_l.
      apply IH. exact Hrest.
    + rewrite bind_ret_l, plus_zero. apply IH. exact Hrest.
Qed.

Lemma foldM_countSuite_null suites acc t r :
  In JNull suites -> foldM countSuite suites acc <> (t, Returns r).
Proof.
  revert acc t. induction suites as [|suite rest IH]; intros acc t [].
  - subst suite. cbn [foldM]. unfold countSuite at 1. cbn [member].
    unfold bind, throw. discriminate.
  - cbn [foldM]. intros E.
    destruct (bind_returns _ _ _ _ E) as (t1 & b1 & t2 & _ & E2 & _).
    exact (IH _ _ H E2).
Qed.

(** X10.  On a report of the reporter's shape (an object whose [suites]
    is an array of objects, each with an array of objects as [specs] or
    none) [parseResults] counts the specs that stand directly in the
    top-level suites: total is their number, passed the number of those
    with a truthy [ok], failed the rest, exit code 0.  Suites nested in
    a suite are not descended into.  A null entry among the suites
    makes it drop every count: the answer is 0, 0, 0 with exit code 1. *)
Theorem parseResults_counts_top_level_specs (w : World) (dir : string)
    (report : object) (suites : list JSON) :
  resultsFile w = Holds (JObj report) ->
  getProp "suites" report = Some (JArr suites) ->
  (forallb wellFormedSuite suites = true ->
   let specs := flat_map specsOf suites in
   parseResults w dir
   = ([], Returns {| TestResults.passed := Z.of_nat (length (filter okOf specs));
                     TestResults.failed :=
                       Z.of_nat (length (filter (fun spec => negb (okOf spec)) specs));
                     TestResults.total := Z.of_nat (length specs);
                     TestResults.exitCode := 0 |}))
  /\ (In JNull suites -> parseResults w dir = ([], Returns noCounts)).
Proof.
  intros Hfile Hsuites. split.
  - intros Hw. cbv zeta. rewrite parseResults_readCounts. unfold readCounts.
    rewrite Hfile, bind_ret_l. cbn [member]. rewrite bind_ret_l, Hsuites.
    cbn [truthy iterate]. rewrite bind_ret_l, (foldM_countSuite _ _ Hw), bind_ret_l.
    reflexivity.
  - intros Hnull. destruct (parseResults_returns w dir) as [r E]. rewrite E.
    rewrite parseResults_readCounts in E. unfold tryCatch in E.
    pose proof (readCounts_noExit w) as Hx.
    destruct (readCounts w) as [t [r'|e|c]] eqn:R.
    + exfalso. unfold readCounts in R. rewrite Hfile, bind_ret_l in R.
      cbn [member] in R. rewrite bind_ret_l, Hsuites in R. cbn [truthy iterate] in R.
      rewrite bind_ret_l in R.
      destruct (bind_returns _ _ _ _ R) as (t1 & c & t2 & E1 & _).
      exact (foldM_countSuite_null _ _ _ _ Hnull E1).
    + cbn [ret app] in E. injection E as _ <-. reflexivity.
    + exfalso. exact (Hx c eq_refl).
Qed.

(** *** The two phases *)

(** The engine call of the baseline phase. *)
Definition baselineRun (w : World) (options : RunnerOptions.t) : PlaywrightRunOptions :=
  {| configPath := pathJoin (packageDir w) "playwright.config.js";
     baseURL := toStringOpt (getProp "referenceUrl" (RunnerOptions.config options));
     vrtConfig := RunnerOptions.config options;
     outputDir := RunnerOptions.outputDir options;
     updateSnapshots := true;
     verbose := true;
     project := RunnerOptions.project options;
     headed := RunnerOptions.headed options |}.

(** [code || 0] on the status of the 'close' event. *)
Definition statusOf (reply : EngineReply) : Z :=
  match reply with
  | Closed (Some code) => code
  | _ => 0%Z
  end.

Lemma runPlaywright_value w options :
  runPlaywright w options
  = ([Spawn options],
     match engine w (updateSnapshots options) with
     | SpawnFails msg => Throws (mkError ("Failed to run Playwright: " ++ msg))
     | Closed code =>
         Returns (if updateSnapshots options then 0%Z else statusOf (Closed code))
     end).
Proof.
  unfold runPlaywright.
  destruct (engine w (updateSnapshots options)) as [msg|[code|]];
    destruct (updateSnapshots options); reflexivity.
Qed.

(** X11.  The two phases of [runVisualTests].  The baseline phase runs
    when an update is asked for or no baseline image is on disk, and it
    runs before the comparison; the two engine calls are given the same
    config file, configuration, output directory, project and headed
    flag and differ in the target and the mode only.  An engine that
    cannot be started ends the run with "Failed to run Playwright", in
    the baseline phase before any comparison is started; the status the
    engine exits with in the baseline phase is dropped; the status of
    the comparison becomes the exit code of the result, in place of the
    one [parseResults] set, and the counters are those of
    [parseResults]. *)
Theorem runVisualTests_two_phases (w : World) (options : RunnerOptions.t) :
  let base := baselineRun w options in
  let cmp := comparisonRun w options in
  let skip := negb (RunnerOptions.updateBaseline options) && hasExistingSnapshots w in
  (configPath base = configPath cmp /\ vrtConfig base = vrtConfig cmp
   /\ outputDir base = outputDir cmp /\ project base = project cmp
   /\ headed base = headed cmp /\ verbose base = verbose cmp)
  /\ trace (runVisualTests w options)
     = (if skip then [Spawn cmp]
        else match engine w true with
             | SpawnFails _ => [Spawn base]
             | Closed _ => [Spawn base; Spawn cmp]
             end)
  /\ (forall msg, skip = false -> engine w true = SpawnFails msg ->
        outcome (runVisualTests w options)
        = Throws (mkError ("Failed to run Playwright: " ++ msg)))
  /\ (forall msg, engine w false = SpawnFails msg ->
        (skip = true \/ exists code, engine w true = Closed code) ->
        outcome (runVisualTests w options)
        = Throws (mkError ("Failed to run Playwright: " ++ msg)))
  /\ (forall code, engine w false = Closed code ->
        (skip = true \/ exists code', engine w true = Closed code') ->
        exists counts,
          parseResults w (RunnerOptions.outputDir options) = ([], Returns counts)
          /\ outcome (runVisualTests w options)
             = Returns {| TestResults.passed := TestResults.passed counts;
                          TestResults.failed := TestResults.failed counts;
                          TestResults.total := TestResults.total counts;
                          TestResults.exitCode := statusOf (Closed code) |}).
Proof.
  cbv zeta. split; [repeat split|].
  unfold runVisualTests. fold (baselineRun w options) (comparisonRun w options).
  rewrite !runPlaywright_value. cbn [updateSnapshots baselineRun comparisonRun].
  destruct (parseResults_returns w (RunnerOptions.outputDir options)) as [counts E].
  rewrite E.
  destruct (negb (RunnerOptions.updateBaseline options) && hasExistingSnapshots w);
    destruct (engine w true) as [msgb|codeb]; destruct (engine w false) as [msgc|codec];
    cbn; repeat split; try discriminate;
    try (intros ? [= <-]; intros; reflexivity);
    try (intros ? ? [= <-]; reflexivity);
    try (intros ? ? [?|[? ?]]; discriminate);
    try (intros ? [= <-] ?; exists counts; split; reflexivity).
Qed.

(** ** The command line *)

(** The arguments that end [parseArgs] when the loop reaches them. *)
Definition stops (arg : string) : bool :=
  String.eqb arg "--clean" || String.eqb arg "--help" || String.eqb arg "-h".

(** What [--clean] may remove. *)
Definition cleaned (w : World) (e : Event) : Prop :=
  exists dir, In dir ["playwright-snapshots"; "playwright-report"; "playwright-tmp"]
              /\ dirExists w dir = true /\ e = FsRemove (pathResolve w dir).

Lemma clean_value w :
  exists t, clean w = (t, Returns tt) /\ Forall (cleaned w) t.
Proof.
  unfold clean.
  assert (G : forall dirs,
             (forall dir, In dir dirs ->
                          In dir ["playwright-snapshots"; "playwright-report";
                                  "playwright-tmp"]) ->
             exists t,
               forEach (fun dir => if dirExists w dir
                                   then emit (FsRemove (pathResolve w dir)) else ret tt)
                       dirs = (t, Returns tt)
               /\ Forall (cleaned w) t).
  { induction dirs as [|dir rest IH]; intros Hin.
    - exists []. split; [reflexivity|constructor].
    - destruct IH as (t & E & Ht); [intros d Hd; apply Hin; right; exact Hd|].
      cbn [forEach]. rewrite E.
      destruct (dirExists w dir) eqn:D.
      + exists (FsRemove (pathResolve w dir) :: t). split; [reflexivity|].
        constructor; [|exact Ht]. exists dir. repeat split; [apply Hin; left; reflexivity|exact D].
      + exists t. split; [reflexivity|exact Ht]. }
  apply G. intros dir Hd. exact Hd.
Qed.

(** Either the loop returns without an event, or it stops at [--clean],
    [--help] or [-h] with status 0. *)
Lemma parseArgsFrom_outcomes w rest args :
  (exists args', parseArgsFrom w rest args = ([], Returns args'))
  \/ (exists t, parseArgsFrom w rest args = (t, Exits 0%Z) /\ Forall (cleaned w) t
                /\ existsb stops rest = true).
Proof.
  remember (length rest) as n eqn:Hn.
  revert rest args Hn.
  induction n as [n IH] using lt_wf_ind. intros rest args Hn.
  destruct rest as [|arg after]; [left; exists args; reflexivity|].
  assert (Hafter : forall args0,
             (exists args', parseArgsFrom w after args0 = ([], Returns args'))
             \/ (exists t, parseArgsFrom w after args0 = (t, Exits 0%Z)
                           /\ Forall (cleaned w) t
                           /\ existsb stops (arg :: after) = true)).
  { intros args0.
    destruct (IH (length after)) with (rest := after) (args := args0)
      as [R|(t & E & Ht & Hs)]; [subst n; cbn; lia|reflexivity|left; exact R|].
    right. exists t. cbn [existsb]. rewrite Hs, orb_true_r. auto. }
  assert (Hskip : forall set : option string -> CLIOptions.t -> CLIOptions.t,
             (exists args', match after with
                            | [] => ret (set (hd_error after) args)
                            | _ :: after' =>
                                parseArgsFrom w after' (set (hd_error after) args)
                            end = ([], Returns args'))
             \/ (exists t, match after with
                           | [] => ret (set (hd_error after) args)
                           | _ :: after' =>
                               parseArgsFrom w after' (set (hd_error after) args)
                           end = (t, Exits 0%Z)
                           /\ Forall (cleaned w) t
                           /\ existsb stops (arg :: after) = true)).
  { intros set. destruct after as [|value after'].
    - left. eexists. reflexivity.
    - destruct (IH (length after')) with (rest := after')
                                         (args := set (hd_error (value :: after')) args)
        as [R|(t & E & Ht & Hs)]; [subst n; cbn; lia|reflexivity|left; exact R|].
      right. exists t. cbn [existsb]. rewrite Hs, !orb_true_r. auto. }
  cbn [parseArgsFrom].
  destruct (String.eqb arg "--reference"); [apply Hskip|].
  destruct (String.eqb arg "--test"); [apply Hskip|].
  destruct (String.eqb arg "--config"); [apply Hskip|].
  destruct (String.eqb arg "--output"); [apply Hskip|].
  destruct (String.eqb arg "--max-urls");
    [apply (Hskip (fun n => withMaxUrls (Some (parseInt10 n))))|].
  destruct (String.eqb arg "--project"); [apply Hskip|].
  destruct (String.eqb arg "--verbose"); [apply Hafter|].
  destruct (String.eqb arg "--headed"); [apply Hafter|].
  destruct (String.eqb arg "--update-baseline"); [apply Hafter|].
  destruct (String.eqb arg "--clean") eqn:C.
  { right. destruct (clean_value w) as (t & E & Ht). exists t. rewrite E.
    cbn [existsb]. unfold stops at 1. rewrite C. cbn. rewrite app_nil_r. auto. }
  destruct (String.eqb arg "--help" || String.eqb arg "-h") eqn:Hh.
  { right. exists []. cbn [existsb]. unfold stops at 1. rewrite C.
    cbn [orb]. rewrite Hh. cbn. auto. }
  apply Hafter.
Qed.


(** ** How an invocation ends *)

Section ExitFacts.
Context `{Platform}.
Variable w : World.

Lemma newURL_noExit s : noExit (newURL s).
Proof. unfold newURL. noExit_with fail. Qed.

Lemma isMatch_noExit str patterns : noExit (isMatch str patterns).
Proof. unfold isMatch. noExit_with fail. Qed.

Lemma attempt_noExit e err : noExit (attempt e err).
Proof. unfold attempt. noExit_with fail. Qed.

Lemma loadConfig_noExit path : noExit (loadConfig w path).
Proof. unfold loadConfig, mergeDefaults. noExit_with ltac:(apply member_noExit). Qed.

Lemma validateViewport_noExit vp : noExit (validateViewport vp).
Proof. unfold validateViewport. noExit_with ltac:(apply member_noExit). Qed.

Lemma validateConfig_noExit config : noExit (validateConfig config).
Proof.
  unfold validateConfig.
  noExit_with ltac:(first [apply newURL_noExit | apply iterate_noExit
                          | apply validateViewport_noExit]).
Qed.

Lemma prepare_noExit args : noExit (prepare w args).
Proof.
  unfold prepare.
  noExit_with ltac:(first [apply loadConfig_noExit | apply validateConfig_noExit]).
Qed.

Lemma collectFromSitemap_noExit baseUrl sitemapPath :
  noExit (collectFromSitemap w baseUrl sitemapPath).
Proof. unfold collectFromSitemap. noExit_with fail. Qed.

Lemma crawlWebsite_noExit baseUrl options : noExit (crawlWebsite w baseUrl options).
Proof.
  unfold crawlWebsite.
  noExit_with ltac:(first [apply newURL_noExit | apply attempt_noExit
                          | solve [intros code; discriminate]]).
Qed.

Lemma keepURL_noExit baseUrl include exclude url :
  noExit (keepURL baseUrl include exclude url).
Proof.
  unfold keepURL.
  noExit_with ltac:(first [apply newURL_noExit | apply isMatch_noExit]).
Qed.

Lemma filterURLs_noExit urls baseUrl include exclude :
  noExit (filterURLs urls baseUrl include exclude).
Proof.
  induction urls as [|url rest IH]; cbn [filterURLs].
  - apply noExit_ret.
  - noExit_with ltac:(first [apply keepURL_noExit | exact IH]).
Qed.

Lemma collectURLs_noExit config : noExit (collectURLs w config).
Proof.
  unfold collectURLs, discover.
  noExit_with ltac:(first [apply collectFromSitemap_noExit | apply crawlWebsite_noExit
                          | apply filterURLs_noExit]).
Qed.

(** A run of [runVisualTests] that returns has started the comparison;
    no run of it ends the process. *)
Lemma runVisualTests_ends options :
  match outcome (runVisualTests w options) with
  | Returns _ => In (Spawn (comparisonRun w options)) (trace (runVisualTests w options))
  | Throws _ => True
  | Exits _ => False
  end.
Proof.
  unfold runVisualTests. fold (baselineRun w options) (comparisonRun w options).
  rewrite !runPlaywright_value. cbn [updateSnapshots baselineRun comparisonRun].
  destruct (parseResults_returns w (RunnerOptions.outputDir options)) as [counts E].
  rewrite E.
  destruct (negb (RunnerOptions.updateBaseline options) && hasExistingSnapshots w);
    destruct (engine w true) as [msgb|codeb]; destruct (engine w false) as [msgc|codec];
    cbn; auto.
Qed.

(** The comparison was started. *)
Definition compared (t : list Event) : Prop :=
  exists options, In (Spawn options) t /\ updateSnapshots options = false.

(** How the body of [main] may end: with an error, with status 2, or
    with status 0 or 1 after a comparison. *)
Definition verdict {A} (m : M A) : Prop :=
  match outcome m with
  | Returns _ => False
  | Throws _ => True
  | Exits code => code = 2%Z \/ ((code = 0%Z \/ code = 1%Z) /\ compared (trace m))
  end.

Lemma verdict_bind {A B} (m : M A) (k : A -> M B) :
  noExit m -> (forall a, verdict (k a)) -> verdict (bind m k).
Proof.
  unfold verdict, noExit, bind, outcome, trace. intros Hm Hk.
  destruct m as [t [a|err|c]]; cbn [fst snd] in *.
  - specialize (Hk a). destruct (k a) as [t' [b|err|c]]; cbn [fst snd] in *; auto.
    destruct Hk as [Hk|[Hc (o & Ho & Hu)]]; [left; exact Hk|right].
    split; [exact Hc|]. exists o. split; [apply in_or_app; right; exact Ho|exact Hu].
  - exact I.
  - exfalso. exact (Hm c eq_refl).
Qed.

Lemma verdict_throw {A} err : verdict (@throw A err).
Proof. exact I. Qed.

Lemma isEmptyList_noExit urls : noExit (isEmptyList urls).
Proof. unfold isEmptyList. noExit_with fail. Qed.

Lemma proceed_verdict args st : verdict (proceed w args st).
Proof.
  unfold proceed.
  apply verdict_bind.
  { noExit_with ltac:(first [apply collectURLs_noExit
                            | unfold saveCacheHashes; apply noExit_emit]). }
  intros urls. apply verdict_bind; [apply isEmptyList_noExit|].
  intros [|]; [apply verdict_throw|].
  apply verdict_bind; [noExit_with fail|]. intros _.
  match goal with |- verdict (bind (runVisualTests w ?o) _) => set (options := o) end.
  pose proof (runVisualTests_ends options) as Hr.
  unfold verdict, bind, outcome, trace in *.
  destruct (runVisualTests w options) as [t [r|err|c]]; cbn [fst snd] in *.
  - right. split; [destruct (0 <? TestResults.failed r)%Z; auto|].
    exists (comparisonRun w options). split; [apply in_or_app; left; exact Hr|reflexivity].
  - exact I.
  - contradiction.
Qed.

Lemma refuse_verdict : verdict refuse.
Proof. left. reflexivity. Qed.

End ExitFacts.

(** ** The URL list *)

Section ListFacts.
Context `{Platform}.
Variable w : World.

(** A callback that returns has parsed both URLs and raised no event;
    its answer is [decides]. *)
Lemma keepURL_returns baseUrl include exclude url t keep :
  keepURL baseUrl include exclude url = (t, Returns keep) ->
  t = [] /\ exists u b, parseURL url = Some u /\ parseURL baseUrl = Some b
                        /\ keep = decides b include exclude u.
Proof.
  unfold keepURL, newURL, decides, pathOf.
  destruct (parseURL url) as [u|]; [|discriminate]. rewrite bind_ret_l.
  destruct (parseURL baseUrl) as [b|]; [|discriminate]. rewrite bind_ret_l.
  intros E.
  assert (G : t = [] /\ keep = String.eqb (hostname u) (hostname b)
                                && negb (existsb (fun glob => matchGlob glob
                                                    (pathname u ++ search u)) exclude)
                                && match include with
                                   | [] => true
                                   | _ => existsb (fun glob => matchGlob glob
                                                     (pathname u ++ search u)) include
                                   end).
  { destruct (String.eqb (hostname u) (hostname b)); cbn [negb andb] in *.
    2:{ injection E as <- <-. auto. }
    destruct exclude as [|g gs].
    - rewrite bind_ret_l in E. cbn [existsb negb andb].
      destruct include as [|i others]; [injection E as <- <-; auto|].
      unfold isMatch in E. destruct (existsb (String.eqb "") (i :: others)); [discriminate|].
      injection E as <- <-. auto.
    - unfold isMatch in E at 1.
      destruct (existsb (String.eqb "") (g :: gs)); [discriminate|].
      rewrite bind_ret_l in E.
      destruct (existsb (fun glob => matchGlob glob (pathname u ++ search u)) (g :: gs));
        cbn [negb andb]; [injection E as <- <-; auto|].
      destruct include as [|i others]; [injection E as <- <-; auto|].
      unfold isMatch in E. destruct (existsb (String.eqb "") (i :: others)); [discriminate|].
      injection E as <- <-. auto. }
  destruct G as [-> ->]. split; [reflexivity|]. exists u, b. auto.
Qed.

Lemma keepURL_unparsable baseUrl include exclude url :
  parseURL url = None ->
  keepURL baseUrl include exclude url = throw (mkError "Invalid URL").
Proof. unfold keepURL, newURL. intros ->. reflexivity. Qed.

(** What the callback answers for a URL, given the parsed reference. *)
Definition kept (b : URL) (include exclude : list string) (url : string) : bool :=
  match parseURL url with
  | Some u => decides b include exclude u
  | None => false
  end.

(** X14.  A call of [filterURLs] that returns has raised no event and
    has parsed every URL of its input; what it returns is the input
    filtered, in the input's order, by: same host name as the reference,
    no exclude pattern matches the path with the query, and some include
    pattern matches it when there is an include pattern.  Every URL it
    returns is one of the input, on the host of the reference. *)
Theorem filterURLs_returns_same_host_sublist
    (urls : list string) (baseUrl : string) (include exclude : list string)
    (t : list Event) (out : list string) :
  filterURLs urls baseUrl include exclude = (t, Returns out) ->
  t = []
  /\ Forall (fun url => parseURL url <> None) urls
  /\ (forall b, parseURL baseUrl = Some b -> out = filter (kept b include exclude) urls)
  /\ (forall url, In url out ->
        In url urls
        /\ exists u b, parseURL url = Some u /\ parseURL baseUrl = Some b
                       /\ hostname u = hostname b).
Proof.
  revert t out. induction urls as [|url rest IH]; intros t out E; cbn [filterURLs] in E.
  - injection E as <- <-. repeat split; [constructor|contradiction|contradiction].
  - destruct (bind_returns _ _ _ _ E) as (t1 & keep & t2 & Hk & E2 & ->).
    destruct (bind_returns _ _ _ _ E2) as (t3 & rest' & t4 & Hr & E4 & ->).
    injection E4 as <- <-.
    destruct (keepURL_returns _ _ _ _ _ _ Hk) as (-> & u & b & Pu & Pb & ->).
    destruct (IH _ _ Hr) as (-> & Hall & Hout & Hin).
    split; [reflexivity|]. split; [constructor; [congruence|exact Hall]|]. split.
    + intros b' Pb'. assert (b' = b) by congruence. subst b'.
      cbn [filter]. unfold kept at 1. rewrite Pu, <- (Hout b Pb). reflexivity.
    + intros x Hx.
      destruct (decides b include exclude u) eqn:D.
      * destruct Hx as [<-|Hx].
        -- split; [left; reflexivity|]. exists u, b. repeat split; try assumption.
           unfold decides in D. apply andb_prop in D as [D _]. apply andb_prop in D as [D _].
           apply String.eqb_eq. exact D.
        -- destruct (Hin x Hx) as [Hx' Hhost]. split; [right; exact Hx'|exact Hhost].
      * destruct (Hin x Hx) as [Hx' Hhost]. split; [right; exact Hx'|exact Hhost].
Qed.

Lemma filterURLs_unparsable urls baseUrl include exclude url :
  In url urls -> parseURL url = None ->
  exists t err, filterURLs urls baseUrl include exclude = (t, Throws err).
Proof.
  intros Hin Hu. induction urls as [|x rest IH]; [destruct Hin|].
  cbn [filterURLs].
  pose proof (keepURL_noExit baseUrl include exclude x) as Hx.
  destruct (keepURL baseUrl include exclude x) as [t [keep|err|c]] eqn:K.
  - destruct Hin as [->|Hin].
    + rewrite (keepURL_unparsable _ _ _ _ Hu) in K. discriminate.
    + destruct (IH Hin) as (t' & err & E). rewrite E. eexists _, err. reflexivity.
  - exists t, err. reflexivity.
  - exfalso. exact (Hx c eq_refl).
Qed.
End ListFacts.

(** ** The crawl *)

Section CrawlFacts.
Context `{Platform}.
Variable w : World.

Lemma setAdd_NoDup seen x : NoDup seen -> NoDup (setAdd seen x).
Proof.
  intros Hs. unfold setAdd. destruct (existsb (String.eqb x) seen) eqn:E; [exact Hs|].
  apply NoDup_app; [exact Hs|constructor; [intros []|constructor]|].
  intros a Ha [E'|[]]. subst a.
  assert (N : existsb (String.eqb x) seen = true).
  { apply existsb_exists. exists x. split; [exact Ha|apply String.eqb_refl]. }
  rewrite N in E. discriminate.
Qed.

Lemma setAdd_cases seen x y : In y (setAdd seen x) -> In y seen \/ y = x.
Proof.
  unfold setAdd. destruct (existsb (String.eqb x) seen); [auto|].
  intros Hy. apply in_app_or in Hy as [Hy|[<-|[]]]; auto.
Qed.

(** Where an entry that [addLink] put into the set comes from. *)
Definition fromLink (baseUrl : string) (b : URL) (link url : string) : Prop :=
  exists linkUrl,
    parseURL link = Some linkUrl
    /\ hostname linkUrl = hostname b
    /\ (url = href (clearHash linkUrl)
        \/ url = dropLast (href (clearHash linkUrl))
           /\ endsWith "/" (href (clearHash linkUrl)) = true
           /\ href (clearHash linkUrl) <> baseUrl ++ "/").

Lemma addLink_cases baseUrl b slash urls link url :
  In url (addLink baseUrl b slash urls link) ->
  In url urls \/ fromLink baseUrl b link url.
Proof.
  unfold addLink, fromLink. destruct (parseURL link) as [linkUrl|]; [|auto].
  destruct (String.eqb (hostname linkUrl) (hostname b)) eqn:Hh; [|auto].
  apply String.eqb_eq in Hh.
  destruct slash.
  - destruct (endsWith "/" (href (clearHash linkUrl))) eqn:Hs; cbn [andb].
    + destruct (String.eqb (href (clearHash linkUrl)) (baseUrl ++ "/")) eqn:Hr; cbn [negb].
      * intros Hu. apply setAdd_cases in Hu as [Hu| ->]; [auto|].
        right. exists linkUrl. repeat split; auto.
      * intros Hu. apply setAdd_cases in Hu as [Hu| ->]; [auto|].
        right. exists linkUrl. apply String.eqb_neq in Hr.
        split; [reflexivity|]. split; [exact Hh|]. right. repeat split; assumption.
    + intros Hu. apply setAdd_cases in Hu as [Hu| ->]; [auto|].
      right. exists linkUrl. repeat split; auto.
  - intros Hu. apply setAdd_cases in Hu as [Hu| ->]; [auto|].
    right. exists linkUrl. repeat split; auto.
Qed.

Lemma addLink_NoDup baseUrl b slash urls link :
  NoDup urls -> NoDup (addLink baseUrl b slash urls link).
Proof.
  intros Hn. unfold addLink. destruct (parseURL link); [|exact Hn].
  destruct (String.eqb _ _); [|exact Hn].
  destruct slash; apply setAdd_NoDup; exact Hn.
Qed.

Lemma addLinks_NoDup baseUrl b slash links urls :
  NoDup urls -> NoDup (fold_left (addLink baseUrl b slash) links urls).
Proof.
  revert urls. induction links as [|link rest IH]; intros urls Hn; cbn [fold_left].
  - exact Hn.
  - apply IH, addLink_NoDup, Hn.
Qed.

Lemma addLinks_cases baseUrl b slash links urls url :
  In url (fold_left (addLink baseUrl b slash) links urls) ->
  In url urls \/ exists link, In link links /\ fromLink baseUrl b link url.
Proof.
  revert urls. induction links as [|link rest IH]; intros urls Hu; cbn [fold_left] in Hu.
  - auto.
  - apply IH in Hu as [Hu|(l & Hl & Hf)].
    + apply addLink_cases in Hu as [Hu|Hf]; [auto|].
      right. exists link. split; [left; reflexivity|exact Hf].
    + right. exists l. split; [right; exact Hl|exact Hf].
Qed.

(** X15.  What a crawl that returns has found.  The browser started,
    gave a page and closed, and the reference URL parsed.  The list is
    not empty and holds no URL twice.  Each entry is the address the
    page reported after the navigation, or the reference URL as given
    (only after an error in the try block), or comes from a link of the
    page that parses and has the reference's host name: the link
    without its fragment, or that with the final slash removed (only
    under removeTrailingSlash, and never for the reference URL followed
    by a slash).  A link that does not parse or points to another host
    contributes nothing. *)
Theorem crawlWebsite_result (baseUrl : string) (options : option JSON)
    (t : list Event) (urls : list string) :
  crawlWebsite w baseUrl options = (t, Returns urls) ->
  exists b,
    parseURL baseUrl = Some b
    /\ launchError (browser w) = None /\ newPageError (browser w) = None
    /\ closeError (browser w) = None
    /\ urls <> [] /\ NoDup urls
    /\ (forall url, In url urls ->
          (url = pageUrl (browser w) /\ gotoError (browser w) = None)
          \/ (url = baseUrl
              /\ (gotoError (browser w) <> None \/ anchors (browser w) = None))
          \/ exists links link,
               gotoError (browser w) = None
               /\ anchors (browser w) = Some links /\ In link links
               /\ fromLink baseUrl b link url).
Proof.
  unfold crawlWebsite, attempt, newURL, visitHomepage.
  destruct (launchError (browser w)) as [msg|]; [discriminate|].
  destruct (newPageError (browser w)) as [msg|]; [discriminate|].
  destruct (parseURL baseUrl) as [b|]; [|discriminate].
  destruct (closeError (browser w)) as [msg|].
  { destruct (gotoError (browser w)); [|destruct (anchors (browser w))]; discriminate. }
  intros E. exists b. do 4 (split; [reflexivity|]).
  destruct (gotoError (browser w)) as [msg|].
  - cbn in E. injection E as _ <-. split; [discriminate|].
    split; [constructor; [intros []|constructor]|].
    intros url [<-|[]]. right. left. split; [reflexivity|left; discriminate].
  - destruct (anchors (browser w)) as [links|].
    + cbn -[setAdd] in E. injection E as _ <-.
      split; [apply addLink_nonempty, setAdd_nonempty|].
      split; [apply addLinks_NoDup, setAdd_NoDup; constructor|].
      intros url Hu. apply addLinks_cases in Hu as [Hu|(link & Hl & Hf)].
      * apply setAdd_cases in Hu as [[]| ->]. left. auto.
      * right. right. exists links, link. auto.
    + cbn -[setAdd] in E. injection E as _ <-.
      split; [apply setAdd_nonempty|].
      split; [apply setAdd_NoDup, setAdd_NoDup; constructor|].
      intros url Hu. apply setAdd_cases in Hu as [Hu| ->].
      * apply setAdd_cases in Hu as [[]| ->]. left. auto.
      * right. left. auto.
Qed.

(** X16.  The browser of the crawl.  [crawlWebsite] starts the browser
    first; it closes it exactly when the page was created and the
    reference URL parsed, and then closing is the last thing it does,
    also when loading the page or reading the links failed.  When
    [newPage] fails, or the reference URL does not parse, the browser
    that was started is not closed. *)
Theorem crawlWebsite_closes_iff_page_created (baseUrl : string) (options : option JSON) :
  let t := trace (crawlWebsite w baseUrl options) in
  (exists rest, t = BrowserLaunch :: rest)
  /\ (In BrowserClose t
      <-> launchError (browser w) = None /\ newPageError (browser w) = None
          /\ parseURL baseUrl <> None)
  /\ (In BrowserClose t -> exists before, t = (before ++ [BrowserClose])%list
                                         /\ ~ In BrowserClose before).
Proof.
  cbv zeta. unfold crawlWebsite, attempt, newURL, visitHomepage.
  destruct (launchError (browser w)) as [m1|].
  { cbn. split; [eexists; reflexivity|]. split.
    - split; [intros [N|[]]; discriminate|intros [N _]; discriminate].
    - intros [N|[]]; discriminate. }
  destruct (newPageError (browser w)) as [m2|].
  { cbn. split; [eexists; reflexivity|]. split.
    - split; [intros [N|[N|[]]]; discriminate|intros (_ & N & _); discriminate].
    - intros [N|[N|[]]]; discriminate. }
  destruct (parseURL baseUrl) as [b|].
  2:{ cbn. split; [eexists; reflexivity|]. split.
      - split; [intros [N|[N|[]]]; discriminate|intros (_ & _ & N); contradiction].
      - intros [N|[N|[]]]; discriminate. }
  destruct (gotoError (browser w)) as [m3|];
    [|destruct (anchors (browser w)) as [links|]];
    destruct (closeError (browser w)) as [m4|]; cbn;
    (split; [eexists; reflexivity|]);
    (split; [split; [intros _; repeat split; discriminate
                    |intros _; repeat (first [left; reflexivity|right])]|]);
    intros _;
    match goal with
    | |- exists before, ?l = _ /\ _ =>
        exists (removelast l); split; [reflexivity|cbn; intuition discriminate]
    end.
Qed.
End CrawlFacts.

(** ** What [collectURLs] returns *)

Section CollectResultFacts.
Context `{Platform}.
Variable w : World.

Lemma firstOccurrences_length l : length (firstOccurrences l) <= length l.
Proof.
  induction l as [|x rest IH]; cbn [firstOccurrences length]; [lia|].
  pose proof (filter_length_le (fun y => negb (String.eqb y x)) (firstOccurrences rest)).
  lia.
Qed.

Lemma In_firstn {A} (n : nat) (l : list A) x : In x (firstn n l) -> In x l.
Proof.
  intros Hx. rewrite <- (firstn_skipn n l). apply in_or_app. left. exact Hx.
Qed.

Lemma NoDup_firstn {A} (n : nat) (l : list A) : NoDup l -> NoDup (firstn n l).
Proof.
  intros Hn. rewrite <- (firstn_skipn n l) in Hn. exact (NoDup_app_remove_r _ _ Hn).
Qed.

Lemma slice0_length {A} (l : list A) (e : Z) :
  length (slice0 l e) <= length l
  /\ ((0 <= e)%Z -> (Z.of_nat (length (slice0 l e)) <= e)%Z).
Proof.
  unfold slice0. rewrite length_firstn. split; [lia|].
  intros He. destruct (e <? 0)%Z eqn:E; [apply Z.ltb_lt in E; lia|]. lia.
Qed.

(** A call of [collectURLs] that returns went through a discovery and a
    filter that returned. *)
Lemma collectURLs_returns config t r :
  collectURLs w config = (t, Returns r) ->
  exists t1 found out,
    discover w config = (t1, Returns found)
    /\ filterURLs (fst found) (referenceOf config) (includeOf config) (excludeOf config)
       = ([], Returns out)
    /\ t = t1
    /\ r = {| URLCollectionResult.urls := slice0 (setOf out) (maxUrlsOf config);
              URLCollectionResult.source := snd found;
              URLCollectionResult.total := length (fst found);
              URLCollectionResult.filtered := length (setOf out) |}.
Proof.
  unfold collectURLs. fold (referenceOf config). intros E.
  destruct (bind_returns _ _ _ _ E) as (t1 & found & t2 & Hd & E2 & ->).
  destruct (bind_returns _ _ _ _ E2) as (t3 & out & t4 & Hf & E4 & ->).
  injection E4 as <- <-.
  assert (t3 = []) as ->.
  { pose proof (filterURLs_free (fun _ => true) (fst found) (referenceOf config)
                                (includeOf config) (excludeOf config)) as F.
    apply free_silent in F. rewrite Hf in F. exact F. }
  exists t1, found, out. rewrite !app_nil_r. auto.
Qed.

(** A crawl that returns starts and ends with the browser. *)
Lemma crawlWebsite_returns_trace baseUrl options t urls :
  crawlWebsite w baseUrl options = (t, Returns urls) ->
  exists mid, t = (BrowserLaunch :: BrowserNewPage :: PageGoto baseUrl :: mid
                   ++ [BrowserClose])%list.
Proof.
  unfold crawlWebsite, attempt, newURL, visitHomepage.
  destruct (launchError (browser w)) as [msg|]; [discriminate|].
  destruct (newPageError (browser w)) as [msg|]; [discriminate|].
  destruct (parseURL baseUrl) as [b|]; [|discriminate].
  destruct (gotoError (browser w)) as [m3|];
    [|destruct (anchors (browser w)) as [links|]];
    destruct (closeError (browser w)) as [m4|]; cbn -[setAdd]; try discriminate;
    intros [= <- _].
  - exists [ConsoleError ("   Crawler error: " ++ m3)]. reflexivity.
  - exists [PageEvaluate]. reflexivity.
  - exists [PageEvaluate; ConsoleError "   Crawler error: page.evaluate failed"].
    reflexivity.
Qed.

(** Events on the working directory, and engine runs. *)
Definition touchesDisk (e : Event) : bool :=
  match e with
  | FsWrite _ _ | FsMkdir _ | FsRemove _ | Spawn _ => true
  | _ => false
  end.

Lemma crawlWebsite_keeps_off_disk baseUrl options :
  free touchesDisk (crawlWebsite w baseUrl options).
Proof.
  unfold free, crawlWebsite, attempt, newURL, visitHomepage.
  destruct (launchError (browser w)); [repeat constructor|].
  destruct (newPageError (browser w)); [repeat constructor|].
  destruct (parseURL baseUrl) as [b|]; [|repeat constructor].
  destruct (gotoError (browser w)) as [m3|];
    [|destruct (anchors (browser w)) as [links|]];
    destruct (closeError (browser w)) as [m4|]; repeat constructor.
Qed.

Lemma collectURLs_keeps_off_disk config : free touchesDisk (collectURLs w config).
Proof.
  unfold collectURLs. apply free_bind.
  - unfold discover, collectFromSitemap.
    free_with ltac:(apply crawlWebsite_keeps_off_disk).
  - intros found. apply free_bind; [apply filterURLs_free|intros; apply free_ret].
Qed.

Definition sitemapWarning : string := "⚠️ Sitemap fetch failed, falling back to crawler".

(** X18.  Where the URLs came from.  A result with source sitemap
    means that the sitemap request was the only event: the sitemap URL
    resolved, the request answered with a non-empty list, [total] is
    its length, and no browser was started.  A result with source crawl
    means that the sitemap strategy failed (at most one request), that
    the fallback was announced, and that the browser was started after
    that and closed at the end. *)
Theorem collectURLs_source_tells_the_trace (config : object) (t : list Event)
    (r : URLCollectionResult.t) :
  collectURLs w config = (t, Returns r) ->
  (URLCollectionResult.source r = sitemapSource ->
   exists u sites,
     resolveURL (sitemapPathOf config) (referenceOf config) = Some u
     /\ sitemap w (href u) = Sites (Some sites) /\ sites <> []
     /\ t = [SitemapFetch (href u)]
     /\ URLCollectionResult.total r = length sites)
  /\ (URLCollectionResult.source r = crawlSource ->
      exists before mid,
        t = (before ++ ConsoleError sitemapWarning :: BrowserLaunch :: BrowserNewPage
                    :: PageGoto (referenceOf config) :: mid ++ [BrowserClose])%list
        /\ (before = []
            \/ exists u, resolveURL (sitemapPathOf config) (referenceOf config) = Some u
                         /\ before = [SitemapFetch (href u)])).
Proof.
  intros E.
  destruct (collectURLs_returns _ _ _ E) as (t1 & found & out & Hd & _ & -> & ->).
  cbn [URLCollectionResult.source URLCollectionResult.total].
  unfold discover in Hd. fold (referenceOf config) in Hd.
  unfold collectFromSitemap in Hd.
  destruct (resolveURL (sitemapPathOf config) (referenceOf config)) as [u|].
  - destruct (sitemap w (href u)) as [msg|[[|site rest]|]] eqn:S.
    1,2,4: split; [|intros _];
      cbn [bind tryCatch emit throw app] in Hd;
      destruct (crawlWebsite w (referenceOf config) (getProp "crawlOptions" config))
        as [tc [urls|e|c]] eqn:C; cbn in Hd; try discriminate;
      injection Hd as <- <-; [intros N; discriminate|];
      destruct (crawlWebsite_returns_trace _ _ _ _ C) as [mid ->];
      exists [SitemapFetch (href u)], mid; (split; [rewrite ?app_nil_r; reflexivity|]);
      right; exists u; auto.
    cbn in Hd. injection Hd as <- <-. split; [|intros N; discriminate].
    intros _. exists u, (site :: rest). repeat split; try assumption. discriminate.
  - split; [|intros _];
      cbn [bind tryCatch emit throw app] in Hd;
      destruct (crawlWebsite w (referenceOf config) (getProp "crawlOptions" config))
        as [tc [urls|e|c]] eqn:C; cbn in Hd; try discriminate;
      injection Hd as <- <-; [intros N; discriminate|].
    destruct (crawlWebsite_returns_trace _ _ _ _ C) as [mid ->].
    exists [], mid. split; [rewrite ?app_nil_r; reflexivity|left; reflexivity].
Qed.

(** X19.  One sitemap entry that is not an absolute URL fails the whole
    collection: [filterURLs] parses every entry before it looks at the
    host, so [collectURLs] raises an error after the sitemap request,
    with no fallback to the crawl and no browser started. *)
Theorem collectURLs_fails_on_unparsable_entry (config : object) (u : URL)
    (sites : list string) (url : string) :
  resolveURL (sitemapPathOf config) (referenceOf config) = Some u ->
  sitemap w (href u) = Sites (Some sites) ->
  In url sites -> parseURL url = None ->
  exists err, collectURLs w config = ([SitemapFetch (href u)], Throws err).
Proof.
  intros Hu Hs Hin Hp.
  assert (Hd : discover w config = ([SitemapFetch (href u)], Returns (sites, sitemapSource))).
  { apply discover_sitemap. unfold collectFromSitemap. rewrite Hu, Hs.
    destruct sites as [|site rest]; [destruct Hin|reflexivity]. }
  destruct (filterURLs_unparsable sites (referenceOf config) (includeOf config)
                                  (excludeOf config) url Hin Hp) as (tf & err & Hf).
  assert (tf = []) as ->.
  { pose proof (filterURLs_free (fun _ => true) sites (referenceOf config)
                                (includeOf config) (excludeOf config)) as F.
    apply free_silent in F. rewrite Hf in F. exact F. }
  exists err. unfold collectURLs. fold (referenceOf config).
  rewrite (bind_step _ _ _ _ Hd). cbn [fst].
  rewrite (bind_throws _ _ _ _ Hf). reflexivity.
Qed.
End CollectResultFacts.

(** ** Regenerating *)

Section RegenerateFacts.
Context `{Platform}.
Variable w : World.

(** An update that is asked for starts with the baseline phase. *)
Lemma runVisualTests_forced options :
  RunnerOptions.updateBaseline options = true ->
  exists rest, trace (runVisualTests w options) = Spawn (baselineRun w options) :: rest.
Proof.
  intros Hu. unfold runVisualTests. fold (baselineRun w options) (comparisonRun w options).
  rewrite Hu. cbn [negb andb].
  rewrite !runPlaywright_value. cbn [updateSnapshots baselineRun comparisonRun].
  destruct (parseResults_returns w (RunnerOptions.outputDir options)) as [counts E].
  rewrite E.
  destruct (engine w true) as [msgb|codeb]; destruct (engine w false) as [msgc|codec];
    cbn; eexists; reflexivity.
Qed.

(** The two files a regeneration writes, in this order. *)
Definition regenerated (config : object) (urls : list string) : list Event :=
  [ FsWrite (pathJoin (snapshotDir w) "urls.json") (strs urls);
    FsWrite (pathJoin (snapshotDir w) ".cache-hash.json") (hashesOf w config) ].

Lemma isEmptyList_strs urls :
  isEmptyList (strs urls) = ret (match urls with [] => true | _ => false end).
Proof. destruct urls; reflexivity. Qed.

(** X20.  The regeneration path of [main]: an update asked for, or a
    cache that is not valid.  The URL file on disk is not read.  When
    [collectURLs] raises, nothing is written.  When it returns, the URL
    list is written first and the manifest second, also when the list is
    empty, in which case the run then ends in "No URLs found to test"
    with both files written.  With a list that is not empty the next
    event is the baseline capture against the reference URL, whether or
    not baseline images are on disk. *)
Theorem regeneration_writes_list_then_manifest (args : CLIOptions.t) (st : Prepared) :
  CLIOptions.updateBaseline args || negb (cacheValid st) = true ->
  (forall t err, collectURLs w (config st) = (t, Throws err) ->
                 proceed w args st = (t, Throws err))
  /\ (forall t r, collectURLs w (config st) = (t, Returns r) ->
        let written := regenerated (config st) (URLCollectionResult.urls r) in
        (URLCollectionResult.urls r = [] ->
         proceed w args st
         = ((t ++ written)%list, Throws (mkError "No URLs found to test")))
        /\ (URLCollectionResult.urls r <> [] ->
            exists options rest,
              trace (proceed w args st)
              = (t ++ written ++ Spawn options :: rest)%list
              /\ updateSnapshots options = true
              /\ baseURL options = toStringOpt (getProp "referenceUrl" (config st))
              /\ vrtConfig options = config st)).
Proof.
  intros Hre. unfold proceed. rewrite Hre. cbn [negb andb]. rewrite andb_false_r.
  split.
  - intros t err E. rewrite E. reflexivity.
  - intros t r E. cbv zeta. rewrite E.
    match goal with
    | |- context [bind (bind (t, Returns r) ?k1) ?k2] =>
        assert (B : bind (t, Returns r) k1
                    = ((t ++ regenerated (config st) (URLCollectionResult.urls r))%list,
                       Returns (strs (URLCollectionResult.urls r))))
          by reflexivity;
        rewrite (bind_step _ k2 _ _ B)
    end.
    rewrite isEmptyList_strs, bind_ret_l. split.
    + intros Hnil. rewrite Hnil. cbn [throw trace outcome fst snd].
      rewrite app_nil_r. reflexivity.
    + intros Hne.
      destruct (URLCollectionResult.urls r) as [|url more] eqn:U; [contradiction|].
      match goal with
      | |- context [runVisualTests w ?o] =>
          destruct (runVisualTests_forced o eq_refl) as [rest Hrest];
          exists (baselineRun w o), rest; split; [|repeat split];
          assert (V : (if CLIOptions.verbose args
                       then match strs (url :: more) with
                            | JArr _ => ret tt
                            | _ => throw (mkError "urls.forEach is not a function")
                            end
                       else ret tt) = ret tt)
            by (destruct (CLIOptions.verbose args); reflexivity);
          rewrite V, bind_ret_l
      end.
      cbn [trace fst]. rewrite trace_bind, Hrest, <- app_assoc. f_equal. f_equal.
      match goal with
      | |- context [outcome ?m] => destruct (outcome m)
      end; cbn [trace exit fst]; rewrite ?app_nil_r; reflexivity.
Qed.

(** X21.  An empty URL list sticks.  After a regeneration that found
    no URL (it wrote the empty list and the manifest, see above), an
    invocation with the same effective configuration and test file, and
    no update asked for, finds the cache valid, reads the empty list
    back, and ends in "No URLs found to test" without any event: no
    sitemap request, no browser, no engine, nothing written. *)
Theorem empty_list_is_reused (w0 : World) (args : CLIOptions.t) (config0 : object)
    (explicit : bool) :
  cacheHashFile w = Holds (hashesOf w0 config0) ->
  testFileHash w = testFileHash w0 ->
  urlsFile w = Holds (strs []) ->
  CLIOptions.updateBaseline args = false ->
  isCacheValid w config0 = true
  /\ proceed w args {| config := config0; hasExplicitReference := explicit;
                       cacheValid := isCacheValid w config0 |}
     = ([], Throws (mkError "No URLs found to test")).
Proof.
  intros Hm Ht Hu Ha.
  assert (V : isCacheValid w config0 = true).
  { unfold isCacheValid. rewrite Hm. unfold hashesOf.
    cbn [field getProp lookup String.eqb Ascii.eqb Bool.eqb strictEquals].
    fold (testFileHash w) (testFileHash w0).
    rewrite Ht, !String.eqb_refl. reflexivity. }
  split; [exact V|].
  unfold proceed. cbn [cacheValid]. rewrite V, Ha, Hu. cbn [negb orb andb].
  rewrite bind_ret_l. reflexivity.
Qed.
End RegenerateFacts.

(** ** What the fingerprint covers *)

Lemma insertSorted_In x k l : In x (insertSorted k l) <-> x = k \/ In x l.
Proof.
  induction l as [|h t IH]; cbn [insertSorted In].
  - intuition congruence.
  - destruct (String.leb k h); cbn [In]; [intuition congruence|].
    rewrite IH. intuition congruence.
Qed.

Lemma sortStrings_In x l : In x (sortStrings l) <-> In x l.
Proof.
  induction l as [|k rest IH]; cbn [sortStrings fold_right In]; [tauto|].
  fold (sortStrings rest). rewrite insertSorted_In, IH. intuition congruence.
Qed.

Lemma keys_setProp_In k v o : In k (keys o) -> keys (setProp k v o) = keys o.
Proof.
  unfold keys. induction o as [|[h x] rest IH]; [intros []|].
  cbn [setProp map fst In]. destruct (String.eqb k h) eqn:E.
  - apply String.eqb_eq in E. subst h. reflexivity.
  - intros [N|Hin]; [subst h; rewrite String.eqb_refl in E; discriminate|].
    cbn [map fst]. rewrite (IH Hin). reflexivity.
Qed.

Lemma lookup_not_In {A} k (l : list (string * A)) : ~ In k (map fst l) -> lookup k l = None.
Proof.
  induction l as [|[h x] rest IH]; [reflexivity|].
  cbn [map fst In lookup]. intros N. destruct (String.eqb k h) eqn:E.
  - apply String.eqb_eq in E. subst h. exfalso. apply N. left. reflexivity.
  - apply IH. intros Hin. apply N. right. exact Hin.
Qed.

(** An object none of whose property names is on the property list. *)
Definition unlisted (names : list string) (v : JSON) : Prop :=
  match v with
  | JObj o => forall key, In key (keys o) -> ~ In key names
  | _ => False
  end.

(** Under a property list such an object is written as the empty object. *)
Lemma serialize_unlisted ks v :
  unlisted ks v -> serialize (Some ks) v = "{}".
Proof.
  destruct v as [| | | | |o]; try contradiction. cbn [unlisted]. intros Hu.
  rewrite serialize_object.
  assert (E : flat_map (fun P => match lookup P (mapValues (serialize (Some ks)) o) with
                                 | Some str => [quote P ++ ":" ++ str]
                                 | None => []
                                 end) ks = []).
  { assert (G : forall names, (forall P, In P names -> In P ks) ->
                  flat_map (fun P => match lookup P (mapValues (serialize (Some ks)) o) with
                                     | Some str => [quote P ++ ":" ++ str]
                                     | None => []
                                     end) names = []).
    { induction names as [|P rest IH]; intros Hsub; [reflexivity|].
      cbn [flat_map]. rewrite lookup_not_In.
      - apply IH. intros Q HQ. apply Hsub. right. exact HQ.
      - rewrite keys_mapValues. intros Hin. apply (Hu P Hin). apply Hsub. left. reflexivity. }
    apply G. auto. }
  rewrite E. reflexivity.
Qed.

(** The property list [computeConfigHash] hands to JSON.stringify. *)
Definition replacerOf (config : object) : list string := setOf (sortStrings (keys config)).

Lemma replacerOf_In config key : In key (replacerOf config) <-> In key (keys config).
Proof.
  unfold replacerOf. rewrite setOf_firstOccurrences, firstOccurrences_In.
  apply sortStrings_In.
Qed.

Lemma computeConfigHash_setProp config k v v' :
  In k (keys config) ->
  serialize (Some (replacerOf config)) v = serialize (Some (replacerOf config)) v' ->
  computeConfigHash (setProp k v config) = computeConfigHash (setProp k v' config).
Proof.
  intros Hk Hv. unfold computeConfigHash, stringify.
  rewrite !(keys_setProp_In _ _ _ Hk). fold (replacerOf config). f_equal.
  rewrite !serialize_object. do 3 f_equal.
  apply flat_map_ext. intros P. rewrite !lookup_mapValues.
  fold (getProp P (setProp k v config)) (getProp P (setProp k v' config)).
  rewrite !getProp_setProp. destruct (String.eqb P k); [|reflexivity].
  cbn [option_map]. rewrite Hv. reflexivity.
Qed.

(** X22.  The fingerprint of the configuration does not cover nested
    properties.  Under a top-level key, any object none of whose
    property names is itself a top-level key of the configuration can
    be replaced by any other such object, and any array of such objects
    by any other array of such objects of the same length, without
    changing [computeConfigHash]: the array replacer of JSON.stringify
    applies at every depth.  (In this tool's configuration that is the
    case for the crawl options, the threshold and every viewport.) *)
Theorem fingerprint_ignores_nested_properties (config : object) (k : string) :
  In k (keys config) ->
  (forall v v', unlisted (keys config) v -> unlisted (keys config) v' ->
     computeConfigHash (setProp k v config) = computeConfigHash (setProp k v' config))
  /\ (forall items items',
        length items = length items' ->
        Forall (unlisted (keys config)) items -> Forall (unlisted (keys config)) items' ->
        computeConfigHash (setProp k (JArr items) config)
        = computeConfigHash (setProp k (JArr items') config)).
Proof.
  intros Hk.
  assert (Hs : forall v, unlisted (keys config) v ->
                         serialize (Some (replacerOf config)) v = "{}").
  { intros v Hv. apply serialize_unlisted.
    destruct v as [| | | | |o]; try contradiction. cbn [unlisted] in *.
    intros key Hin N. apply replacerOf_In in N. exact (Hv key Hin N). }
  split.
  - intros v v' Hv Hv'. apply computeConfigHash_setProp; [exact Hk|].
    rewrite (Hs v Hv), (Hs v' Hv'). reflexivity.
  - intros items items' Hlen Hi Hi'. apply computeConfigHash_setProp; [exact Hk|].
    cbn [serialize]. do 3 f_equal.
    assert (G : forall l, Forall (unlisted (keys config)) l ->
                          map (serialize (Some (replacerOf config))) l
                          = repeat "{}" (length l)).
    { induction 1 as [|x rest Hx _ IH]; [reflexivity|].
      cbn [map length repeat]. rewrite (Hs x Hx), IH. reflexivity. }
    rewrite (G _ Hi), (G _ Hi'), Hlen. reflexivity.
Qed.

(** X23.  A fingerprint is a text of 64 characters, whatever is hashed,
    so it is never the empty text that stands for a missing test file:
    a manifest written while the packaged test file was missing is not
    valid once the file is there, and a manifest written with the file
    is not valid while it is missing, whatever the configuration. *)
Theorem fingerprint_never_empty :
  (forall text, String.length (computeFileHash text) = 64)
  /\ (forall config, String.length (computeConfigHash config) = 64)
  /\ (forall w, testFileHash w = "" <-> testSpec w = None)
  /\ (forall w w' config config',
        cacheHashFile w' = Holds (hashesOf w config) ->
        (testSpec w = None <-> testSpec w' <> None) ->
        isCacheValid w' config' = false).
Proof.
  assert (Happ : forall a b, String.length (a ++ b) = String.length a + String.length b).
  { induction a as [|c a IH]; intros b; cbn [append String.length]; [reflexivity|].
    rewrite IH. reflexivity. }
  assert (Hconcat : forall ws, String.length (String.concat "" (map SHA256.hexWord ws))
                               = 8 * length ws).
  { induction ws as [|x rest IH]; [reflexivity|].
    cbn [map String.concat]. destruct rest as [|y rest'].
    - reflexivity.
    - cbn [map] in *. rewrite !Happ, IH. cbn [String.length length]. 
      change (String.length (SHA256.hexWord x)) with 8. lia. }
  assert (Hcompress : forall h block, length h = 8 -> length (SHA256.compress h block) = 8).
  { intros h block Hh. unfold SHA256.compress.
    rewrite length_map, length_combine, Hh. reflexivity. }
  assert (Hfold : forall blocks h, length h = 8 ->
                                   length (fold_left SHA256.compress blocks h) = 8).
  { induction blocks as [|b rest IH]; intros h Hh; [exact Hh|].
    cbn [fold_left]. apply IH, Hcompress, Hh. }
  assert (Hhex : forall text, String.length (SHA256.hex text) = 64).
  { intros text. unfold SHA256.hex, SHA256.digestWords.
    rewrite Hconcat, Hfold; reflexivity. }
  assert (Hne : forall text, SHA256.hex text <> "").
  { intros text N. pose proof (Hhex text) as L. rewrite N in L. discriminate. }
  assert (Htest : forall w, testFileHash w = "" <-> testSpec w = None).
  { intros w. unfold testFileHash, computeFileHash.
    destruct (testSpec w) as [text|]; [|tauto].
    split; [intros N; destruct (Hne _ N)|discriminate]. }
  split; [exact Hhex|]. split; [intros config; apply Hhex|]. split; [exact Htest|].
  intros w w' config config' E Hdiff.
  unfold isCacheValid. rewrite E. unfold hashesOf.
  cbn [field getProp lookup String.eqb Ascii.eqb Bool.eqb strictEquals].
  fold (testFileHash w) (testFileHash w').
  apply andb_false_iff. right. apply String.eqb_neq. intros N.
  destruct (testSpec w) as [text|] eqn:T.
  - assert (Hw' : testSpec w' = None).
    { destruct (testSpec w') as [text'|] eqn:T'; [|reflexivity].
      exfalso. destruct Hdiff as [_ Hd]. assert (D : Some text = None) by (apply Hd; discriminate).
      discriminate. }
    apply Htest in Hw'. assert (Hw : testFileHash w = "") by congruence.
    apply Htest in Hw. rewrite T in Hw. discriminate.
  - assert (Hw : testFileHash w = "") by (apply Htest; exact T).
    assert (Hw' : testFileHash w' = "") by congruence.
    apply Htest in Hw'. destruct Hdiff as [Hd _]. exact (Hd eq_refl Hw').
Qed.

(** ** Errors before the run *)

Section EarlyErrors.
Context `{Platform}.
Variable w : World.

(** A preparation that raises has done nothing. *)
Lemma prepare_throws_silent args t err :
  prepare w args = (t, Throws err) -> t = [].
Proof.
  unfold prepare.
  set (load := if truthyStr (CLIOptions.config args)
               then loadConfig w (pathResolve w (textOf (CLIOptions.config args)))
               else ret DEFAULT_CONFIG).
  assert (Hl : trace load = []).
  { apply free_silent. subst load.
    destruct (truthyStr _); [apply loadConfig_free|apply free_ret]. }
  destruct load as [tl [loaded|e|c]]; cbn [trace fst] in Hl; subst tl;
    [|intros [= <- _]; reflexivity|discriminate].
  unfold bind at 1. destruct (applyOverrides args loaded) as [config explicit].
  pose proof (free_silent _ (validateConfig_free (fun _ => true) config)) as Hv.
  destruct (validateConfig config) as [tv [[]|e|c]]; cbn [trace fst] in Hv; subst tv.
  - unfold bind, emit, ret.
    destruct (negb (dirExists w snapshotsName)); cbn; discriminate.
  - cbn. intros [= <- _]. reflexivity.
  - cbn. discriminate.
Qed.

End EarlyErrors.

(** * Further concrete runs *)

(** ** Configuration *)

Lemma validateConfig_checks_four_keys_only_witness :
  validateConfig (setProp "maxUrls" (JNum (int (-5))) effectiveConfig)
  = validateConfig effectiveConfig.
Proof.
  apply (validateConfig_checks_four_keys_only effectiveConfig "maxUrls" (JNum (int (-5))));
    discriminate.
Defined.


(** A config file that names the test URL and one crawl option. *)
Definition stagingFile : object :=
  [ ("testUrl", JStr "https://stage.test");
    ("crawlOptions", JObj [ ("maxDepth", JNum (int 3)) ]) ].

Definition withConfigFile (w : World) (path : string) (content : File JSON) : World :=
  {| argv := argv w; cwd := cwd w; packageDir := packageDir w; now := now w;
     configFile := fun p => if String.eqb p path then content else Missing;
     dirExists := dirExists w; snapshotEntries := snapshotEntries w;
     cacheHashFile := cacheHashFile w; urlsFile := urlsFile w; testSpec := testSpec w;
     sitemap := sitemap w; browser := browser w;
     engine := engine w; resultsFile := resultsFile w |}.

Definition configured : World :=
  withConfigFile emptyWorld "/work/vrt.json" (Holds (JObj stagingFile)).

Lemma loadConfig_merges_by_field_witness :
  configFile configured "/work/vrt.json" = Holds (JObj stagingFile)
  /\ NoDup (keys stagingFile)
  /\ exists merged,
       loadConfig configured "/work/vrt.json" = ret merged
       /\ getProp "testUrl" merged = Some (JStr "https://stage.test")
       /\ getProp "maxUrls" merged = Some (JNum (int 25)).
Proof.
  assert (Hf : configFile configured "/work/vrt.json" = Holds (JObj stagingFile))
    by reflexivity.
  assert (Hn : NoDup (keys stagingFile)).
  { repeat constructor; cbn; intuition discriminate. }
  destruct (loadConfig_merges_by_field configured "/work/vrt.json" stagingFile Hf Hn)
    as (merged & E & Hk & _).
  split; [exact Hf|]. split; [exact Hn|]. exists merged. split; [exact E|].
  split; rewrite Hk; try reflexivity; repeat split; discriminate.
Defined.

Lemma prepare_establishes_witness :
  prepare scenarioA argsA = ([FsMkdir "/work/playwright-snapshots"], Returns preparedA)
  /\ hasExplicitReference preparedA = false
  /\ getProp "referenceUrl" (config preparedA) = Some (JStr "https://a.test")
  /\ cacheValid preparedA = isCacheValid scenarioA (config preparedA).
Proof.
  assert (Hp : prepare scenarioA argsA
               = ([FsMkdir "/work/playwright-snapshots"], Returns preparedA))
    by (vm_compute; reflexivity).
  destruct (prepare_establishes scenarioA argsA _ preparedA Hp)
    as (_ & _ & _ & Hc & Himp & _).
  split; [exact Hp|]. split; [reflexivity|]. split; [|exact Hc].
  rewrite (Himp eq_refl). reflexivity.
Defined.

Lemma fingerprint_ignores_nested_properties_witness :
  In "threshold" (keys effectiveConfig)
  /\ computeConfigHash
       (setProp "threshold" (JObj [ ("maxDiffPixels", JNum (int 5000)) ]) effectiveConfig)
     = computeConfigHash (setProp "threshold" (JObj defaultThreshold) effectiveConfig).
Proof.
  assert (Hk : In "threshold" (keys effectiveConfig)) by (do 6 right; left; reflexivity).
  destruct (fingerprint_ignores_nested_properties effectiveConfig "threshold" Hk)
    as [Hobjects _].
  split; [exact Hk|]. apply Hobjects.
  - intros key [<-|[]] N. cbn in N. intuition discriminate.
  - intros key [<-|[<-|[]]] N; cbn in N; intuition discriminate.
Defined.

(** ** The report *)

(** Three specs in two suites, one of them failed, and a nested suite
    whose spec is not counted. *)
Definition mixedReport : object :=
  [ ("suites",
     JArr [ JObj [ ("title", JStr "vrt.spec.ts");
                   ("specs", JArr [ JObj [ ("ok", JBool true) ];
                                    JObj [ ("ok", JBool false) ] ]);
                   ("suites", JArr [ JObj [ ("specs", JArr [ JObj [ ("ok", JBool true) ] ]) ] ]) ];
            JObj [ ("specs", JArr [ JObj [ ("ok", JBool true) ] ]) ] ]) ].

Definition reported : World :=
  world stagingArgs true snapshotsOnDisk Missing Missing (FetchFails "offline")
        (quietBrowser "https://prod.test/") (Closed (Some 1%Z)) (Holds (JObj mixedReport)).

Lemma parseResults_counts_top_level_specs_witness :
  resultsFile reported = Holds (JObj mixedReport)
  /\ parseResults reported "/work/playwright-report"
     = ([], Returns {| TestResults.passed := 2; TestResults.failed := 1;
                       TestResults.total := 3; TestResults.exitCode := 0 |}).
Proof.
  split; [reflexivity|].
  destruct (parseResults_counts_top_level_specs reported "/work/playwright-report"
              mixedReport _ eq_refl eq_refl) as [Hcount _].
  exact (Hcount eq_refl).
Defined.

(** ** Collecting *)

Lemma filterURLs_returns_same_host_sublist_witness :
  filterURLs smallSite "https://a.test" ["**"] ["**/admin/**"]
  = ([], Returns ["https://a.test/"; "https://a.test/blog?page=2"])
  /\ Forall (fun url => parseURL url <> None) smallSite
  /\ ["https://a.test/"; "https://a.test/blog?page=2"]
     = filter (kept (theURL "https://a.test") ["**"] ["**/admin/**"]) smallSite.
Proof.
  assert (E : filterURLs smallSite "https://a.test" ["**"] ["**/admin/**"]
              = ([], Returns ["https://a.test/"; "https://a.test/blog?page=2"]))
    by (vm_compute; reflexivity).
  destruct (filterURLs_returns_same_host_sublist _ _ _ _ _ _ E) as (_ & Hall & Hout & _).
  split; [exact E|]. split; [exact Hall|].
  apply Hout. vm_compute. reflexivity.
Defined.

(** A page with links: one with a final slash, two with a fragment, one
    to another host, one that is no web address, one with a query. *)
Definition linkedBrowser : Browser :=
  {| launchError := None; newPageError := None; gotoError := None;
     pageUrl := "https://prod.test/";
     anchors := Some [ "https://prod.test/about/"; "https://prod.test/#top";
                       "https://other.test/pricing"; "mailto:team@prod.test";
                       "https://prod.test/about#team"; "https://prod.test/blog?page=2" ];
     closeError := None |}.

Definition linkedSite : World :=
  world stagingArgs false [] Missing Missing (FetchFails "offline") linkedBrowser
        (Closed (Some 0%Z)) Missing.

Definition linkedPages : list string :=
  ["https://prod.test/"; "https://prod.test/about"; "https://prod.test/blog?page=2"].

Lemma crawlWebsite_result_witness :
  crawlWebsite linkedSite "https://prod.test" (getProp "crawlOptions" effectiveConfig)
  = ([BrowserLaunch; BrowserNewPage; PageGoto "https://prod.test"; PageEvaluate;
      BrowserClose], Returns linkedPages)
  /\ NoDup linkedPages.
Proof.
  assert (E : crawlWebsite linkedSite "https://prod.test"
                           (getProp "crawlOptions" effectiveConfig)
              = ([BrowserLaunch; BrowserNewPage; PageGoto "https://prod.test"; PageEvaluate;
                  BrowserClose], Returns linkedPages))
    by (vm_compute; reflexivity).
  destruct (crawlWebsite_result linkedSite _ _ _ _ E) as (b & _ & _ & _ & _ & _ & Hn & _).
  split; [exact E|exact Hn].
Defined.

Definition cappedResult : URLCollectionResult.t :=
  {| URLCollectionResult.urls :=
       ["https://prod.test/a"; "https://prod.test/b"; "https://prod.test/c"];
     URLCollectionResult.source := sitemapSource;
     URLCollectionResult.total := 6;
     URLCollectionResult.filtered := 4 |}.


Definition linkedResult : URLCollectionResult.t :=
  {| URLCollectionResult.urls := linkedPages;
     URLCollectionResult.source := crawlSource;
     URLCollectionResult.total := 3;
     URLCollectionResult.filtered := 3 |}.

Lemma collectURLs_source_tells_the_trace_witness :
  collectURLs linkedSite effectiveConfig
  = ([SitemapFetch "https://prod.test/sitemap.xml"; ConsoleError sitemapWarning;
      BrowserLaunch; BrowserNewPage; PageGoto "https://prod.test"; PageEvaluate;
      BrowserClose], Returns linkedResult)
  /\ exists before mid,
       [SitemapFetch "https://prod.test/sitemap.xml"; ConsoleError sitemapWarning;
        BrowserLaunch; BrowserNewPage; PageGoto "https://prod.test"; PageEvaluate;
        BrowserClose]
       = (before ++ ConsoleError sitemapWarning :: BrowserLaunch :: BrowserNewPage
                 :: PageGoto (referenceOf effectiveConfig) :: mid ++ [BrowserClose])%list.
Proof.
  assert (E : collectURLs linkedSite effectiveConfig
              = ([SitemapFetch "https://prod.test/sitemap.xml"; ConsoleError sitemapWarning;
                  BrowserLaunch; BrowserNewPage; PageGoto "https://prod.test"; PageEvaluate;
                  BrowserClose], Returns linkedResult))
    by (vm_compute; reflexivity).
  destruct (collectURLs_source_tells_the_trace linkedSite effectiveConfig _ _ E)
    as [_ Hcrawl].
  split; [exact E|].
  destruct (Hcrawl eq_refl) as (before & mid & Ht & _).
  exists before, mid. exact Ht.
Defined.

(** A sitemap with one entry that is a path, not an absolute URL. *)
Definition relativeEntry : World :=
  world stagingArgs false [] Missing Missing
        (Sites (Some [ "https://prod.test/"; "/contact"; "https://prod.test/about" ]))
        (quietBrowser "https://prod.test/") (Closed (Some 0%Z)) Missing.

Lemma collectURLs_fails_on_unparsable_entry_witness :
  parseURL "/contact" = None
  /\ exists err,
       collectURLs relativeEntry effectiveConfig
       = ([SitemapFetch "https://prod.test/sitemap.xml"], Throws err).
Proof.
  assert (Hp : parseURL "/contact" = None) by (vm_compute; reflexivity).
  assert (Hu : resolveURL (sitemapPathOf effectiveConfig) (referenceOf effectiveConfig)
               = Some (theURL "https://prod.test/sitemap.xml"))
    by (vm_compute; reflexivity).
  split; [exact Hp|].
  apply (collectURLs_fails_on_unparsable_entry relativeEntry effectiveConfig
           (theURL "https://prod.test/sitemap.xml")
           [ "https://prod.test/"; "/contact"; "https://prod.test/about" ] "/contact");
    [exact Hu|reflexivity|right; left; reflexivity|exact Hp].
Defined.

(** ** Regenerating *)

Definition uncached : Prepared :=
  {| config := effectiveConfig; hasExplicitReference := true; cacheValid := false |}.

Lemma regeneration_writes_list_then_manifest_witness :
  CLIOptions.updateBaseline argsD || negb (cacheValid uncached) = true
  /\ proceed noBrowser argsD uncached
     = ([ SitemapFetch "https://prod.test/sitemap.xml"; ConsoleError sitemapWarning;
          BrowserLaunch ],
        Throws (mkError "Executable doesn't exist at chromium")).
Proof.
  assert (Hre : CLIOptions.updateBaseline argsD || negb (cacheValid uncached) = true)
    by reflexivity.
  destruct (regeneration_writes_list_then_manifest noBrowser argsD uncached Hre)
    as [Hthrows _].
  split; [exact Hre|]. apply Hthrows. vm_compute. reflexivity.
Defined.

(** The disk after a regeneration that found no URL. *)
Definition nothingFound : World :=
  world stagingArgs true [ FileEntry "urls.json"; FileEntry ".cache-hash.json" ] Missing
        (Holds (strs [])) (FetchFails "offline") (quietBrowser "https://prod.test/")
        (Closed (Some 0%Z)) Missing.

Lemma empty_list_is_reused_witness :
  cacheHashFile (afterFirstRun nothingFound) = Holds (hashesOf nothingFound effectiveConfig)
  /\ urlsFile (afterFirstRun nothingFound) = Holds (strs [])
  /\ isCacheValid (afterFirstRun nothingFound) effectiveConfig = true
  /\ outcome (main (afterFirstRun nothingFound)) = Exits 2%Z.
Proof.
  destruct (empty_list_is_reused (afterFirstRun nothingFound) nothingFound argsD
              effectiveConfig true eq_refl eq_refl eq_refl eq_refl) as [Hv _].
  split; [reflexivity|]. split; [reflexivity|]. split; [exact Hv|].
  vm_compute. reflexivity.
Defined.

(** ** Errors before the run *)

Definition missingConfig : World :=
  world ["run"; "--config"; "vrt.json"] false [] Missing Missing (FetchFails "offline")
        (quietBrowser "https://a.test/") (Closed (Some 0%Z)) Missing.

Definition argsOfMissingConfig : CLIOptions.t :=
  Eval vm_compute in returned noArgs (parseArgs missingConfig).

